(** * FMCSA register scraper: record extraction, categorisation, deduplication

    A shallow embedding of the record-extraction code of the repository:

    - the HTML path ([src/server/index.ts], route [/api/fmcsa-register], and
      its serverless twin [src/unnamed/part_000]);
    - the PDF path ([src/api/fmcsa-register.ts], and the Express variant
      with a fallback pass, [src/unnamed/part_001]);
    - the two date converters [formatDateForPDF] and [formatDateForFMCSA].

    Text is modelled as [string]: a sequence of code units below 256, each
    the character of that code point.  The character classes, [trim] and the
    case conversions are those of ECMAScript on that range; the result of
    [toUpperCase], which can leave the range, is a sequence of 16-bit code
    units.  JavaScript numbers used as indices are [Z] at the string API
    ([indexOf] answers [-1]), and [nat] inside the regular-expression
    engine. *)

From Stdlib Require Import String Ascii List ZArith NArith Lia Bool Arith.
From Stdlib Require Import DecimalString.
Import ListNotations.

Local Open Scope list_scope.
Local Open Scope string_scope.
Local Open Scope nat_scope.

(** ** JavaScript strings *)

Module JsString.

(** [s.length] *)
Definition len (s : string) : Z := Z.of_nat (String.length s).

(** The characters of [s] from index [n] on. *)
Fixpoint drop (n : nat) (s : string) : string :=
  match n, s with
  | O, _ => s
  | S n', String _ s' => drop n' s'
  | S _, EmptyString => EmptyString
  end.

(** The first [n] characters of [s]. *)
Fixpoint take (n : nat) (s : string) : string :=
  match n, s with
  | O, _ => EmptyString
  | S n', String c s' => String c (take n' s')
  | S _, EmptyString => EmptyString
  end.

(** [s.startsWith(pat)] *)
Fixpoint startsWith (s pat : string) {struct pat} : bool :=
  match pat, s with
  | EmptyString, _ => true
  | String a pat', String b s' => Ascii.eqb a b && startsWith s' pat'
  | String _ _, EmptyString => false
  end.

(** [s] without its prefix [pat], when it has that prefix. *)
Fixpoint stripPrefix (pat s : string) : option string :=
  match pat, s with
  | EmptyString, _ => Some s
  | String a pat', String b s' =>
      if Ascii.eqb a b then stripPrefix pat' s' else None
  | String _ _, EmptyString => None
  end.

(** [s.includes(pat)]: [pat] occurs at some index of [s]. *)
Fixpoint includes (s pat : string) : bool :=
  startsWith s pat
  || match s with
     | EmptyString => false
     | String _ s' => includes s' pat
     end.

(** Search for [pat] in the suffix [s] that starts at index [i]. *)
Fixpoint indexFrom (pat s : string) (i : nat) : option nat :=
  if startsWith s pat then Some i
  else match s with
       | EmptyString => None
       | String _ s' => indexFrom pat s' (S i)
       end.

Definition clamp (s : string) (i : Z) : nat :=
  Z.to_nat (Z.min (Z.max i 0) (len s)).

(** [s.indexOf(pat, from)]; [-1] when [pat] is not found. *)
Definition indexOf (s pat : string) (from : Z) : Z :=
  let k := clamp s from in
  match indexFrom pat (drop k s) k with
  | Some i => Z.of_nat i
  | None => (-1)%Z
  end.

(** [s.substring(a, b)]: both ends clamped to [0, s.length], swapped when
    [a > b]. *)
Definition substring (s : string) (a b : Z) : string :=
  let a' := clamp s a in
  let b' := clamp s b in
  let lo := Nat.min a' b' in
  let hi := Nat.max a' b' in
  take (hi - lo) (drop lo s).

(** The class [\s] of regular expressions, which is also the white space
    that [trim] removes: the white space and the line terminators of
    ECMAScript.  Below 256 these are tab, line feed, vertical tab, form
    feed, carriage return, space and the no-break space (character 160). *)
Definition isSpace (c : ascii) : bool :=
  let n := nat_of_ascii c in
  ((9 <=? n) && (n <=? 13)) || (n =? 32) || (n =? 160).

Definition isDigit (c : ascii) : bool :=
  let n := nat_of_ascii c in
  (48 <=? n) && (n <=? 57).

(** [.] without the [s] flag: any character but a line terminator. *)
Definition isDot (c : ascii) : bool :=
  let n := nat_of_ascii c in
  negb ((n =? 10) || (n =? 13)).

(** [[\s\S]]: any character. *)
Definition isAny (c : ascii) : bool := true.

(** The code units of a string. *)
Definition codeUnits (s : string) : list Z :=
  map (fun c => Z.of_N (N_of_ascii c)) (list_ascii_of_string s).

(** The upper-case form of a character below 256, as code units: the
    letters a to z and the letters 224 to 254 (but the division sign, 247)
    lose 32; the sharp s (223) becomes the two letters SS; the micro sign
    (181) becomes U+039C and the y with diaeresis (255) becomes U+0178,
    both outside the range; every other character is unchanged. *)
Definition upperUnits (c : ascii) : list Z :=
  let n := Z.of_N (N_of_ascii c) in
  if ((97 <=? n) && (n <=? 122))%Z then [(n - 32)%Z]
  else if (n =? 181)%Z then [924%Z]
  else if (n =? 223)%Z then [83%Z; 83%Z]
  else if (n =? 247)%Z then [n]
  else if (n =? 255)%Z then [376%Z]
  else if (224 <=? n)%Z then [(n - 32)%Z]
  else [n].

(** [s.toUpperCase()], as code units. *)
Fixpoint toUpperCase (s : string) : list Z :=
  match s with
  | EmptyString => []
  | String c s' => upperUnits c ++ toUpperCase s'
  end.

(** [s.startsWith(pat)] and [s.includes(pat)] on code units. *)
Fixpoint startsWithUnits (s pat : list Z) {struct pat} : bool :=
  match pat, s with
  | [], _ => true
  | a :: pat', b :: s' => (a =? b)%Z && startsWithUnits s' pat'
  | _ :: _, [] => false
  end.

Fixpoint includesUnits (s pat : list Z) : bool :=
  startsWithUnits s pat
  || match s with
     | [] => false
     | _ :: s' => includesUnits s' pat
     end.

Fixpoint dropWhile (p : ascii -> bool) (s : string) : string :=
  match s with
  | EmptyString => EmptyString
  | String c s' => if p c then dropWhile p s' else s
  end.

(** [s.trimEnd()] *)
Fixpoint trimEnd (s : string) : string :=
  match s with
  | EmptyString => EmptyString
  | String c s' =>
      match trimEnd s' with
      | EmptyString => if isSpace c then EmptyString else String c EmptyString
      | t => String c t
      end
  end.

(** [s.trim()] *)
Definition trim (s : string) : string := trimEnd (dropWhile isSpace s).

(** [s.replace(/\n/g, ' ')] *)
Fixpoint replaceNewlines (s : string) : string :=
  match s with
  | EmptyString => EmptyString
  | String c s' =>
      String (if Ascii.eqb c "010"%char then " "%char else c)
             (replaceNewlines s')
  end.

(** [s.replace(/\s+/g, ' ')]: every maximal run of white space becomes one
    space.  [inRun] tells that the previous character was white space, whose
    run has already been replaced. *)
Fixpoint collapseFrom (inRun : bool) (s : string) : string :=
  match s with
  | EmptyString => EmptyString
  | String c s' =>
      if isSpace c
      then if inRun then collapseFrom true s'
           else String " "%char (collapseFrom true s')
      else String c (collapseFrom false s')
  end.

Definition collapseSpaces (s : string) : string := collapseFrom false s.

End JsString.

Import JsString.

(** ** A backtracking regular-expression engine

    The constructs are those of the two patterns of the source: character
    classes, literals, concatenation, alternation (left alternative first),
    a quantified character class (greedy or lazy), and numbered capture
    groups.  Matching follows the ECMAScript order of attempts: the matcher
    takes the continuation of the rest of the pattern and answers the first
    success in priority order. *)

Module JsRegExp.

Inductive regex : Type :=
| Cls (p : ascii -> bool)                (* a character class *)
| Lit (s : string)                       (* a literal *)
| Cat (r1 r2 : regex)                    (* r1 r2 *)
| Alt (r1 r2 : regex)                    (* r1|r2 *)
| Star (greedy : bool) (p : ascii -> bool)   (* p* and p*? *)
| Grp (n : nat) (r : regex).             (* the n-th capture group *)

(** [p+] is [p p*]; [p+?] is [p p*?]. *)
Definition Plus (greedy : bool) (p : ascii -> bool) : regex :=
  Cat (Cls p) (Star greedy p).

Definition captures : Type := list (nat * string).

(** The text of group [n], [""] when the group did not take part. *)
Fixpoint group (n : nat) (caps : captures) : string :=
  match caps with
  | [] => EmptyString
  | (m, s) :: caps' => if Nat.eqb n m then s else group n caps'
  end.

Section Matcher.

Context {A : Type}.

(** Greedy [p*]: take a character when possible, come back to the
    continuation at this point when the longer attempts failed. *)
Fixpoint starGreedy (p : ascii -> bool) (s : string)
    (k : string -> option A) : option A :=
  match s with
  | String c s' =>
      if p c
      then match starGreedy p s' k with
           | Some x => Some x
           | None => k s
           end
      else k s
  | EmptyString => k s
  end.

(** Lazy [p*?]: try the continuation first, take one more character when it
    failed. *)
Fixpoint starLazy (p : ascii -> bool) (s : string)
    (k : string -> option A) : option A :=
  match k s with
  | Some x => Some x
  | None =>
      match s with
      | String c s' => if p c then starLazy p s' k else None
      | EmptyString => None
      end
  end.

Fixpoint rmatch (r : regex) (s : string) (caps : captures)
    (k : string -> captures -> option A) : option A :=
  match r with
  | Cls p =>
      match s with
      | String c s' => if p c then k s' caps else None
      | EmptyString => None
      end
  | Lit l =>
      match stripPrefix l s with
      | Some s' => k s' caps
      | None => None
      end
  | Cat r1 r2 => rmatch r1 s caps (fun s' caps' => rmatch r2 s' caps' k)
  | Alt r1 r2 =>
      match rmatch r1 s caps k with
      | Some x => Some x
      | None => rmatch r2 s caps k
      end
  | Star true p => starGreedy p s (fun s' => k s' caps)
  | Star false p => starLazy p s (fun s' => k s' caps)
  | Grp n r1 =>
      rmatch r1 s caps
        (fun s' caps' =>
           k s' ((n, take (String.length s - String.length s') s) :: caps'))
  end.

End Matcher.

(** One attempt of the whole pattern at the start of [s]: the captures and
    what is left of [s] after the match. *)
Definition matchHere (r : regex) (s : string) : option (captures * string) :=
  rmatch r s [] (fun s' caps => Some (caps, s')).

(** The result of a successful [exec]: [match.index], the groups, and the
    index after the match (the new [lastIndex] of a global pattern). *)
Record rxMatch : Type := mkMatch {
  m_index : nat;
  m_groups : captures;
  m_end : nat
}.

(** Scan for the first index at or after [i] where the pattern matches; [s]
    is the text from index [i] on. *)
Fixpoint execFrom (r : regex) (s : string) (i : nat) : option rxMatch :=
  match matchHere r s with
  | Some (caps, rest) =>
      Some (mkMatch i caps (i + (String.length s - String.length rest)))
  | None =>
      match s with
      | String _ s' => execFrom r s' (S i)
      | EmptyString => None
      end
  end.

(** [re.exec(text)] for a pattern with the [g] flag whose [lastIndex] is
    [lastIndex]: the match, if any, and the new [lastIndex] ([0] after a
    failure). *)
Definition exec (r : regex) (text : string) (lastIndex : nat)
    : option rxMatch * nat :=
  if String.length text <? lastIndex then (None, 0)
  else match execFrom r (drop lastIndex text) lastIndex with
       | Some m => (Some m, m_end m)
       | None => (None, 0)
       end.

(** [while ((match = re.exec(text)) !== null) body]: the state is the
    pattern's [lastIndex] and the loop's own state [st].  [None] when the
    fuel runs out. *)
Fixpoint whileExec {St : Type} (fuel : nat) (r : regex) (text : string)
    (body : rxMatch -> St -> St) (lastIndex : nat) (st : St)
    : option (nat * St) :=
  match fuel with
  | O => None
  | S fuel' =>
      match exec r text lastIndex with
      | (Some m, lastIndex') =>
          whileExec fuel' r text body lastIndex' (body m st)
      | (None, lastIndex') => Some (lastIndex', st)
      end
  end.

End JsRegExp.

Import JsRegExp.

(** ** The register entries and the two extractors *)

Record entry : Type := mkEntry {
  number : string;
  title : string;
  decided : string;
  category : string
}.

(** [\d{2}\/\d{2}\/\d{4}] *)
Definition dateRegex : regex :=
  Cat (Cls isDigit) (Cat (Cls isDigit) (Cat (Lit "/")
  (Cat (Cls isDigit) (Cat (Cls isDigit) (Cat (Lit "/")
  (Cat (Cls isDigit) (Cat (Cls isDigit) (Cat (Cls isDigit) (Cls isDigit))))))))).

Module Html.

(** [/((?:MC|FF|MX)-\d+)\s+(.*?)\s+(\d{2}\/\d{2}\/\d{4})/g] *)
Definition pattern : regex :=
  Cat (Grp 1 (Cat (Alt (Lit "MC") (Alt (Lit "FF") (Lit "MX")))
                  (Cat (Lit "-") (Plus true isDigit))))
  (Cat (Plus true isSpace)
  (Cat (Grp 2 (Star false isDot))
  (Cat (Plus true isSpace)
       (Grp 3 dateRegex)))).

(** [Object.entries(categoryPatterns)]: the keys are not integer-like, so
    the iteration order is the order of the literal. *)
Definition categoryPatterns : list (string * string) :=
  [ ("NAME CHANGE", "NAME CHANGE");
    ("CERTIFICATE, PERMIT, LICENSE", "CERTIFICATE, PERMIT, LICENSE");
    ("CERTIFICATE OF REGISTRATION", "CERTIFICATE OF REGISTRATION");
    ("DISMISSAL", "DISMISSAL");
    ("WITHDRAWAL", "WITHDRAWAL");
    ("REVOCATION", "REVOCATION");
    ("TRANSFERS", "TRANSFERS");
    ("GRANT DECISION NOTICES", "GRANT DECISION NOTICES") ].

(** The [for (const [pattern, cat] of ...)] loop over [category]. *)
Fixpoint categoryLoop (pats : list (string * string)) (beforeText : list Z)
    (category : string) : string :=
  match pats with
  | [] => category
  | (pat, cat) :: pats' =>
      categoryLoop pats' beforeText
        (if includesUnits beforeText (codeUnits pat) then cat else category)
  end.

Definition categoryOf (beforeText : list Z) : string :=
  categoryLoop categoryPatterns beforeText "MISCELLANEOUS".

(** [rawText.substring(Math.max(0, beforeIndex - 500), beforeIndex)
      .toUpperCase()] *)
Definition beforeText (rawText : string) (beforeIndex : Z) : list Z :=
  toUpperCase (substring rawText (Z.max 0 (beforeIndex - 500)) beforeIndex).

(** The body of the [while] loop: one [entries.push], unconditionally. *)
Definition body (rawText : string) (m : rxMatch) (entries : list entry)
    : list entry :=
  let docket := group 1 (m_groups m) in
  let info := collapseSpaces (trim (group 2 (m_groups m))) in
  let date := group 3 (m_groups m) in
  let beforeIndex := Z.of_nat (m_index m) in
  let category := categoryOf (beforeText rawText beforeIndex) in
  entries ++ [mkEntry docket info date category].

(** The entries pushed for [rawText], before deduplication. *)
Definition extract (rawText : string) : option (list entry) :=
  option_map snd
    (whileExec (S (String.length rawText)) pattern rawText (body rawText) 0 []).

End Html.

Module Pdf.

Record section : Type := mkSection {
  name : string;
  header : string
}.

Definition sections : list section :=
  [ mkSection "NAME CHANGE" "NAME CHANGES";
    mkSection "CERTIFICATE, PERMIT, LICENSE" "CERTIFICATES, PERMITS & LICENSES";
    mkSection "CERTIFICATE OF REGISTRATION" "CERTIFICATES OF REGISTRATION";
    mkSection "DISMISSAL" "DISMISSALS";
    mkSection "WITHDRAWAL" "WITHDRAWAL OF APPLICATION";
    mkSection "REVOCATION" "REVOCATIONS";
    mkSection "TRANSFERS" "TRANSFERS";
    mkSection "GRANT DECISION NOTICES" "GRANT DECISION NOTICES" ].

(** [/((?:MC|FF|MX|MX-MC)-\d+)\s+([\s\S]*?)\s+(\d{2}\/\d{2}\/\d{4})/g] *)
Definition recordPattern : regex :=
  Cat (Grp 1 (Cat (Alt (Lit "MC") (Alt (Lit "FF") (Alt (Lit "MX") (Lit "MX-MC"))))
                  (Cat (Lit "-") (Plus true isDigit))))
  (Cat (Plus true isSpace)
  (Cat (Grp 2 (Star false isAny))
  (Cat (Plus true isSpace)
       (Grp 3 dateRegex)))).

(** [match[2].replace(/\n/g, ' ').replace(/\s+/g, ' ').trim()] *)
Definition normTitle (raw : string) : string :=
  trim (collapseSpaces (replaceNewlines raw)).

(** The body of the [while] loop of a section: the push is guarded by the
    length of the title. *)
Definition body (sectionName : string) (m : rxMatch) (entries : list entry)
    : list entry :=
  let docket := group 1 (m_groups m) in
  let title := normTitle (group 2 (m_groups m)) in
  let decidedDate := group 3 (m_groups m) in
  if (0 <? len title)%Z && (len title <? 500)%Z
  then entries ++ [mkEntry docket title decidedDate sectionName]
  else entries.

(** [fullText.substring(startIdx, endIdx === -1 ? fullText.length : endIdx)]
    with [endIdx] as the loop computes it from [nextSection]. *)
Definition sectionText (fullText : string) (startIdx : Z)
    (nextSection : option section) : string :=
  let endIdx :=
    match nextSection with
    | Some nxt => indexOf fullText (header nxt) startIdx
    | None => len fullText
    end in
  substring fullText startIdx
    (if (endIdx =? -1)%Z then len fullText else endIdx).

(** The [for] loop over the sections, from [sections[i]] on: [secs] is the
    table from index [i], so that [sections[i + 1]] is the head of its tail.
    The state is [recordPattern.lastIndex] and [entries]. *)
Fixpoint sectionLoop (secs : list section) (fullText : string)
    (st : nat * list entry) : option (nat * list entry) :=
  match secs with
  | [] => Some st
  | currentSection :: rest =>
      let nextSection := hd_error rest in
      let startIdx := indexOf fullText (header currentSection) 0 in
      if (startIdx =? -1)%Z then sectionLoop rest fullText st
      else
        let text := sectionText fullText startIdx nextSection in
        match whileExec (S (String.length text)) recordPattern text
                (body (name currentSection)) (fst st) (snd st) with
        | Some st' => sectionLoop rest fullText st'
        | None => None
        end
  end.

(** The entries of [src/api/fmcsa-register.ts], before deduplication. *)
Definition extract (fullText : string) : option (list entry) :=
  option_map snd (sectionLoop sections fullText (0, [])).

(** The body of the fallback loop of the Express variant: no guard. *)
Definition fallbackBody (m : rxMatch) (entries : list entry) : list entry :=
  entries ++ [mkEntry (group 1 (m_groups m))
                      (normTitle (group 2 (m_groups m)))
                      (group 3 (m_groups m))
                      "MISCELLANEOUS"].

(** The guard of the fallback: [entries.length === 0]. *)
Definition fallbackTaken (entries : list entry) : bool :=
  (List.length entries =? 0).

(** The entries of the Express variant with the fallback
    ([src/unnamed/part_001]), before deduplication. *)
Definition extractWithFallback (fullText : string) : option (list entry) :=
  match sectionLoop sections fullText (0, []) with
  | Some (lastIndex, entries) =>
      if fallbackTaken entries
      then option_map snd
             (whileExec (S (String.length fullText)) recordPattern fullText
                fallbackBody lastIndex entries)
      else Some entries
  | None => None
  end.

(** Whether the guard of the fallback holds after the loop over the
    sections, that is, whether the fallback loop is entered. *)
Definition fallbackRuns (fullText : string) : bool :=
  match sectionLoop sections fullText (0, []) with
  | Some (_, entries) => fallbackTaken entries
  | None => false
  end.

End Pdf.

(** ** Deduplication *)

(** [self.findIndex(p)]: the first index whose element satisfies [p], [-1]
    when there is none. *)
Fixpoint findIndexFrom {X : Type} (p : X -> bool) (l : list X) (i : Z) : Z :=
  match l with
  | [] => (-1)%Z
  | x :: l' => if p x then i else findIndexFrom p l' (i + 1)%Z
  end.

Definition findIndex {X : Type} (p : X -> bool) (l : list X) : Z :=
  findIndexFrom p l 0%Z.

(** [self.filter((x, index, self) => p(x, index, self))], from index [i]. *)
Fixpoint filterFrom {X : Type} (p : X -> Z -> list X -> bool)
    (self l : list X) (i : Z) : list X :=
  match l with
  | [] => []
  | x :: l' =>
      if p x i self then x :: filterFrom p self l' (i + 1)%Z
      else filterFrom p self l' (i + 1)%Z
  end.

Definition filterIndexed {X : Type} (p : X -> Z -> list X -> bool)
    (self : list X) : list X :=
  filterFrom p self self 0%Z.

(** [e.number === entry.number && e.title === entry.title] *)
Definition sameKey (entry e : entry) : bool :=
  String.eqb (number e) (number entry) && String.eqb (title e) (title entry).

Definition uniqueEntries (entries : list entry) : list entry :=
  filterIndexed
    (fun entry index self => (index =? findIndex (sameKey entry) self)%Z)
    entries.

(** ** Date formatting *)

(** [dateStr.replace(/-/g, '')] *)
Fixpoint formatDateForPDF (dateStr : string) : string :=
  match dateStr with
  | EmptyString => EmptyString
  | String c s' =>
      if Ascii.eqb c "-"%char then formatDateForPDF s'
      else String c (formatDateForPDF s')
  end.

(** The local-time fields of a valid [Date] that the converter reads:
    [getFullYear()], [getMonth()] (0 to 11) and [getDate()] (1 to 31). *)
Record Date : Type := mkDate {
  getFullYear : nat;
  getMonth : nat;
  getDate : nat
}.

(** [String(n)] for a non-negative integer. *)
Definition String_ (n : nat) : string :=
  NilEmpty.string_of_uint (Nat.to_uint n).

(** [s.padStart(n, '0')] *)
Definition padStart0 (n : nat) (s : string) : string :=
  String.concat "" (repeat "0" (n - String.length s)) ++ s.

(** [s.slice(-n)]: the last [n] characters. *)
Definition sliceLast (n : nat) (s : string) : string :=
  drop (String.length s - n) s.

Definition months : list string :=
  ["JAN"; "FEB"; "MAR"; "APR"; "MAY"; "JUN";
   "JUL"; "AUG"; "SEP"; "OCT"; "NOV"; "DEC"].

Definition formatDateForFMCSA (date : Date) : string :=
  let day := padStart0 2 (String_ (getDate date)) in
  let month := nth (getMonth date) months "undefined" in
  let year := sliceLast 2 (String_ (getFullYear date)) in
  day ++ "-" ++ month ++ "-" ++ year.

(** ** The HTML endpoint, after the request to the register *)

(** The JSON envelopes of the endpoint. *)
Inductive envelope : Type :=
| Success (count : nat) (date lastUpdated : string) (entries : list entry)
| Failure (error : string) (details : option string) (entries : list entry).

Definition success (e : envelope) : bool :=
  match e with
  | Success _ _ _ _ => true
  | Failure _ _ _ => false
  end.

Definition entriesOf (e : envelope) : list entry :=
  match e with
  | Success _ _ _ l => l
  | Failure _ _ l => l
  end.

Record response : Type := mkResponse {
  status : nat;
  json : envelope
}.

(** What [axios.post] gave: a response body, or an exception with its
    message. *)
Inductive fetched : Type :=
| Body (data : string)
| Threw (message : string).

Section HtmlEndpoint.

(** [cheerio.load(html).text()], the text of the page; a library function. *)
Variable cheerioText : string -> string.

(** The handler from the marker check on.  [registerDate] is the date sent
    to the register and [now] is [new Date().toISOString()]. *)
Definition handleRegister (registerDate now : string) (r : fetched)
    : option response :=
  match r with
  | Threw message =>
      Some (mkResponse 500
              (Failure "Failed to scrape FMCSA register data" (Some message) []))
  | Body data =>
      if negb (includesUnits (toUpperCase data) (codeUnits "FMCSA REGISTER"))
      then Some (mkResponse 400 (Failure "Invalid response from FMCSA" None []))
      else
        let rawText := cheerioText data in
        match Html.extract rawText with
        | Some entries =>
            let unique := uniqueEntries entries in
            Some (mkResponse 200
                    (Success (List.length unique) registerDate now unique))
        | None => None
        end
  end.

End HtmlEndpoint.

(** ** Definitions of the statements

    The notions in which the properties are stated: those that follow the
    words of the specification (the first-occurrence filter, the last
    keyword found, the texts made of records) and the auxiliary ones of the
    proofs about the matcher. *)

(** The pair that defines the identity of an entry. *)
Definition key (e : entry) : string * string := (number e, title e).

Definition key_eq_dec (k1 k2 : string * string) : {k1 = k2} + {k1 <> k2}.
Proof. decide equality; apply string_dec. Defined.

(** The deduplicator in the words of the specification: an entry is kept
    when its (number, title) pair is not the pair of an entry at an earlier
    index; [earlier] holds the entries already passed. *)
Fixpoint keepFirst (earlier l : list entry) : list entry :=
  match l with
  | [] => []
  | e :: l' =>
      if in_dec key_eq_dec (key e) (map key earlier)
      then keepFirst (earlier ++ [e]) l'
      else e :: keepFirst (earlier ++ [e]) l'
  end.

(** [l1] is a subsequence of [l2]. *)
Inductive subseq {X : Type} : list X -> list X -> Prop :=
| subseq_nil : subseq [] []
| subseq_keep x l1 l2 : subseq l1 l2 -> subseq (x :: l1) (x :: l2)
| subseq_drop x l1 l2 : subseq l1 l2 -> subseq l1 (x :: l2).

(** The category keywords of the HTML path, in the order of the table. *)
Definition keywords : list string :=
  [ "NAME CHANGE"; "CERTIFICATE, PERMIT, LICENSE";
    "CERTIFICATE OF REGISTRATION"; "DISMISSAL"; "WITHDRAWAL"; "REVOCATION";
    "TRANSFERS"; "GRANT DECISION NOTICES" ].

(** The category in the words of the specification: the last keyword of the
    list that the window contains, ["MISCELLANEOUS"] when it contains none. *)
Definition lastKeywordFound (window : list Z) : string :=
  last (filter (fun kw => includesUnits window (codeUnits kw)) keywords)
       "MISCELLANEOUS".

(** [c] is the character [k] or, when [k] is one of the letters A to Z,
    its lower-case form. *)
Definition eitherCase (k c : ascii) : bool :=
  let kn := Z.of_N (N_of_ascii k) in
  let n := Z.of_N (N_of_ascii c) in
  ((n =? kn) || ((65 <=? kn) && (kn <=? 90) && (n =? kn + 32)))%Z.

(** [s] begins with [pat], each letter of [pat] in either case. *)
Fixpoint startsWithAnyCase (s pat : string) {struct pat} : bool :=
  match pat, s with
  | EmptyString, _ => true
  | String k pat', String c s' => eitherCase k c && startsWithAnyCase s' pat'
  | String _ _, EmptyString => false
  end.

(** [pat] stands in [s], each of its letters in either case. *)
Fixpoint includesAnyCase (s pat : string) : bool :=
  startsWithAnyCase s pat
  || match s with
     | EmptyString => false
     | String _ s' => includesAnyCase s' pat
     end.

(** A character below 128 that is not one of the letters a to z. *)
Definition upperAscii (k : ascii) : bool :=
  let kn := Z.of_N (N_of_ascii k) in
  ((kn <? 97) || ((122 <? kn) && (kn <? 128)))%Z.

(** The entry that a match gives in the PDF path, for a section name. *)
Definition pdfEntryOf (sectionName : string) (m : rxMatch) : entry :=
  mkEntry (group 1 (m_groups m)) (Pdf.normTitle (group 2 (m_groups m)))
          (group 3 (m_groups m)) sectionName.

(** [cur] stands in the table [secs] and [nxt] is the section after it, if
    there is one: the [sections[i]] and [sections[i + 1]] of one pass. *)
Definition followedBy (secs : list Pdf.section) (cur : Pdf.section)
    (nxt : option Pdf.section) : Prop :=
  exists pre rest, secs = (pre ++ cur :: rest)%list /\ nxt = hd_error rest.

(** [e] was pushed in the pass of section [cur]: the header of [cur] is
    found at [startIdx], the text of the section begins there, with the
    header, and [e] comes from the match [m] of the record pattern in the
    text of the section. *)
Definition acceptedIn (fullText : string) (cur : Pdf.section)
    (nxt : option Pdf.section) (e : entry) : Prop :=
  let startIdx := indexOf fullText (Pdf.header cur) 0 in
  startIdx <> (-1)%Z
  /\ startsWith (drop (Z.to_nat startIdx) fullText) (Pdf.header cur) = true
  /\ (exists n, Pdf.sectionText fullText startIdx nxt
                = take n (drop (Z.to_nat startIdx) fullText))
  /\ exists m li li',
       exec Pdf.recordPattern (Pdf.sectionText fullText startIdx nxt) li
       = (Some m, li')
       /\ e = pdfEntryOf (Pdf.name cur) m
       /\ 0 < String.length (title e) < 500.

(** The section under which index [idx] of [fullText] stands, in the words
    of the specification: the section of the table whose header is found
    nearest before [idx]; [best] is the nearest header found so far, with
    its index. *)
Fixpoint sectionBefore (secs : list Pdf.section) (fullText : string)
    (idx : Z) (best : option (Z * Pdf.section)) : option Pdf.section :=
  match secs with
  | [] => option_map snd best
  | sec :: rest =>
      let i := indexOf fullText (Pdf.header sec) 0 in
      sectionBefore rest fullText idx
        (if ((i =? -1) || (idx <? i))%Z then best
         else match best with
              | Some (b, _) => if (b <? i)%Z then Some (i, sec) else best
              | None => Some (i, sec)
              end)
  end.

(** A title of [n] letters. *)
Definition longTitle (n : nat) : string := String.concat "" (repeat "A" n).

(** *** Texts made of well-formed records

    A record of the register as it stands in a text: the docket (a prefix,
    a hyphen, digits), white space, the title, white space, the date. *)
Record record : Type := mkRecord {
  r_prefix : string;
  r_digits : string;
  r_gap1 : string;
  r_title : string;
  r_gap2 : string;
  r_date : string
}.

Definition docketOf (r : record) : string :=
  r_prefix r ++ "-" ++ r_digits r.

Definition render (r : record) : string :=
  docketOf r ++ r_gap1 r ++ r_title r ++ r_gap2 r ++ r_date r.

(** A text: records, each after a separator, and a tail. *)
Fixpoint layout (items : list (string * record)) (tail : string) : string :=
  match items with
  | [] => tail
  | (sep, r) :: rest => sep ++ render r ++ layout rest tail
  end.

Fixpoint allChars (p : ascii -> bool) (s : string) : bool :=
  match s with
  | EmptyString => true
  | String c s' => p c && allChars p s'
  end.

Definition firstIs (p : ascii -> bool) (s : string) : bool :=
  match s with
  | EmptyString => false
  | String c _ => p c
  end.

Fixpoint lastIs (p : ascii -> bool) (s : string) : bool :=
  match s with
  | EmptyString => false
  | String c EmptyString => p c
  | String _ s' => lastIs p s'
  end.

Definition notSpace (c : ascii) : bool := negb (isSpace c).

Definition isSlash (c : ascii) : bool := Ascii.eqb c "/"%char.

(** The shape [dd/dd/dddd], one class for each character. *)
Definition dateShape : list (ascii -> bool) :=
  [isDigit; isDigit; isSlash; isDigit; isDigit; isSlash;
   isDigit; isDigit; isDigit; isDigit].

Fixpoint hasShape (shape : list (ascii -> bool)) (s : string) : bool :=
  match shape, s with
  | [], _ => true
  | p :: shape', String c s' => p c && hasShape shape' s'
  | _ :: _, EmptyString => false
  end.

(** [s] begins with a date. *)
Definition dateHere (s : string) : bool := hasShape dateShape s.

(** [s] is a date. *)
Definition isDate (s : string) : bool :=
  dateHere s && (String.length s =? 10).

(** No date begins inside [t]. *)
Fixpoint noDateInside (t : string) : bool :=
  match t with
  | EmptyString => true
  | String _ t' => negb (dateHere t) && noDateInside t'
  end.

(** [s] begins with a docket: one of the prefixes, a hyphen and a digit. *)
Definition docketHere (prefixes : list string) (s : string) : bool :=
  existsb (fun pre =>
             match stripPrefix (pre ++ "-") s with
             | Some rest => firstIs isDigit rest
             | None => false
             end) prefixes.

(** No docket begins at an index of [sep], in the text [sep ++ next]. *)
Fixpoint noDocketStart (prefixes : list string) (sep next : string) : bool :=
  match sep with
  | EmptyString => true
  | String _ sep' =>
      negb (docketHere prefixes (sep ++ next))
      && noDocketStart prefixes sep' next
  end.

(** No docket begins in a separator or in the tail of the text. *)
Fixpoint sepsClear (prefixes : list string) (items : list (string * record))
    (tail : string) : bool :=
  match items with
  | [] => noDocketStart prefixes tail ""
  | (sep, r) :: rest =>
      noDocketStart prefixes sep (render r ++ layout rest tail)
      && sepsClear prefixes rest tail
  end.

(** A well-formed record, for the prefixes of a pattern and the class [p]
    of the characters that its title group takes: digits after the hyphen,
    white space on both sides of the title, a title that begins and ends
    with a character other than white space and in which no date begins,
    and a date. *)
Definition wellFormed (prefixes : list string) (p : ascii -> bool)
    (r : record) : bool :=
  existsb (String.eqb (r_prefix r)) prefixes
  && firstIs isDigit (r_digits r) && allChars isDigit (r_digits r)
  && firstIs isSpace (r_gap1 r) && allChars isSpace (r_gap1 r)
  && firstIs notSpace (r_title r) && lastIs notSpace (r_title r)
  && allChars p (r_title r) && noDateInside (r_title r)
  && firstIs isSpace (r_gap2 r) && allChars isSpace (r_gap2 r)
  && isDate (r_date r).

Definition htmlPrefixes : list string := ["MC"; "FF"; "MX"].
Definition pdfPrefixes : list string := ["MC"; "FF"; "MX"; "MX-MC"].

(** The groups of the match of a record. *)
Definition capsOf (r : record) : captures :=
  [(3, r_date r); (2, r_title r); (1, docketOf r)].

(** The alternation of literals [p1|p2|...]. *)
Fixpoint altsOf (first : string) (others : list string) : regex :=
  match others with
  | [] => Lit first
  | second :: others' => Alt (Lit first) (altsOf second others')
  end.

(** The scheme of the two patterns:
    [((?:alts)-\d+)\s+(p*?)\s+(\d{2}\/\d{2}\/\d{4})]. *)
Definition recordRegex (alts : regex) (p : ascii -> bool) : regex :=
  Cat (Grp 1 (Cat alts (Cat (Lit "-") (Plus true isDigit))))
  (Cat (Plus true isSpace)
  (Cat (Grp 2 (Star false p))
  (Cat (Plus true isSpace)
       (Grp 3 dateRegex)))).

(** In the text [s], which begins with the prefix [pre], the alternatives
    that stand before [pre] in the list do not give a docket, so that [pre]
    is the alternative that the match takes. *)
Fixpoint firstChoice (prefixes : list string) (pre s : string) : bool :=
  match prefixes with
  | [] => false
  | q :: prefixes' =>
      if String.eqb q pre then true
      else negb (docketHere [q] s) && firstChoice prefixes' pre s
  end.

(** The docket group of the two patterns. *)
Definition docketRegex (alts : regex) : regex :=
  Grp 1 (Cat alts (Cat (Lit "-") (Plus true isDigit))).

(** The entry of a record that stands at index [idx] of [rawText], in the
    HTML path. *)
Definition htmlEntryOf (rawText : string) (idx : nat) (r : record) : entry :=
  mkEntry (docketOf r) (collapseSpaces (trim (r_title r))) (r_date r)
          (Html.categoryOf (Html.beforeText rawText (Z.of_nat idx))).





(** What the loop needs of a record: the pattern [R] matches it wherever it
    stands, and the body pushes the entry [mk] of it. *)
Definition goodRecord (R : regex) (body : rxMatch -> list entry -> list entry)
    (mk : nat -> record -> entry) (r : record) : Prop :=
  (forall tail, matchHere R (render r ++ tail) = Some (capsOf r, tail))
  /\ (forall idx e es,
        body (mkMatch idx (capsOf r) e) es = (es ++ [mk idx r])%list).

(** A record in the loose sense of the specification: a docket of the
    pattern, a title (any text), and a date, with white space between
    them. *)
Definition looseRecord (prefixes : list string) (r : record) : bool :=
  existsb (String.eqb (r_prefix r)) prefixes
  && firstIs isDigit (r_digits r) && allChars isDigit (r_digits r)
  && firstIs isSpace (r_gap1 r) && allChars isSpace (r_gap1 r)
  && firstIs isSpace (r_gap2 r) && allChars isSpace (r_gap2 r)
  && isDate (r_date r).





(** [s'] is [s] without some of its leading characters of class [p]. *)
Inductive afterRun (p : ascii -> bool) : string -> string -> Prop :=
| afterRun_here s : afterRun p s s
| afterRun_step c s s' :
    p c = true -> afterRun p s s' -> afterRun p (String c s) s'.

(** The continuation [k] fails after every proper prefix of [t]. *)
Fixpoint failsInside {A : Type} (k : string -> option A) (t s : string)
    : Prop :=
  match t with
  | EmptyString => True
  | String _ t' => k (t ++ s) = None /\ failsInside k t' s
  end.

(** A lower bound on the number of characters a match of [r] takes. *)
Fixpoint minLen (r : regex) : nat :=
  match r with
  | Cls _ => 1
  | Lit l => String.length l
  | Cat r1 r2 => minLen r1 + minLen r2
  | Alt r1 r2 => Nat.min (minLen r1) (minLen r2)
  | Star _ _ => 0
  | Grp _ r1 => minLen r1
  end.

(** ** More of the code: text cleaning, the e-mail decoder, the dashboard

    The helpers of [src/server/index.ts] that work on strings, the handler
    of [src/api/fmcsa-register.ts] around the extraction, and the part of
    [src/pages/FMCSARegister.tsx] that decides what the dashboard shows. *)

Module Server.

(** [text.replace(/\u00a0/g, ' ')]: the no-break space is character 160. *)
Fixpoint replaceNbsp (s : string) : string :=
  match s with
  | EmptyString => EmptyString
  | String c s' =>
      String (if Nat.eqb (nat_of_ascii c) 160 then " "%char else c)
             (replaceNbsp s')
  end.

(** [cleanText]: [''] for [null], [undefined] and the empty string (the
    falsy values of its type); otherwise the no-break spaces become spaces,
    the runs of white space become one space, and the ends are trimmed.
    After the first replacement no no-break space is left for [\s] and
    [trim] to meet. *)
Definition cleanText (text : option string) : string :=
  match text with
  | None => EmptyString
  | Some EmptyString => EmptyString
  | Some t => trim (collapseSpaces (replaceNbsp t))
  end.

(** White space for [parseInt]: that of [trim]; the no-break space, which
    is part of it, is named for itself. *)
Definition isStrWhiteSpace (c : ascii) : bool :=
  isSpace c || Nat.eqb (nat_of_ascii c) 160.

Definition hexDigit (c : ascii) : option Z :=
  let n := nat_of_ascii c in
  if (48 <=? n) && (n <=? 57) then Some (Z.of_nat (n - 48))
  else if (97 <=? n) && (n <=? 102) then Some (Z.of_nat (n - 87))
  else if (65 <=? n) && (n <=? 70) then Some (Z.of_nat (n - 55))
  else None.

(** The value of the longest prefix of hexadecimal digits of [s]; [acc] is
    the value of the digits already read, [None] when there is none. *)
Fixpoint hexPrefix (acc : option Z) (s : string) : option Z :=
  match s with
  | EmptyString => acc
  | String c s' =>
      match hexDigit c with
      | Some d =>
          hexPrefix (Some (16 * match acc with Some v => v | None => 0 end
                           + d)%Z) s'
      | None => acc
      end
  end.

(** [parseInt(s, 16)], [None] for [NaN]: leading white space is skipped, a
    sign and a prefix [0x] or [0X] are accepted, and the longest prefix of
    hexadecimal digits is read.  It is applied to strings of two characters
    at most, whose value is exact. *)
Definition parseInt16 (s : string) : option Z :=
  let s1 := dropWhile isStrWhiteSpace s in
  let signed :=
    match s1 with
    | String c r =>
        if Ascii.eqb c "-"%char then ((-1)%Z, r)
        else if Ascii.eqb c "+"%char then (1%Z, r)
        else (1%Z, s1)
    | EmptyString => (1%Z, s1)
    end in
  let s2 := snd signed in
  let s3 :=
    match s2 with
    | String z (String x r) =>
        if Ascii.eqb z "0"%char
           && (Ascii.eqb x "x"%char || Ascii.eqb x "X"%char)
        then r else s2
    | _ => s2
    end in
  option_map (Z.mul (fst signed)) (hexPrefix None s3).

(** [ToInt32]: [NaN] is 0, a number wraps to 32 bits. *)
Definition toInt32 (x : option Z) : Z :=
  match x with
  | Some v => ((v + 2 ^ 31) mod 2 ^ 32 - 2 ^ 31)%Z
  | None => 0%Z
  end.

(** [x ^ r] *)
Definition xorNumbers (x r : option Z) : Z := Z.lxor (toInt32 x) (toInt32 r).

(** The code unit of [String.fromCharCode(c)]: [c] modulo 65536. *)
Definition fromCharCode (c : Z) : Z := (c mod 65536)%Z.

(** The loop [for (n = 2; n < encoded.length; n += 2)] of [cfDecodeEmail],
    on the part of [encoded] from index [n] on: [encoded.substr(n, 2)] is
    its first two characters (one, when only one is left). *)
Fixpoint decodePairs (r : option Z) (rest : string) : list Z :=
  match rest with
  | EmptyString => []
  | String a EmptyString =>
      [fromCharCode (xorNumbers (parseInt16 (String a EmptyString)) r)]
  | String a (String b rest') =>
      fromCharCode
        (xorNumbers (parseInt16 (String a (String b EmptyString))) r)
      :: decodePairs r rest'
  end.

(** [cfDecodeEmail]: the e-mail as the list of its code units.  Nothing in
    the [try] block throws on a string, so the [catch] is not reached. *)
Definition cfDecodeEmail (encoded : string) : list Z :=
  let r := parseInt16 (take 2 encoded) in
  decodePairs r (drop 2 encoded).

(** The categories of the BASIC scores of the safety route, in the order
    of the cells of the row. *)
Definition safetyCategories : list string :=
  [ "Unsafe Driving"; "Crash Indicator"; "HOS Compliance";
    "Vehicle Maintenance"; "Controlled Substances"; "Hazmat Compliance";
    "Driver Fitness" ].

(** A cell of the row [tr.sumData]: the text of its [span.val], when it has
    one, and the text of the cell. *)
Definition cell : Type := (option string * string)%type.

(** The callback of [sumDataRow.find('td').each((i, el) => ...)], from the
    cell of index [i] on: the value is the cleaned text of the span, or of
    the cell when there is no span; a score is pushed when [categories[i]]
    exists, with the measure ['0'] for an empty value. *)
Fixpoint eachCell (i : nat) (cells : list cell)
    (basicScores : list (string * string)) : list (string * string) :=
  match cells with
  | [] => basicScores
  | (valSpan, text) :: cells' =>
      let val :=
        match valSpan with
        | Some spanText => cleanText (Some spanText)
        | None => cleanText (Some text)
        end in
      eachCell (S i) cells'
        (match nth_error safetyCategories i with
         | Some category =>
             (basicScores
              ++ [(category,
                   match val with
                   | EmptyString => "0"
                   | _ => val
                   end)])%list
         | None => basicScores
         end)
  end.

Definition basicScoresOf (cells : list cell) : list (string * string) :=
  eachCell 0 cells [].

(** [s.replace(pat, '')] for a string [pat]: the first occurrence of [pat]
    is removed. *)
Fixpoint removeFirst (pat s : string) : string :=
  if startsWith s pat then drop (String.length pat) s
  else match s with
       | EmptyString => EmptyString
       | String c s' => String c (removeFirst pat s')
       end.

(** The rating date of the safety route: ['N/A'] when the page has no
    element [#RatingDate], otherwise the cleaned text of the element
    without its label and its parentheses. *)
Definition ratingDateOf (ratingDateEl : option string) : string :=
  match ratingDateEl with
  | None => "N/A"
  | Some text =>
      trim (removeFirst ")"
              (removeFirst "("
                 (removeFirst "Rating Date:" (cleanText (Some text)))))
  end.

End Server.

(** Every white-space character of [s] is a space that does not follow
    white space; [prev] tells that the character before [s] is white
    space. *)
Fixpoint singleSpaced (prev : bool) (s : string) : bool :=
  match s with
  | EmptyString => true
  | String c s' =>
      if isSpace c
      then negb prev && Ascii.eqb c " "%char && singleSpaced true s'
      else singleSpaced false s'
  end.

(** [s] has no character 160. *)
Definition noNbsp (s : string) : bool :=
  allChars (fun c => negb (Nat.eqb (nat_of_ascii c) 160)) s.

(** The two lower-case hexadecimal digits of a byte. *)
Definition hexChar (n : N) : ascii :=
  nth (N.to_nat n)
      ["0"; "1"; "2"; "3"; "4"; "5"; "6"; "7";
       "8"; "9"; "a"; "b"; "c"; "d"; "e"; "f"]%char "0"%char.

Definition hex2 (n : N) : string :=
  String (hexChar (n / 16)) (String (hexChar (n mod 16)) EmptyString).

(** The encoding that [cfDecodeEmail] reads: the key as two hexadecimal
    digits, then every character of the e-mail, xor-ed with the key, as two
    hexadecimal digits. *)
Fixpoint cfEncodeBody (key : N) (email : string) : string :=
  match email with
  | EmptyString => EmptyString
  | String c email' =>
      hex2 (N.lxor (N_of_ascii c) key) ++ cfEncodeBody key email'
  end.

Definition cfEncode (key : N) (email : string) : string :=
  hex2 key ++ cfEncodeBody key email.

(** The bytes, in increasing order. *)
Definition bytes256 : list N := map N.of_nat (seq 0 256).

(** *** The endpoint of the PDF path ([src/api/fmcsa-register.ts]) *)

Module PdfEndpoint.

(** The request, as the handler reads it: the method, and the body with its
    [date] property; a request without a body has [None] as body. *)
Record request : Type := mkRequest {
  method : string;
  body : option (option string)
}.

(** The answers of the handler. *)
Inductive answer : Type :=
| Ended (status : nat)
| MethodNotAllowed
| Refused (status : nat) (error : string) (details : option string)
| Answered (count : nat) (date lastUpdated : string) (entries : list entry).

Definition statusOf (a : answer) : nat :=
  match a with
  | Ended status => status
  | MethodNotAllowed => 405
  | Refused status _ _ => status
  | Answered _ _ _ _ => 200
  end.

Definition pdfUrl (date : string) : string :=
  "https://li-public.fmcsa.dot.gov/lihtml/rptspdf/LI_REGISTER"
  ++ formatDateForPDF date ++ ".PDF".

Section Handler.

(** [axios.get(url)] followed by [pdf(response.data)]: the text of the
    document, or the message of the exception of either. *)
Variable fetchPdfText : string -> fetched.

(** The message of the [TypeError] of [const { date } = req.body] when the
    request has no body. *)
Variable noBodyMessage : string.

Definition failed (message : string) : answer :=
  Refused 500
    "Failed to scrape FMCSA PDF. The file might not be generated yet for this date."
    (Some message).

(** The handler; [now] is [new Date().toISOString()]. *)
Definition handle (now : string) (req : request) : option answer :=
  if String.eqb (method req) "OPTIONS" then Some (Ended 200)
  else if negb (String.eqb (method req) "POST") then Some MethodNotAllowed
  else
    match body req with
    | None => Some (failed noBodyMessage)
    | Some None | Some (Some EmptyString) =>
        Some (Refused 400 "Date is required (YYYY-MM-DD)" None)
    | Some (Some date) =>
        match fetchPdfText (pdfUrl date) with
        | Threw message => Some (failed message)
        | Body fullText =>
            match Pdf.extract fullText with
            | Some entries =>
                let unique := uniqueEntries entries in
                Some (Answered (List.length unique) date now unique)
            | None => None
            end
        end
    end.

End Handler.

End PdfEndpoint.

(** *** The dashboard ([src/pages/FMCSARegister.tsx]) *)

Module Dashboard.

Definition categories : list string :=
  [ "NAME CHANGE"; "CERTIFICATE, PERMIT, LICENSE";
    "CERTIFICATE OF REGISTRATION"; "DISMISSAL"; "WITHDRAWAL"; "REVOCATION";
    "MISCELLANEOUS"; "TRANSFERS"; "GRANT DECISION NOTICES" ].

(** The capital letters below 256: A to Z, and the letters 192 to 222 but
    the multiplication sign, 215. *)
Definition isCapital (n : nat) : bool :=
  ((65 <=? n) && (n <=? 90))
  || ((192 <=? n) && (n <=? 222) && negb (n =? 215)).

(** The lower-case form of a character below 256 is such a character: a
    capital letter gains 32, every other character is unchanged. *)
Definition lowerChar (c : ascii) : ascii :=
  let n := nat_of_ascii c in
  if isCapital n then ascii_of_nat (n + 32) else c.

(** [s.toLowerCase()] *)
Fixpoint toLowerCase (s : string) : string :=
  match s with
  | EmptyString => EmptyString
  | String c s' => String (lowerChar c) (toLowerCase s')
  end.

(** The predicate of [registerData.filter(entry => ...)]. *)
Definition matchesFilter (selectedCategory searchTerm : string)
    (entry : entry) : bool :=
  let matchesCategory :=
    String.eqb selectedCategory "all"
    || String.eqb (category entry) selectedCategory in
  let matchesSearch :=
    includes (toLowerCase (title entry)) (toLowerCase searchTerm)
    || includes (toLowerCase (number entry)) (toLowerCase searchTerm) in
  matchesCategory && matchesSearch.

Definition filteredData (registerData : list entry)
    (selectedCategory searchTerm : string) : list entry :=
  filter (matchesFilter selectedCategory searchTerm) registerData.

(** What [fetchRegisterData] leaves in the state of the page:
    [registerData], [error], and the call of [saveToSupabase], if any. *)
Record view : Type := mkView {
  registerData : list entry;
  error : string;
  saved : option (list entry * string)
}.

(** [response.ok] *)
Definition ok (status : nat) : bool := (200 <=? status) && (status <=? 299).

(** [fetchRegisterData] from the answer of the endpoint on: [statusText] is
    [response.statusText] and [dateToUse] the date of the request. *)
Definition fetchOutcome (statusText dateToUse : string) (r : response)
    : view :=
  if negb (ok (status r))
  then mkView []
         ("API returned " ++ String_ (status r) ++ ": " ++ statusText) None
  else
    match json r with
    | Success _ _ _ entries =>
        if 0 <? List.length entries
        then mkView entries "" (Some (entries, dateToUse))
        else mkView [] "No entries found for this date" None
    | Failure _ _ _ => mkView [] "No entries found for this date" None
    end.

End Dashboard.

(** *** The dashboard of the PDF path ([src/unnamed/part_002])

    Its filter is the one of [Dashboard], word for word; its list of
    categories is another. *)

Module PdfDashboard.

Definition categories : list string :=
  [ "NAME CHANGE"; "CERTIFICATE, PERMIT, LICENSE";
    "CERTIFICATE OF REGISTRATION"; "DISMISSAL"; "WITHDRAWAL"; "REVOCATION";
    "TRANSFERS"; "GRANT DECISION NOTICES" ].

(** The values of the category menu: ["all"] and the categories. *)
Definition options : list string := "all" :: categories.

End PdfDashboard.

(** [a] and [b] are the same character, or the two cases of one letter. *)
Definition sameLetter (a b : ascii) : bool :=
  let x := nat_of_ascii a in
  let y := nat_of_ascii b in
  (x =? y)
  || (Dashboard.isCapital x && (y =? x + 32))
  || (Dashboard.isCapital y && (x =? y + 32)).

(** [s] and [t] differ by the case of their letters only. *)
Fixpoint caseVariant (s t : string) : bool :=
  match s, t with
  | EmptyString, EmptyString => true
  | String a s', String b t' => sameLetter a b && caseVariant s' t'
  | _, _ => false
  end.

(** The two decimal digits of a number below 100. *)
Definition twoDigits (n : nat) : string :=
  String (ascii_of_nat (48 + n / 10))
         (String (ascii_of_nat (48 + n mod 10)) EmptyString).

(** [s] has no hyphen. *)
Definition noHyphen (s : string) : bool :=
  allChars (fun c => negb (Ascii.eqb c "-"%char)) s.

(** The entry [e] comes from a record that stands in [text]: a docket with
    one of the prefixes, white space, a title of characters of class [p],
    white space and a date; the number and the date of [e] are those of the
    record and its title is the title of the record, normalised. *)
Definition fromRecord (prefixes : list string) (p : ascii -> bool)
    (normalise : string -> string) (text : string) (e : entry) : Prop :=
  exists before r after,
    text = before ++ render r ++ after
    /\ looseRecord prefixes r = true
    /\ allChars p (r_title r) = true
    /\ number e = docketOf r
    /\ title e = normalise (r_title r)
    /\ decided e = r_date r.

(** * Properties *)

(** ** Strings *)

Section StringFacts.

Lemma length_append (a b : string) :
  String.length (a ++ b) = String.length a + String.length b.
Proof. induction a as [|c a IH]; simpl; [reflexivity | now rewrite IH]. Qed.

Lemma append_assoc (a b c : string) : (a ++ b) ++ c = a ++ (b ++ c).
Proof. induction a as [|x a IH]; simpl; [reflexivity | now rewrite IH]. Qed.

Lemma append_nil_r (a : string) : a ++ "" = a.
Proof. induction a as [|x a IH]; simpl; [reflexivity | now rewrite IH]. Qed.

Lemma drop_length_append (a b : string) : drop (String.length a) (a ++ b) = b.
Proof. induction a as [|x a IH]; simpl; [reflexivity | exact IH]. Qed.

Lemma take_length_append (a b : string) : take (String.length a) (a ++ b) = a.
Proof. induction a as [|x a IH]; simpl; [reflexivity | now rewrite IH]. Qed.

Lemma drop_all (s : string) : drop (String.length s) s = "".
Proof. induction s as [|x s IH]; simpl; [reflexivity | exact IH]. Qed.

Lemma length_drop (n : nat) (s : string) :
  String.length (drop n s) = String.length s - n.
Proof.
  revert s. induction n as [|n IH]; intros [|c s]; simpl; auto.
Qed.

Lemma length_take (n : nat) (s : string) :
  String.length (take n s) = Nat.min n (String.length s).
Proof.
  revert s. induction n as [|n IH]; intros [|c s]; simpl; auto.
Qed.

Lemma stripPrefix_length (l s s' : string) :
  stripPrefix l s = Some s' ->
  String.length s = String.length l + String.length s'.
Proof.
  revert s. induction l as [|a l IH]; intros [|b s] H; simpl in *;
    try discriminate; try (inversion H; reflexivity).
  destruct (Ascii.eqb a b); [|discriminate]. now rewrite (IH _ H).
Qed.

Lemma stripPrefix_append (l s : string) : stripPrefix l (l ++ s) = Some s.
Proof.
  induction l as [|a l IH]; simpl; [reflexivity|].
  now rewrite Ascii.eqb_refl.
Qed.

Lemma stripPrefix_startsWith (l s : string) :
  startsWith s l = false -> stripPrefix l s = None.
Proof.
  revert s. induction l as [|a l IH]; intros [|b s] H; simpl in *;
    try discriminate; try reflexivity.
  destruct (Ascii.eqb a b); [now apply IH | reflexivity].
Qed.

Lemma startsWith_append (s pat : string) : startsWith (pat ++ s) pat = true.
Proof.
  induction pat as [|a pat IH]; simpl; [reflexivity|].
  now rewrite Ascii.eqb_refl.
Qed.



End StringFacts.

(** ** The engine: a match takes characters, the loop terminates *)

Section Engine.

Lemma starGreedy_inv {A} (p : ascii -> bool) (s : string)
    (k : string -> option A) (x : A) :
  starGreedy p s k = Some x ->
  exists s', k s' = Some x /\ String.length s' <= String.length s.
Proof.
  induction s as [|c s IH]; simpl; intros H.
  - exists ""; auto.
  - destruct (p c).
    + destruct (starGreedy p s k) eqn:E.
      * inversion H; subst. destruct (IH eq_refl) as (s' & Hk & Hl).
        exists s'. split; [exact Hk | lia].
      * exists (String c s). auto.
    + exists (String c s). auto.
Qed.

Lemma starLazy_inv {A} (p : ascii -> bool) (s : string)
    (k : string -> option A) (x : A) :
  starLazy p s k = Some x ->
  exists s', k s' = Some x /\ String.length s' <= String.length s.
Proof.
  induction s as [|c s IH]; simpl; intros H.
  - destruct (k "") eqn:E; [|discriminate]. exists "". split; [congruence|auto].
  - destruct (k (String c s)) eqn:E.
    + exists (String c s). split; [congruence | auto].
    + destruct (p c); [|discriminate].
      destruct (IH H) as (s' & Hk & Hl). exists s'. split; [exact Hk | lia].
Qed.

(** A successful match of [r] leaves the continuation a text that is shorter
    by [minLen r] characters at least. *)
Lemma rmatch_consumes {A} (r : regex) :
  forall (s : string) (caps : captures)
         (k : string -> captures -> option A) (x : A),
    rmatch r s caps k = Some x ->
    exists s' caps',
      k s' caps' = Some x /\ String.length s' + minLen r <= String.length s.
Proof.
  induction r as [p | l | r1 IH1 r2 IH2 | r1 IH1 r2 IH2 | g p | n r1 IH1];
    intros s caps k x H; simpl in *.
  - destruct s as [|c s]; [discriminate|].
    destruct (p c); [|discriminate].
    exists s, caps. split; [exact H | simpl; lia].
  - destruct (stripPrefix l s) as [s'|] eqn:E; [|discriminate].
    apply stripPrefix_length in E. exists s', caps. split; [exact H | lia].
  - destruct (IH1 _ _ _ _ H) as (s1 & c1 & H1 & L1).
    destruct (IH2 _ _ _ _ H1) as (s2 & c2 & H2 & L2).
    exists s2, c2. split; [exact H2 | lia].
  - destruct (rmatch r1 s caps k) eqn:E.
    + inversion H; subst. destruct (IH1 _ _ _ _ E) as (s1 & c1 & H1 & L1).
      exists s1, c1. split; [exact H1 | lia].
    + destruct (IH2 _ _ _ _ H) as (s1 & c1 & H1 & L1).
      exists s1, c1. split; [exact H1 | lia].
  - destruct g.
    + destruct (starGreedy_inv _ _ _ _ H) as (s' & Hk & Hl).
      exists s', caps. split; [exact Hk | lia].
    + destruct (starLazy_inv _ _ _ _ H) as (s' & Hk & Hl).
      exists s', caps. split; [exact Hk | lia].
  - destruct (IH1 _ _ _ _ H) as (s1 & c1 & H1 & L1).
    eexists s1, _. split; [exact H1 | lia].
Qed.

Lemma matchHere_consumes (r : regex) (s rest : string) (caps : captures) :
  matchHere r s = Some (caps, rest) ->
  String.length rest + minLen r <= String.length s.
Proof.
  unfold matchHere. intros H.
  destruct (rmatch_consumes _ _ _ _ _ H) as (s' & c' & Hk & Hl).
  inversion Hk; subst. exact Hl.
Qed.

Lemma execFrom_bounds (r : regex) (s : string) (i : nat) (m : rxMatch) :
  execFrom r s i = Some m ->
  i <= m_index m /\ m_index m + minLen r <= m_end m
  /\ m_end m <= i + String.length s.
Proof.
  revert i m. induction s as [|c s IH]; intros i m H; cbn [execFrom] in H.
  - destruct (matchHere r "") as [[caps rest]|] eqn:E; [|discriminate].
    injection H as <-. lazy beta iota delta [m_index m_end].
    apply matchHere_consumes in E.
    change (String.length "") with 0 in *.
    destruct (String.length rest); lia.
  - destruct (matchHere r (String c s)) as [[caps rest]|] eqn:E.
    + injection H as <-. lazy beta iota delta [m_index m_end].
      apply matchHere_consumes in E.
      change (String.length (String c s)) with (S (String.length s)) in *.
      destruct (String.length rest); lia.
    + apply IH in H.
      change (String.length (String c s)) with (S (String.length s)). lia.
Qed.

Lemma exec_bounds (r : regex) (text : string) (li li' : nat) (m : rxMatch) :
  exec r text li = (Some m, li') ->
  li' = m_end m /\ li <= m_index m /\ m_index m + minLen r <= m_end m
  /\ m_end m <= String.length text.
Proof.
  unfold exec. destruct (String.length text <? li) eqn:E; [discriminate|].
  apply Nat.ltb_ge in E.
  destruct (execFrom r (drop li text) li) as [m'|] eqn:F; [|discriminate].
  intros H; inversion H; subst. apply execFrom_bounds in F.
  rewrite length_drop in F. lia.
Qed.

Lemma exec_none (r : regex) (text : string) (li li' : nat) :
  exec r text li = (None, li') -> li' = 0.
Proof.
  unfold exec. destruct (String.length text <? li); [congruence|].
  destruct (execFrom r (drop li text) li); congruence.
Qed.

(** The loop ends, with [lastIndex] back at 0, as soon as the fuel exceeds
    the length of the text that is left, for a pattern that cannot match the
    empty string. *)
Lemma whileExec_total {St} (r : regex) (text : string)
    (body : rxMatch -> St -> St) :
  0 < minLen r ->
  forall (fuel li : nat) (st : St),
    String.length text - li < fuel ->
    exists st', whileExec fuel r text body li st = Some (0, st').
Proof.
  intros Hmin. induction fuel as [|fuel IH]; intros li st Hf; [lia|].
  simpl. destruct (exec r text li) as [[m|] li'] eqn:E.
  - apply exec_bounds in E. apply IH. lia.
  - apply exec_none in E. subst. now exists st.
Qed.

(** More fuel does not change the result. *)
Lemma whileExec_fuel_mono {St} (r : regex) (text : string)
    (body : rxMatch -> St -> St) :
  forall (fuel fuel' li : nat) (st : St) res,
    fuel <= fuel' ->
    whileExec fuel r text body li st = Some res ->
    whileExec fuel' r text body li st = Some res.
Proof.
  induction fuel as [|fuel IH]; intros fuel' li st res Hle H;
    [discriminate|].
  destruct fuel' as [|fuel']; [lia|]. simpl in *.
  destruct (exec r text li) as [[m|] li']; [|exact H].
  apply (IH fuel'); [lia | exact H].
Qed.

Lemma whileExec_fuel_any {St} (r : regex) (text : string)
    (body : rxMatch -> St -> St) (f1 f2 li : nat) (st : St) res1 res2 :
  whileExec f1 r text body li st = Some res1 ->
  whileExec f2 r text body li st = Some res2 ->
  res1 = res2.
Proof.
  intros H1 H2. destruct (Nat.le_ge_cases f1 f2) as [Hle|Hle].
  - apply (whileExec_fuel_mono _ _ _ _ _ _ _ _ Hle) in H1. congruence.
  - apply (whileExec_fuel_mono _ _ _ _ _ _ _ _ Hle) in H2. congruence.
Qed.

(** An invariant of the loop state that every pass of the body keeps holds
    when the loop ends.  The body is run on matches that [exec] found. *)
Lemma whileExec_invariant {St} (r : regex) (text : string)
    (body : rxMatch -> St -> St) (P : St -> Prop) :
  (forall m li li' st, exec r text li = (Some m, li') -> P st -> P (body m st)) ->
  forall (fuel li : nat) (st : St) li' st',
    P st ->
    whileExec fuel r text body li st = Some (li', st') ->
    P st' /\ li' = 0.
Proof.
  intros Hbody. induction fuel as [|fuel IH]; intros li st li' st' HP H;
    [discriminate|].
  simpl in H. destruct (exec r text li) as [[m|] l1] eqn:E.
  - apply (IH _ _ _ _ (Hbody _ _ _ _ E HP) H).
  - inversion H; subst. split; [exact HP | now apply exec_none in E].
Qed.

End Engine.


(** ** Deduplication *)

Section Dedup.

Lemma sameKey_true_iff (a b : entry) :
  sameKey a b = true <-> key b = key a.
Proof.
  unfold sameKey, key. rewrite andb_true_iff, !String.eqb_eq.
  split; [intros [-> ->]; reflexivity | intros H; inversion H; auto].
Qed.

Lemma sameKey_refl (a : entry) : sameKey a a = true.
Proof. apply sameKey_true_iff. reflexivity. Qed.

Lemma existsb_sameKey_iff (e : entry) (l : list entry) :
  existsb (sameKey e) l = true <-> In (key e) (map key l).
Proof.
  rewrite existsb_exists, in_map_iff. split.
  - intros (x & Hin & Hk). exists x. split; [|exact Hin].
    now apply sameKey_true_iff.
  - intros (x & Hk & Hin). exists x. split; [exact Hin|].
    now apply sameKey_true_iff.
Qed.

Lemma findIndexFrom_lower {X} (p : X -> bool) (l : list X) (i : Z) :
  existsb p l = true ->
  (i <= findIndexFrom p l i < i + Z.of_nat (List.length l))%Z.
Proof.
  revert i. induction l as [|x l IH]; intros i H; simpl in *.
  - discriminate.
  - destruct (p x); [lia|]. simpl in H. specialize (IH (i + 1)%Z H). lia.
Qed.

Lemma findIndexFrom_app {X} (p : X -> bool) (a b : list X) (i : Z) :
  findIndexFrom p (a ++ b) i =
  if existsb p a then findIndexFrom p a i
  else findIndexFrom p b (i + Z.of_nat (List.length a))%Z.
Proof.
  revert i. induction a as [|x a IH]; intros i; simpl.
  - f_equal. lia.
  - destruct (p x); simpl; [reflexivity|].
    rewrite IH. destruct (existsb p a); [reflexivity|]. f_equal. lia.
Qed.

(** The test of the filter at the entry that follows [pre]. *)
Lemma first_occurrence_test (pre l : list entry) (e : entry) :
  (Z.of_nat (List.length pre) =? findIndex (sameKey e) (pre ++ e :: l))%Z
  = negb (existsb (sameKey e) pre).
Proof.
  unfold findIndex. rewrite findIndexFrom_app.
  destruct (existsb (sameKey e) pre) eqn:E; simpl.
  - apply Z.eqb_neq. pose proof (findIndexFrom_lower _ _ 0%Z E). lia.
  - rewrite sameKey_refl. apply Z.eqb_eq. lia.
Qed.

Lemma filterFrom_keepFirst (pre l : list entry) :
  filterFrom
    (fun entry index self => (index =? findIndex (sameKey entry) self)%Z)
    (pre ++ l) l (Z.of_nat (List.length pre))
  = keepFirst pre l.
Proof.
  revert pre. induction l as [|e l IH]; intros pre; simpl; [reflexivity|].
  rewrite first_occurrence_test.
  assert (Hs : filterFrom
    (fun entry index self => (index =? findIndex (sameKey entry) self)%Z)
    (pre ++ e :: l) l (Z.of_nat (List.length pre) + 1)
    = keepFirst (pre ++ [e]) l).
  { rewrite <- IH. rewrite <- app_assoc. simpl. f_equal.
    rewrite length_app. simpl. lia. }
  rewrite Hs.
  destruct (in_dec key_eq_dec (key e) (map key pre)) as [Hin|Hin].
  - apply existsb_sameKey_iff in Hin. rewrite Hin. reflexivity.
  - destruct (existsb (sameKey e) pre) eqn:E; [|reflexivity].
    apply existsb_sameKey_iff in E. contradiction.
Qed.

Lemma uniqueEntries_keepFirst (l : list entry) :
  uniqueEntries l = keepFirst [] l.
Proof. exact (filterFrom_keepFirst [] l). Qed.

Lemma keepFirst_fresh (pre l : list entry) (x : entry) :
  In x (keepFirst pre l) -> ~ In (key x) (map key pre).
Proof.
  revert pre. induction l as [|e l IH]; intros pre; simpl; [tauto|].
  assert (Hrest : In x (keepFirst (pre ++ [e]) l) -> ~ In (key x) (map key pre)).
  { intros H Hin. apply (IH _ H). rewrite map_app, in_app_iff. now left. }
  destruct (in_dec key_eq_dec (key e) (map key pre)) as [Hin|Hin]; [exact Hrest|].
  intros [<-|H]; [exact Hin | now apply Hrest].
Qed.

Lemma keepFirst_NoDup (pre l : list entry) :
  NoDup (map key (keepFirst pre l)).
Proof.
  revert pre. induction l as [|e l IH]; intros pre; simpl; [constructor|].
  destruct (in_dec key_eq_dec (key e) (map key pre)); [apply IH|].
  simpl. constructor; [|apply IH].
  intros H. apply in_map_iff in H. destruct H as (x & Hk & Hx).
  apply keepFirst_fresh in Hx. apply Hx.
  rewrite map_app, in_app_iff. right. simpl. now left.
Qed.

Lemma keepFirst_NoDup_id (pre l : list entry) :
  NoDup (map key l) ->
  (forall x, In x l -> ~ In (key x) (map key pre)) ->
  keepFirst pre l = l.
Proof.
  revert pre. induction l as [|e l IH]; intros pre Hnd Hfresh; simpl;
    [reflexivity|].
  simpl in Hnd. inversion Hnd as [|? ? Hnot Hnd']; subst.
  destruct (in_dec key_eq_dec (key e) (map key pre)) as [Hin|_].
  - exfalso. apply (Hfresh e); [now left | exact Hin].
  - f_equal. apply IH; [exact Hnd'|].
    intros x Hx Hin. rewrite map_app, in_app_iff in Hin.
    destruct Hin as [Hin|[Hin|[]]].
    + apply (Hfresh x); [now right | exact Hin].
    + apply Hnot. rewrite Hin. now apply in_map.
Qed.

(** A list whose (number, title) pairs are pairwise distinct is left as it
    is. *)
Lemma uniqueEntries_NoDup_id (l : list entry) :
  NoDup (map key l) -> uniqueEntries l = l.
Proof.
  intros H. rewrite uniqueEntries_keepFirst.
  apply keepFirst_NoDup_id; [exact H | intros x _ []].
Qed.

Lemma keepFirst_subseq (pre l : list entry) : subseq (keepFirst pre l) l.
Proof.
  revert pre. induction l as [|e l IH]; intros pre; simpl; [constructor|].
  destruct (in_dec key_eq_dec (key e) (map key pre)); constructor; apply IH.
Qed.

End Dedup.

(** C6. Deduplication keeps exactly the entries whose (number, title) pair
    has not occurred at an earlier index of the input: it is the
    first-occurrence filter [keepFirst], its result is a subsequence of the
    input (so the relative order is the original one), no pair occurs twice
    in it, every pair of the input still occurs in it, and the comparison of
    two entries is equality of the two strings of each. *)
Theorem C6_dedup_keeps_first_occurrences :
  forall entries : list entry,
    uniqueEntries entries = keepFirst [] entries
    /\ subseq (uniqueEntries entries) entries
    /\ NoDup (map key (uniqueEntries entries))
    /\ (forall e, In e entries -> In (key e) (map key (uniqueEntries entries)))
    /\ (forall a b, sameKey a b = true <->
                    number b = number a /\ title b = title a).
Proof.
  intros entries. rewrite uniqueEntries_keepFirst.
  split; [reflexivity|]. split; [apply keepFirst_subseq|].
  split; [apply keepFirst_NoDup|]. split.
  - assert (G : forall pre l e, In e l ->
        In (key e) (map key pre) \/ In (key e) (map key (keepFirst pre l))).
    { intros pre l. revert pre. induction l as [|x l IH]; intros pre e Hin;
        [destruct Hin|].
      simpl. destruct Hin as [->|Hin].
      - destruct (in_dec key_eq_dec (key e) (map key pre)); [now left|].
        right. simpl. now left.
      - destruct (IH (pre ++ [x])%list e Hin) as [H|H].
        + rewrite map_app, in_app_iff in H. destruct H as [H|[H|[]]].
          * now left.
          * destruct (in_dec key_eq_dec (key x) (map key pre)) as [Hx|Hx].
            -- left. now rewrite <- H.
            -- right. simpl. now left.
        + right. destruct (in_dec key_eq_dec (key x) (map key pre));
            [exact H | simpl; now right]. }
    intros e Hin. destruct (G [] entries e Hin) as [[]|H]. exact H.
  - intros a b. rewrite sameKey_true_iff. unfold key.
    split; [intros H; inversion H; auto | intros [-> ->]; reflexivity].
Qed.

Lemma C6_dedup_keeps_first_occurrences_witness :
  uniqueEntries
    [mkEntry "MC-1" "A" "01/02/2024" "REVOCATION";
     mkEntry "MC-2" "A" "01/02/2024" "REVOCATION";
     mkEntry "MC-1" "A" "03/04/2024" "DISMISSAL";
     mkEntry "MC-1" "a" "01/02/2024" "REVOCATION"]
  = [mkEntry "MC-1" "A" "01/02/2024" "REVOCATION";
     mkEntry "MC-2" "A" "01/02/2024" "REVOCATION";
     mkEntry "MC-1" "a" "01/02/2024" "REVOCATION"]
  /\ uniqueEntries
       [mkEntry "MC-1" "A" "01/02/2024" "REVOCATION";
        mkEntry "MC-2" "A" "01/02/2024" "REVOCATION";
        mkEntry "MC-1" "A" "03/04/2024" "DISMISSAL";
        mkEntry "MC-1" "a" "01/02/2024" "REVOCATION"]
     = keepFirst []
         [mkEntry "MC-1" "A" "01/02/2024" "REVOCATION";
          mkEntry "MC-2" "A" "01/02/2024" "REVOCATION";
          mkEntry "MC-1" "A" "03/04/2024" "DISMISSAL";
          mkEntry "MC-1" "a" "01/02/2024" "REVOCATION"].
Proof.
  split; [reflexivity|].
  exact (proj1 (C6_dedup_keeps_first_occurrences
                  [mkEntry "MC-1" "A" "01/02/2024" "REVOCATION";
                   mkEntry "MC-2" "A" "01/02/2024" "REVOCATION";
                   mkEntry "MC-1" "A" "03/04/2024" "DISMISSAL";
                   mkEntry "MC-1" "a" "01/02/2024" "REVOCATION"])).
Defined.

(** C7. Deduplication is idempotent. *)
Theorem C7_dedup_idempotent :
  forall entries : list entry,
    uniqueEntries (uniqueEntries entries) = uniqueEntries entries.
Proof.
  intros entries. apply uniqueEntries_NoDup_id.
  rewrite uniqueEntries_keepFirst. apply keepFirst_NoDup.
Qed.

(** ** Date formatting *)

Lemma formatDateForPDF_filter (s : string) :
  list_ascii_of_string (formatDateForPDF s) =
  filter (fun c => negb (Ascii.eqb c "-"%char)) (list_ascii_of_string s).
Proof.
  induction s as [|c s IH]; simpl; [reflexivity|].
  destruct (Ascii.eqb c "-"%char); simpl; [exact IH | now rewrite IH].
Qed.

(** C9. The two date converters are functions of their argument alone and
    satisfy the two equations: [formatDateForPDF] of ["2024-02-20"] is
    ["20240220"], its result being the argument without its hyphens, and
    [formatDateForFMCSA] of 20 February 2024 (month index 1) is
    ["20-FEB-24"]. *)
Theorem C9_date_converters :
  formatDateForPDF "2024-02-20" = "20240220"
  /\ formatDateForFMCSA (mkDate 2024 1 20) = "20-FEB-24"
  /\ (forall s,
        list_ascii_of_string (formatDateForPDF s) =
        filter (fun c => negb (Ascii.eqb c "-"%char)) (list_ascii_of_string s)).
Proof.
  split; [reflexivity|]. split; [reflexivity|]. exact formatDateForPDF_filter.
Qed.

(** ** The marker check of the HTML endpoint *)

(** C8. When the upper-cased body of the fetched page does not contain
    ["FMCSA REGISTER"], the endpoint answers status 400 with an envelope
    whose [success] is false, whose error is the invalid-response message
    and whose entries are empty; the answer is the same whatever the text
    extraction of the page would give, so no extraction takes part in it. *)
Theorem C8_missing_marker_is_400 :
  forall (cheerioText : string -> string) (registerDate now data : string),
    includesUnits (toUpperCase data) (codeUnits "FMCSA REGISTER") = false ->
    exists r,
      handleRegister cheerioText registerDate now (Body data) = Some r
      /\ status r = 400
      /\ success (json r) = false
      /\ json r = Failure "Invalid response from FMCSA" None []
      /\ entriesOf (json r) = [].
Proof.
  intros cheerioText registerDate now data H.
  unfold handleRegister. rewrite H. simpl.
  eexists. split; [reflexivity|]. repeat split.
Qed.

Lemma C8_missing_marker_witness :
  includesUnits
    (toUpperCase "<html><body>Service unavailable</body></html>")
    (codeUnits "FMCSA REGISTER") = false
  /\ exists r,
      handleRegister (fun s => s) "20-FEB-24" "2024-02-20T00:00:00.000Z"
        (Body "<html><body>Service unavailable</body></html>") = Some r
      /\ status r = 400
      /\ success (json r) = false
      /\ json r = Failure "Invalid response from FMCSA" None []
      /\ entriesOf (json r) = [].
Proof.
  split; [reflexivity|].
  apply (C8_missing_marker_is_400 (fun s => s)). reflexivity.
Defined.

(** ** The category of the HTML path *)

Section HtmlCategory.

Lemma last_cons_default {X} (x : X) (l : list X) (d d' : X) :
  last (x :: l) d = last (x :: l) d'.
Proof.
  revert x. induction l as [|y l IH]; intros x; [reflexivity|].
  change (last (y :: l) d = last (y :: l) d'). apply IH.
Qed.

Lemma categoryLoop_last (pats : list (string * string)) (w : list Z)
    (c : string) :
  Html.categoryLoop pats w c =
  last (map snd
          (filter (fun p => includesUnits w (codeUnits (fst p))) pats)) c.
Proof.
  revert c. induction pats as [|[pat cat] pats IH]; intros c; simpl;
    [reflexivity|].
  rewrite IH. destruct (includesUnits w (codeUnits pat)); simpl;
    [|reflexivity].
  destruct (map snd
              (filter (fun p => includesUnits w (codeUnits (fst p))) pats));
    [reflexivity | apply last_cons_default].
Qed.

Lemma map_snd_filter_diag (w : list Z) (l : list string) :
  map snd (filter (fun p => includesUnits w (codeUnits (fst p)))
             (map (fun k => (k, k)) l))
  = filter (fun kw => includesUnits w (codeUnits kw)) l.
Proof.
  induction l as [|k l IH]; simpl; [reflexivity|].
  destruct (includesUnits w (codeUnits k)); simpl; now rewrite IH.
Qed.

(** The loop of the source computes the last keyword found. *)
Lemma categoryOf_lastKeywordFound (w : list Z) :
  Html.categoryOf w = lastKeywordFound w.
Proof.
  unfold Html.categoryOf, lastKeywordFound. rewrite categoryLoop_last.
  change Html.categoryPatterns with (map (fun k => (k, k)) keywords).
  now rewrite map_snd_filter_diag.
Qed.

Lemma filter_none {X} (f : X -> bool) (l : list X) :
  (forall y, In y l -> f y = false) -> filter f l = [].
Proof.
  induction l as [|a l IH]; intros H; simpl; [reflexivity|].
  rewrite (H a (or_introl eq_refl)). apply IH.
  intros y Hy. apply H. now right.
Qed.

Lemma last_filter_nth {X} (f : X -> bool) (l : list X) (d x : X) (j : nat) :
  nth_error l j = Some x ->
  f x = true ->
  (forall n y, j < n -> nth_error l n = Some y -> f y = false) ->
  last (filter f l) d = x.
Proof.
  revert j d. induction l as [|a l IH]; intros j d Hj Hx Hlater.
  - destruct j; discriminate.
  - destruct j as [|j]; simpl in Hj.
    + inversion Hj; subst a. simpl. rewrite Hx.
      assert (E : filter f l = []).
      { clear -Hlater. apply filter_none. intros y Hy.
        apply In_nth_error in Hy. destruct Hy as (n & Hn).
        now rewrite (Hlater (S n) y (Nat.lt_0_succ n) Hn). }
      now rewrite E.
    + assert (IH' : forall d', last (filter f l) d' = x).
      { intros d'. apply (IH j); [exact Hj | exact Hx |].
        intros n y Hn Hy. apply (Hlater (S n) y); [lia | exact Hy]. }
      assert (Hin : In x (filter f l)).
      { apply filter_In. split; [now apply nth_error_In in Hj | exact Hx]. }
      simpl. destruct (f a); [|apply IH'].
      destruct (filter f l) as [|x0 l0]; [destruct Hin | exact (IH' d)].
Qed.

Lemma clamp_of_nat (s : string) (n : nat) :
  n <= String.length s -> clamp s (Z.of_nat n) = n.
Proof. unfold clamp, len. lia. Qed.

Lemma drop_append_le (n : nat) (a b : string) :
  n <= String.length a -> drop n (a ++ b) = drop n a ++ b.
Proof.
  revert a. induction n as [|n IH]; intros a H; [reflexivity|].
  destruct a as [|c a]; simpl in *; [lia|]. apply IH. lia.
Qed.

(** The window of the category: the (at most) 500 characters that precede
    the match, upper-cased. *)
Lemma beforeText_window (a b : string) :
  Html.beforeText (a ++ b) (Z.of_nat (String.length a)) =
  toUpperCase (drop (String.length a - 500) a).
Proof.
  unfold Html.beforeText, substring. f_equal.
  assert (La : String.length a <= String.length (a ++ b))
    by (rewrite length_append; lia).
  replace (Z.max 0 (Z.of_nat (String.length a) - 500))
    with (Z.of_nat (String.length a - 500)) by lia.
  rewrite !clamp_of_nat by lia.
  rewrite Nat.min_l, Nat.max_r by lia.
  rewrite drop_append_le by lia.
  replace (String.length a - (String.length a - 500))
    with (String.length (drop (String.length a - 500) a))
    by (rewrite length_drop; reflexivity).
  apply take_length_append.
Qed.

End HtmlCategory.

(** The upper-casing of the window *)

Section UpperCase.

Lemma upperUnits_eitherCase (k c : ascii) :
  upperAscii k = true -> eitherCase k c = true ->
  upperUnits c = [Z.of_N (N_of_ascii k)].
Proof.
  unfold upperAscii, eitherCase, upperUnits.
  set (kn := Z.of_N (N_of_ascii k)). set (n := Z.of_N (N_of_ascii c)).
  intros Hk Hc.
  apply orb_true_iff in Hk. apply orb_true_iff in Hc.
  assert (Hk' : (kn < 97 \/ 122 < kn < 128)%Z).
  { destruct Hk as [Hk|Hk]; [left; now apply Z.ltb_lt|].
    apply andb_true_iff in Hk. destruct Hk as [H1 H2].
    apply Z.ltb_lt in H1. apply Z.ltb_lt in H2. right. lia. }
  assert (Hc' : (n = kn \/ (65 <= kn <= 90 /\ n = kn + 32))%Z).
  { destruct Hc as [Hc|Hc]; [left; now apply Z.eqb_eq|].
    apply andb_true_iff in Hc. destruct Hc as [Hc H3].
    apply andb_true_iff in Hc. destruct Hc as [H1 H2].
    apply Z.leb_le in H1. apply Z.leb_le in H2. apply Z.eqb_eq in H3.
    right. lia. }
  clear Hk Hc.
  repeat match goal with
         | |- context [(?x =? ?y)%Z] => destruct (Z.eqb_spec x y)
         | |- context [(?x <=? ?y)%Z] => destruct (Z.leb_spec x y)
         end; cbn [andb]; try lia; f_equal; lia.
Qed.

Lemma toUpperCase_append (a b : string) :
  toUpperCase (a ++ b) = (toUpperCase a ++ toUpperCase b)%list.
Proof.
  induction a as [|c a IH]; [reflexivity|].
  cbn [append toUpperCase]. now rewrite IH, app_assoc.
Qed.

Lemma startsWithUnits_app (x y : list Z) :
  startsWithUnits (x ++ y) x = true.
Proof.
  induction x as [|u x IH]; [reflexivity|].
  cbn [app startsWithUnits]. now rewrite Z.eqb_refl, IH.
Qed.

Lemma includesUnits_app_r (u w pat : list Z) :
  includesUnits w pat = true -> includesUnits (u ++ w) pat = true.
Proof.
  intros H. induction u as [|x u IH]; [exact H|].
  cbn [app includesUnits]. rewrite IH. apply orb_true_r.
Qed.

Lemma includesUnits_start (w pat : list Z) :
  startsWithUnits w pat = true -> includesUnits w pat = true.
Proof. intros H. destruct w; cbn [includesUnits]; now rewrite H. Qed.

(** What begins with a keyword in either case begins, upper-cased, with
    the keyword. *)
Lemma startsWithAnyCase_upper (pat : string) :
  allChars upperAscii pat = true ->
  forall s, startsWithAnyCase s pat = true ->
            startsWithUnits (toUpperCase s) (codeUnits pat) = true.
Proof.
  induction pat as [|k pat IH]; intros Hp s H; [reflexivity|].
  cbn [allChars] in Hp. apply andb_true_iff in Hp. destruct Hp as [Hk Hp].
  destruct s as [|c s]; [discriminate|].
  cbn [startsWithAnyCase] in H. apply andb_true_iff in H.
  destruct H as [Hc H].
  cbn [toUpperCase]. rewrite (upperUnits_eitherCase k c Hk Hc).
  unfold codeUnits. cbn [list_ascii_of_string map app startsWithUnits].
  rewrite Z.eqb_refl. apply (IH Hp s H).
Qed.

(** The test of the loop finds a keyword that stands in the window in
    either case. *)
Lemma includesAnyCase_upper (pat : string) :
  allChars upperAscii pat = true ->
  forall s, includesAnyCase s pat = true ->
            includesUnits (toUpperCase s) (codeUnits pat) = true.
Proof.
  intros Hp. induction s as [|c s IH]; intros H.
  - cbn [includesAnyCase] in H. rewrite orb_false_r in H.
    apply includesUnits_start. now apply startsWithAnyCase_upper.
  - cbn [includesAnyCase] in H. apply orb_true_iff in H.
    destruct H as [H|H].
    + apply includesUnits_start. now apply startsWithAnyCase_upper.
    + cbn [toUpperCase]. apply includesUnits_app_r. now apply IH.
Qed.

Lemma keywords_upperAscii (k : string) :
  In k keywords -> allChars upperAscii k = true.
Proof.
  unfold keywords. cbn [In]. intros H.
  repeat (destruct H as [<-|H]; [reflexivity|]). destruct H.
Qed.

End UpperCase.

(** C1. In the HTML path the category of a match is computed from the
    window of the 500 characters that precede the match, upper-cased, which
    is tested against the keyword list in its order.  The window is that of
    the text as it stands: a keyword is found in whatever case its letters
    are written there.  When two keywords at positions [i < j] of the list
    both stand in the window, in either case, and the test finds no keyword
    after position [j], the entry gets the keyword at position [j], not the
    one at position [i], wherever the two occurrences lie in the window; the
    category is the last keyword of the list that the upper-cased window
    contains. *)
Theorem C1_later_keyword_wins :
  forall (a b : string) (m : rxMatch) (entries : list entry)
         (i j : nat) (ki kj : string),
    m_index m = String.length a ->
    i < j ->
    nth_error keywords i = Some ki ->
    nth_error keywords j = Some kj ->
    includesAnyCase (drop (String.length a - 500) a) ki = true ->
    includesAnyCase (drop (String.length a - 500) a) kj = true ->
    (forall n kn, j < n -> nth_error keywords n = Some kn ->
       includesUnits (toUpperCase (drop (String.length a - 500) a))
                     (codeUnits kn) = false) ->
    exists e,
      Html.body (a ++ b) m entries = (entries ++ [e])%list
      /\ category e = kj
      /\ category e <> ki
      /\ category e =
         lastKeywordFound (toUpperCase (drop (String.length a - 500) a)).
Proof.
  intros a b m entries i j ki kj Hidx Hij Hi Hj Hwi Hwj Hlater.
  unfold Html.body. eexists. split; [reflexivity|].
  cbn [category]. rewrite Hidx, beforeText_window, categoryOf_lastKeywordFound.
  assert (Hfound : includesUnits
                     (toUpperCase (drop (String.length a - 500) a))
                     (codeUnits kj) = true).
  { apply includesAnyCase_upper; [|exact Hwj].
    apply keywords_upperAscii. now apply nth_error_In in Hj. }
  assert (E : lastKeywordFound (toUpperCase (drop (String.length a - 500) a))
              = kj).
  { unfold lastKeywordFound.
    now apply (last_filter_nth
                 (fun kw => includesUnits
                              (toUpperCase (drop (String.length a - 500) a))
                              (codeUnits kw)) keywords "MISCELLANEOUS" kj j). }
  rewrite E. split; [reflexivity|]. split; [|reflexivity].
  intros ->. assert (Hnd : NoDup keywords).
  { unfold keywords. repeat constructor; simpl; intuition discriminate. }
  pose proof (proj1 (NoDup_nth_error keywords) Hnd i j) as Hinj.
  assert (i = j); [|lia]. apply Hinj.
  - apply nth_error_Some. now rewrite Hi.
  - now rewrite Hi, Hj.
Qed.

(** The nearer keyword, Name Change, loses against Revocation, which stands
    later in the list; both are written in mixed case.  A sharp s in the
    window counts as SS. *)
Lemma C1_later_keyword_wins_witness :
  exec Html.pattern "Revocation. Name change: MC-1 A 01/02/2024" 0
  = (Some (mkMatch 25 [(3, "01/02/2024"); (2, "A"); (1, "MC-1")] 42), 42)
  /\ Html.extract ("Dismi" ++ String "223" "al: MC-1 A 01/02/2024")
     = Some [mkEntry "MC-1" "A" "01/02/2024" "DISMISSAL"]
  /\ toUpperCase ("Stra" ++ String "223" ("e 9 " ++ String "233"
                                          (String "255" (String "181" ""))))
     = (codeUnits "STRASSE 9 " ++ [201; 376; 924]%Z)%list
  /\ exists e,
      Html.body ("Revocation. Name change: " ++ "MC-1 A 01/02/2024")
        (mkMatch 25 [(3, "01/02/2024"); (2, "A"); (1, "MC-1")] 42) []
      = ([] ++ [e])%list
      /\ category e = "REVOCATION"
      /\ category e <> "NAME CHANGE"
      /\ category e =
         lastKeywordFound
           (toUpperCase
              (drop (String.length "Revocation. Name change: " - 500)
                    "Revocation. Name change: ")).
Proof.
  split; [reflexivity|]. split; [reflexivity|]. split; [reflexivity|].
  apply (C1_later_keyword_wins "Revocation. Name change: " "MC-1 A 01/02/2024"
           (mkMatch 25 [(3, "01/02/2024"); (2, "A"); (1, "MC-1")] 42) []
           0 5 "NAME CHANGE" "REVOCATION");
    try reflexivity; try lia.
  intros n kn Hn Hnth.
  do 6 (destruct n as [|n]; [lia|]).
  destruct n as [|n]; [inversion Hnth; reflexivity|].
  destruct n as [|n]; [inversion Hnth; reflexivity|].
  destruct n; discriminate.
Defined.

(** ** The sections of the PDF path *)

Section PdfSections.

Lemma minLen_recordPattern : 0 < minLen Pdf.recordPattern.
Proof. cbv. lia. Qed.

Lemma minLen_pattern : 0 < minLen Html.pattern.
Proof. cbv. lia. Qed.

Lemma drop_drop (a b : nat) (s : string) : drop a (drop b s) = drop (b + a) s.
Proof.
  revert s. induction b as [|b IH]; intros s; simpl; [reflexivity|].
  destruct s as [|c s]; [destruct a; reflexivity | apply IH].
Qed.

Lemma indexFrom_found (pat s : string) (i j : nat) :
  indexFrom pat s i = Some j ->
  i <= j <= i + String.length s /\ startsWith (drop (j - i) s) pat = true.
Proof.
  revert i. induction s as [|c s IH]; intros i H; cbn [indexFrom] in H.
  - destruct (startsWith "" pat) eqn:E; [|discriminate].
    injection H as <-. rewrite Nat.sub_diag. simpl. split; [lia | exact E].
  - destruct (startsWith (String c s) pat) eqn:E.
    + injection H as <-. rewrite Nat.sub_diag. simpl. split; [lia | exact E].
    + apply IH in H. destruct H as [Hb Hs].
      change (String.length (String c s)) with (S (String.length s)).
      split; [lia|].
      replace (j - i) with (S (j - S i)) by lia. exact Hs.
Qed.




Lemma indexOf_found (s pat : string) (from r : Z) :
  indexOf s pat from = r -> r <> (-1)%Z ->
  (Z.of_nat (clamp s from) <= r <= len s)%Z
  /\ startsWith (drop (Z.to_nat r) s) pat = true.
Proof.
  unfold indexOf. set (k := clamp s from).
  assert (Hk : k <= String.length s) by (unfold k, clamp, len; lia).
  destruct (indexFrom pat (drop k s) k) as [j|] eqn:E; [|congruence].
  intros <- _. apply indexFrom_found in E. rewrite length_drop in E.
  destruct E as [Hb Hs]. rewrite drop_drop in Hs.
  replace (k + (j - k)) with j in Hs by lia.
  rewrite Nat2Z.id. unfold len. split; [lia | exact Hs].
Qed.

Lemma sectionText_shape (fullText : string) (startIdx : Z)
    (nxt : option Pdf.section) :
  (0 <= startIdx <= len fullText)%Z ->
  exists n, Pdf.sectionText fullText startIdx nxt
            = take n (drop (Z.to_nat startIdx) fullText).
Proof.
  intros Hs. unfold Pdf.sectionText, substring.
  set (e := if (_ =? -1)%Z then _ else _).
  assert (He : (startIdx <= e <= len fullText)%Z).
  { unfold e. destruct nxt as [nx|].
    - destruct (indexOf fullText (Pdf.header nx) startIdx =? -1)%Z eqn:E;
        [lia|]. apply Z.eqb_neq in E.
      destruct (indexOf_found _ _ _ _ eq_refl E) as [Hb _].
      unfold clamp in Hb. lia.
    - destruct (len fullText =? -1)%Z; lia. }
  assert (Hc1 : clamp fullText startIdx = Z.to_nat startIdx)
    by (unfold clamp; lia).
  assert (Hc2 : clamp fullText e = Z.to_nat e) by (unfold clamp; lia).
  rewrite Hc1, Hc2. rewrite Nat.min_l by lia. eexists. reflexivity.
Qed.

(** The loop over the sections always ends. *)
Lemma sectionLoop_total (secs : list Pdf.section) (fullText : string) :
  forall st, exists st', Pdf.sectionLoop secs fullText st = Some st'.
Proof.
  induction secs as [|cur rest IH]; intros st; cbn [Pdf.sectionLoop];
    [now exists st|].
  cbv zeta.
  destruct (indexOf fullText (Pdf.header cur) 0 =? -1)%Z; [apply IH|].
  match goal with
  | |- context [whileExec ?f ?r ?t ?b ?li ?s] =>
      destruct (whileExec_total r t b minLen_recordPattern f li s) as (st1 & ->);
        [lia|]
  end.
  apply IH.
Qed.

Lemma pdf_body_cases (sectionName : string) (m : rxMatch)
    (entries : list entry) :
  let t := Pdf.normTitle (group 2 (m_groups m)) in
  (0 < String.length t < 500 ->
   Pdf.body sectionName m entries
   = (entries ++ [pdfEntryOf sectionName m])%list)
  /\ (String.length t = 0 \/ 500 <= String.length t ->
      Pdf.body sectionName m entries = entries).
Proof.
  unfold Pdf.body, len. cbv zeta. split; intros H.
  - replace (0 <? _)%Z with true by (symmetry; apply Z.ltb_lt; lia).
    replace (_ <? 500)%Z with true by (symmetry; apply Z.ltb_lt; lia).
    reflexivity.
  - destruct H as [H|H].
    + replace (0 <? _)%Z with false by (symmetry; apply Z.ltb_ge; lia).
      reflexivity.
    + replace (_ <? 500)%Z with false by (symmetry; apply Z.ltb_ge; lia).
      now rewrite andb_false_r.
Qed.

(** Every entry that the loop over the sections adds was pushed in the pass
    of a section of the table whose header is found. *)
Lemma sectionLoop_provenance (fullText : string) :
  forall (secs : list Pdf.section) st st',
    Pdf.sectionLoop secs fullText st = Some st' ->
    forall e, In e (snd st') ->
      In e (snd st)
      \/ exists cur nxt, followedBy secs cur nxt
                         /\ acceptedIn fullText cur nxt e.
Proof.
  induction secs as [|cur rest IH]; intros st st' H e He;
    cbn [Pdf.sectionLoop] in H; cbv zeta in H.
  - injection H as <-. now left.
  - assert (Hlift : forall c n, followedBy rest c n ->
                                followedBy (cur :: rest) c n).
    { intros c n (pre & post & -> & ->). now exists (cur :: pre), post. }
    destruct (indexOf fullText (Pdf.header cur) 0 =? -1)%Z eqn:Eidx.
    + destruct (IH _ _ H e He) as [Hin|(c & n & Hf & Ha)]; [now left|].
      right. exists c, n. split; [now apply Hlift | exact Ha].
    + apply Z.eqb_neq in Eidx.
      destruct (whileExec _ _ _ _ _ _) as [[li1 es1]|] eqn:W; [|discriminate].
      destruct (IH _ _ H e He) as [Hin|(c & n & Hf & Ha)].
      * simpl in Hin.
        pose (P := fun es : list entry => forall x, In x es ->
                 In x (snd st) \/ acceptedIn fullText cur (hd_error rest) x).
        assert (HP : P es1 /\ li1 = 0).
        { apply (whileExec_invariant _ _ _ P) with (3 := W).
          - intros m li li' es Hex HPes x Hx.
            destruct (pdf_body_cases (Pdf.name cur) m es) as [Hk Hd].
            cbv zeta in Hk, Hd.
            destruct (Nat.ltb_spec 0 (String.length
                       (Pdf.normTitle (group 2 (m_groups m))))) as [H0|H0];
            [destruct (Nat.ltb_spec (String.length
                       (Pdf.normTitle (group 2 (m_groups m)))) 500)
               as [H5|H5]|].
            + rewrite Hk in Hx by lia. apply in_app_iff in Hx.
              destruct Hx as [Hx|[<-|[]]]; [now apply HPes|].
              right. unfold acceptedIn. cbv zeta.
              destruct (indexOf_found _ _ _ _ eq_refl Eidx) as [Hb Hs].
              split; [exact Eidx|]. split; [exact Hs|].
              split; [apply sectionText_shape; unfold clamp in Hb; lia|].
              exists m, li, li'. split; [exact Hex|]. split; [reflexivity|].
              simpl. lia.
            + rewrite Hd in Hx by lia. now apply HPes.
            + rewrite Hd in Hx by lia. now apply HPes.
          - intros x Hx. now left. }
        destruct (proj1 HP e Hin) as [Hs|Ha]; [now left|].
        right. exists cur, (hd_error rest). split; [|exact Ha].
        now exists [], rest.
      * right. exists c, n. split; [now apply Hlift | exact Ha].
Qed.

Lemma followedBy_In (secs : list Pdf.section) cur nxt :
  followedBy secs cur nxt -> In cur secs.
Proof.
  intros (pre & rest & -> & _). apply in_app_iff. right. now left.
Qed.

(** The entries of the PDF path, with where each comes from. *)
Lemma extract_provenance (fullText : string) :
  exists entries,
    Pdf.extract fullText = Some entries
    /\ forall e, In e entries ->
         exists cur nxt, followedBy Pdf.sections cur nxt
                         /\ acceptedIn fullText cur nxt e.
Proof.
  unfold Pdf.extract.
  destruct (sectionLoop_total Pdf.sections fullText (0, [])) as (st' & E).
  rewrite E. exists (snd st'). split; [reflexivity|].
  intros e He.
  destruct (sectionLoop_provenance _ _ _ _ E e He) as [[]|H]. exact H.
Qed.

(** The loop of the HTML path always ends: its fuel is enough. *)
Lemma html_extract_total (rawText : string) :
  exists entries, Html.extract rawText = Some entries.
Proof.
  unfold Html.extract.
  destruct (whileExec_total Html.pattern rawText (Html.body rawText)
              minLen_pattern (S (String.length rawText)) 0 [])
    as (st' & ->); [lia|].
  now exists st'.
Qed.

(** The handler of the HTML endpoint always answers. *)
Lemma handleRegister_total (cheerioText : string -> string)
    (registerDate now : string) (r : fetched) :
  exists resp, handleRegister cheerioText registerDate now r = Some resp.
Proof.
  destruct r as [data|message]; cbn [handleRegister]; [|now eexists].
  destruct (negb _); [now eexists|]. cbv zeta.
  destruct (html_extract_total (cheerioText data)) as (entries & ->).
  now eexists.
Qed.

End PdfSections.

Lemma uniqueEntries_In (l : list entry) (e : entry) :
  In e (uniqueEntries l) -> In e l.
Proof.
  rewrite uniqueEntries_keepFirst. generalize (@nil entry) as pre.
  induction l as [|x l IH]; intros pre; simpl; [tauto|].
  destruct (in_dec key_eq_dec (key x) (map key pre)).
  - intros H. right. apply (IH _ H).
  - intros [->|H]; [now left | right; apply (IH _ H)].
Qed.

Lemma section_of_header_REVOCATIONS (sec : Pdf.section) :
  In sec Pdf.sections -> Pdf.header sec = "REVOCATIONS" ->
  Pdf.name sec = "REVOCATION".
Proof.
  unfold Pdf.sections. simpl.
  intros H; repeat (destruct H as [<-|H]); simpl; try discriminate;
    try reflexivity; destruct H.
Qed.

(** C4.  The category of an entry of the PDF path is the name of the section
    in whose pass it was pushed, and the text of a section runs to the header
    of the next section of the table, or to the end of the text when that
    header does not occur, even when the header of a later section does.
    In the text below the header CERTIFICATES, PERMITS & LICENSES does not
    occur, so the pass of NAME CHANGES runs over the whole text: the record
    MC-2, which stands under REVOCATIONS, is pushed first with the category
    NAME CHANGE, and deduplication keeps that entry and drops the one with
    the category REVOCATION.  When REVOCATIONS is the only header that
    occurs in a text, every entry has the category REVOCATION. *)
Theorem C4_sections_overlap :
  indexOf "NAME CHANGES MC-1 A 01/02/2024 REVOCATIONS MC-2 B 03/04/2024"
          "REVOCATIONS" 0 = 31%Z
  /\ indexOf "NAME CHANGES MC-1 A 01/02/2024 REVOCATIONS MC-2 B 03/04/2024"
             "MC-2 B 03/04/2024" 0 = 43%Z
  /\ sectionBefore Pdf.sections
       "NAME CHANGES MC-1 A 01/02/2024 REVOCATIONS MC-2 B 03/04/2024" 43 None
     = Some (Pdf.mkSection "REVOCATION" "REVOCATIONS")
  /\ Pdf.extract
       "NAME CHANGES MC-1 A 01/02/2024 REVOCATIONS MC-2 B 03/04/2024"
     = Some [mkEntry "MC-1" "A" "01/02/2024" "NAME CHANGE";
             mkEntry "MC-2" "B" "03/04/2024" "NAME CHANGE";
             mkEntry "MC-2" "B" "03/04/2024" "REVOCATION"]
  /\ option_map uniqueEntries
       (Pdf.extract
          "NAME CHANGES MC-1 A 01/02/2024 REVOCATIONS MC-2 B 03/04/2024")
     = Some [mkEntry "MC-1" "A" "01/02/2024" "NAME CHANGE";
             mkEntry "MC-2" "B" "03/04/2024" "NAME CHANGE"]
  /\ option_map uniqueEntries
       (Pdf.extractWithFallback
          "NAME CHANGES MC-1 A 01/02/2024 REVOCATIONS MC-2 B 03/04/2024")
     = Some [mkEntry "MC-1" "A" "01/02/2024" "NAME CHANGE";
             mkEntry "MC-2" "B" "03/04/2024" "NAME CHANGE"]
  /\ (forall fullText : string,
        (forall sec, In sec Pdf.sections ->
           Pdf.header sec <> "REVOCATIONS" ->
           indexOf fullText (Pdf.header sec) 0 = (-1)%Z) ->
        exists entries,
          Pdf.extract fullText = Some entries
          /\ forall e, In e entries \/ In e (uniqueEntries entries) ->
               category e = "REVOCATION").
Proof.
  do 6 (split; [reflexivity|]).
  intros fullText Honly.
  destruct (extract_provenance fullText) as (entries & E & Hprov).
  exists entries. split; [exact E|].
  assert (Hcat : forall e, In e entries -> category e = "REVOCATION").
  { intros e He. destruct (Hprov e He) as (cur & nxt & Hf & Ha).
    assert (Hc : category e = Pdf.name cur).
    { destruct Ha as (_ & _ & _ & m & li & li' & _ & -> & _). reflexivity. }
    rewrite Hc.
    apply section_of_header_REVOCATIONS; [now apply followedBy_In in Hf|].
    destruct (string_dec (Pdf.header cur) "REVOCATIONS") as [Hh|Hh];
      [exact Hh|].
    exfalso. destruct Ha as (Hfound & _). apply Hfound.
    apply Honly; [now apply followedBy_In in Hf | exact Hh]. }
  intros e [He|He]; [now apply Hcat|].
  apply Hcat. now apply uniqueEntries_In.
Qed.

(** ** The title guard of the PDF path *)

(** C2. In the PDF path a matched record is pushed exactly when the length
    of its normalised title is strictly between 0 and 500, and is dropped
    without a trace otherwise; the HTML path pushes one entry for every
    match.  So every entry of the PDF path has a title of 1 to 499
    characters, and a record with a title of 500 characters is kept by the
    HTML extractor and dropped by the PDF extractor, as is a record with an
    empty title. *)
Theorem C2_title_length_guard :
  (forall (sectionName rawText : string) (m : rxMatch) (entries : list entry),
      (0 < String.length (Pdf.normTitle (group 2 (m_groups m))) < 500 ->
       Pdf.body sectionName m entries
       = (entries ++ [pdfEntryOf sectionName m])%list)
      /\ (String.length (Pdf.normTitle (group 2 (m_groups m))) = 0
          \/ 500 <= String.length (Pdf.normTitle (group 2 (m_groups m))) ->
          Pdf.body sectionName m entries = entries)
      /\ (exists e, Html.body rawText m entries = (entries ++ [e])%list
                    /\ number e = group 1 (m_groups m)
                    /\ title e = collapseSpaces (trim (group 2 (m_groups m)))
                    /\ decided e = group 3 (m_groups m)))
  /\ (forall fullText : string,
        exists entries,
          Pdf.extract fullText = Some entries
          /\ forall e, In e entries -> 0 < String.length (title e) < 500)
  /\ (String.length (longTitle 500) = 500
      /\ Html.extract ("REVOCATIONS MC-1 " ++ longTitle 500 ++ " 01/02/2024")
         = Some [mkEntry "MC-1" (longTitle 500) "01/02/2024" "REVOCATION"]
      /\ Pdf.extract ("REVOCATIONS MC-1 " ++ longTitle 500 ++ " 01/02/2024")
         = Some []
      /\ Pdf.extract ("REVOCATIONS MC-1 " ++ longTitle 499 ++ " 01/02/2024")
         = Some [mkEntry "MC-1" (longTitle 499) "01/02/2024" "REVOCATION"])
  /\ (Html.extract "REVOCATIONS MC-1  01/02/2024"
      = Some [mkEntry "MC-1" "" "01/02/2024" "REVOCATION"]
      /\ Pdf.extract "REVOCATIONS MC-1  01/02/2024" = Some []).
Proof.
  split.
  - intros sectionName rawText m entries.
    destruct (pdf_body_cases sectionName m entries) as [Hk Hd].
    split; [exact Hk|]. split; [exact Hd|].
    unfold Html.body. eexists. split; [reflexivity|]. repeat split.
  - split.
    + intros fullText.
      destruct (extract_provenance fullText) as (entries & E & Hprov).
      exists entries. split; [exact E|]. intros e He.
      destruct (Hprov e He) as (cur & nxt & _ & Ha).
      destruct Ha as (_ & _ & _ & m & li & li' & _ & _ & Hlen). exact Hlen.
    + split; [|split]; repeat split; vm_compute; reflexivity.
Qed.

Lemma C2_title_length_guard_witness :
  0 < String.length (Pdf.normTitle
        (group 2 [(3, "01/02/2024"); (2, "Smith  Trucking"); (1, "MC-1")]))
    < 500
  /\ Pdf.body "REVOCATION"
       (mkMatch 12 [(3, "01/02/2024"); (2, "Smith  Trucking"); (1, "MC-1")] 44)
       []
     = [mkEntry "MC-1" "Smith Trucking" "01/02/2024" "REVOCATION"].
Proof.
  split; [vm_compute; lia|].
  apply (proj1 (proj1 C2_title_length_guard "REVOCATION" ""
           (mkMatch 12 [(3, "01/02/2024"); (2, "Smith  Trucking"); (1, "MC-1")]
                    44) [])).
  vm_compute. lia.
Defined.

(** ** The fallback of the Express variant of the PDF path *)

Section PdfFallback.

Lemma sectionLoop_none_found (fullText : string) :
  forall (secs : list Pdf.section) st,
    (forall sec, In sec secs -> indexOf fullText (Pdf.header sec) 0 = (-1)%Z) ->
    Pdf.sectionLoop secs fullText st = Some st.
Proof.
  induction secs as [|cur rest IH]; intros st H; cbn [Pdf.sectionLoop];
    [reflexivity|].
  cbv zeta. rewrite (H cur (or_introl eq_refl)). simpl.
  apply IH. intros sec Hs. apply H. now right.
Qed.

(** The pattern is shared by all the loops; each loop leaves its
    [lastIndex] at 0. *)
Lemma sectionLoop_lastIndex (fullText : string) :
  forall (secs : list Pdf.section) es li' es',
    Pdf.sectionLoop secs fullText (0, es) = Some (li', es') -> li' = 0.
Proof.
  induction secs as [|cur rest IH]; intros es li' es' H;
    cbn [Pdf.sectionLoop] in H; cbv zeta in H.
  - now injection H as <- _.
  - destruct (indexOf fullText (Pdf.header cur) 0 =? -1)%Z;
      [now apply IH in H|].
    destruct (whileExec _ _ _ _ _ _) as [[li1 es1]|] eqn:W; [|discriminate].
    apply (whileExec_invariant _ _ _ (fun _ => True)) in W; auto.
    destruct W as [_ ->]. now apply IH in H.
Qed.

Lemma fallback_all_miscellaneous (fullText : string) (fuel li li' : nat)
    (es : list entry) :
  whileExec fuel Pdf.recordPattern fullText Pdf.fallbackBody li [] = Some (li', es) ->
  forall e, In e es -> category e = "MISCELLANEOUS".
Proof.
  intros W.
  apply (whileExec_invariant _ _ _
           (fun es => forall e, In e es -> category e = "MISCELLANEOUS"))
    in W.
  - exact (proj1 W).
  - intros m l1 l2 st _ Hst e He. unfold Pdf.fallbackBody in He.
    apply in_app_iff in He. destruct He as [He|[<-|[]]];
      [now apply Hst | reflexivity].
  - intros e [].
Qed.

End PdfFallback.

(** C5, as the code has it.  The fallback of the Express variant is entered
    exactly when the loop over the sections has pushed no entry.  That is
    the case whenever no section header occurs in the text; it is also the
    case when headers occur and no record is accepted under them.  When the
    fallback is entered it scans the whole text from index 0 and every entry
    is labelled MISCELLANEOUS; when it is not, the entries are those of the
    sections. *)
Theorem C5_fallback_when_no_entry :
  forall fullText : string,
    (Pdf.fallbackRuns fullText = true <-> Pdf.extract fullText = Some [])
    /\ ((forall sec, In sec Pdf.sections ->
           indexOf fullText (Pdf.header sec) 0 = (-1)%Z) ->
        Pdf.fallbackRuns fullText = true)
    /\ (Pdf.fallbackRuns fullText = true ->
        exists entries,
          Pdf.extractWithFallback fullText = Some entries
          /\ Pdf.extractWithFallback fullText
             = option_map snd
                 (whileExec (S (String.length fullText)) Pdf.recordPattern
                    fullText Pdf.fallbackBody 0 [])
          /\ forall e, In e entries -> category e = "MISCELLANEOUS")
    /\ (Pdf.fallbackRuns fullText = false ->
        Pdf.extractWithFallback fullText = Pdf.extract fullText
        /\ Pdf.extract fullText <> Some []).
Proof.
  intros fullText.
  unfold Pdf.fallbackRuns, Pdf.extractWithFallback, Pdf.extract.
  destruct (sectionLoop_total Pdf.sections fullText (0, [])) as ([li es] & E).
  rewrite E. pose proof (sectionLoop_lastIndex _ _ _ _ _ E) as ->.
  unfold Pdf.fallbackTaken. cbn [option_map snd].
  split; [|split; [|split]].
  - destruct es; simpl; split; congruence.
  - intros H. rewrite (sectionLoop_none_found _ _ _ H) in E.
    injection E as <-. reflexivity.
  - destruct es as [|e0 es]; [|discriminate]. intros _.
    cbn [List.length Nat.eqb].
    destruct (whileExec_total Pdf.recordPattern fullText Pdf.fallbackBody
                minLen_recordPattern (S (String.length fullText)) 0 [])
      as (st' & W); [lia|].
    rewrite W. exists st'. split; [reflexivity|]. split; [reflexivity|].
    exact (fallback_all_miscellaneous _ _ _ _ _ W).
  - destruct es as [|e0 es]; [discriminate|]. intros _. simpl.
    split; [reflexivity | discriminate].
Qed.

Lemma C5_fallback_when_no_entry_witness :
  (forall sec, In sec Pdf.sections ->
     indexOf "MC-100000 Smith Trucking Co 01/02/2024" (Pdf.header sec) 0
     = (-1)%Z)
  /\ Pdf.fallbackRuns "MC-100000 Smith Trucking Co 01/02/2024" = true.
Proof.
  assert (H : forall sec, In sec Pdf.sections ->
     indexOf "MC-100000 Smith Trucking Co 01/02/2024" (Pdf.header sec) 0
     = (-1)%Z).
  { intros sec Hin. unfold Pdf.sections in Hin. simpl in Hin.
    repeat (destruct Hin as [<-|Hin]); try reflexivity; destruct Hin. }
  split; [exact H|].
  exact (proj1 (proj2 (C5_fallback_when_no_entry
                         "MC-100000 Smith Trucking Co 01/02/2024")) H).
Defined.

(** The claim C5 as it is stated fails: in the text below the header
    REVOCATIONS is found, at index 39, no record stands under it, and the
    fallback is entered all the same and labels the record of the text
    MISCELLANEOUS. *)
Lemma C5_counterexample :
  ~ (Pdf.fallbackRuns "MC-100000 Smith Trucking Co 01/02/2024 REVOCATIONS"
       = true
     <-> forall sec, In sec Pdf.sections ->
           indexOf "MC-100000 Smith Trucking Co 01/02/2024 REVOCATIONS"
                   (Pdf.header sec) 0 = (-1)%Z)
  /\ indexOf "MC-100000 Smith Trucking Co 01/02/2024 REVOCATIONS"
             "REVOCATIONS" 0 = 39%Z
  /\ Pdf.extractWithFallback
       "MC-100000 Smith Trucking Co 01/02/2024 REVOCATIONS"
     = Some [mkEntry "MC-100000" "Smith Trucking Co" "01/02/2024"
                     "MISCELLANEOUS"].
Proof.
  split; [|split; reflexivity].
  intros [H _].
  specialize (H eq_refl (Pdf.mkSection "REVOCATION" "REVOCATIONS")).
  assert (Hin : In (Pdf.mkSection "REVOCATION" "REVOCATIONS") Pdf.sections)
    by (unfold Pdf.sections; simpl; tauto).
  specialize (H Hin). vm_compute in H. discriminate.
Qed.

(** ** Matching a well-formed record *)

Section Matching.

Lemma pattern_scheme :
  Html.pattern = recordRegex (altsOf "MC" ["FF"; "MX"]) isDot.
Proof. reflexivity. Qed.

Lemma recordPattern_scheme :
  Pdf.recordPattern = recordRegex (altsOf "MC" ["FF"; "MX"; "MX-MC"]) isAny.
Proof. reflexivity. Qed.

Lemma take_append_diff (a b : string) :
  take (String.length (a ++ b) - String.length b) (a ++ b) = a.
Proof.
  rewrite length_append, Nat.add_sub. apply take_length_append.
Qed.

Lemma firstIs_append (p : ascii -> bool) (a b : string) :
  firstIs p a = true -> firstIs p (a ++ b) = true.
Proof. destruct a; simpl; [discriminate | auto]. Qed.

Lemma firstIs_exclusive (p q : ascii -> bool) (s : string) :
  (forall c, q c = true -> p c = false) ->
  firstIs q s = true -> firstIs p s = false.
Proof. destruct s; simpl; [reflexivity | auto]. Qed.

Lemma digit_not_space (c : ascii) : isDigit c = true -> isSpace c = false.
Proof.
  unfold isDigit, isSpace. intros H.
  apply andb_true_iff in H. destruct H as [H1 H2].
  apply Nat.leb_le in H1. apply Nat.leb_le in H2.
  repeat (apply orb_false_iff; split).
  - apply andb_false_iff. right. apply Nat.leb_gt. lia.
  - apply Nat.eqb_neq. lia.
  - apply Nat.eqb_neq. lia.
Qed.

Lemma space_not_digit (c : ascii) : isSpace c = true -> isDigit c = false.
Proof.
  intros H. destruct (isDigit c) eqn:E; [|reflexivity].
  apply digit_not_space in E. congruence.
Qed.

Lemma space_not_slash (c : ascii) : isSpace c = true -> isSlash c = false.
Proof.
  intros H. unfold isSlash. destruct (Ascii.eqb c "/"%char) eqn:E;
    [|reflexivity].
  apply Ascii.eqb_eq in E. subst c. discriminate.
Qed.

Lemma notSpace_not_space (c : ascii) : notSpace c = true -> isSpace c = false.
Proof. unfold notSpace. now destruct (isSpace c). Qed.

(** *** The quantified classes *)

(** A greedy star takes a whole run when the continuation succeeds after
    it. *)
Lemma starGreedy_run {A} (p : ascii -> bool) (a s : string)
    (k : string -> option A) (x : A) :
  allChars p a = true -> firstIs p s = false -> k s = Some x ->
  starGreedy p (a ++ s) k = Some x.
Proof.
  intros Ha Hs Hk. induction a as [|c a IH]; simpl in *.
  - destruct s as [|c s]; simpl in *; [exact Hk|]. now rewrite Hs.
  - apply andb_true_iff in Ha. destruct Ha as [Hc Ha].
    rewrite Hc, (IH Ha). reflexivity.
Qed.

Lemma plus_run {A} (p : ascii -> bool) (a s : string) (caps : captures)
    (k : string -> captures -> option A) (x : A) :
  firstIs p a = true -> allChars p a = true -> firstIs p s = false ->
  k s caps = Some x ->
  rmatch (Plus true p) (a ++ s) caps k = Some x.
Proof.
  intros Hf Ha Hs Hk. destruct a as [|c a]; [discriminate|].
  simpl in *. rewrite Hf. apply andb_true_iff in Ha.
  now apply starGreedy_run.
Qed.

(** A greedy star fails when the continuation fails wherever the star may
    stop. *)
Lemma starGreedy_none {A} (p : ascii -> bool) (s : string)
    (k : string -> option A) :
  (forall s', afterRun p s s' -> k s' = None) ->
  starGreedy p s k = None.
Proof.
  induction s as [|c s IH]; intros H; simpl.
  - apply H. constructor.
  - destruct (p c) eqn:E; [|apply H; constructor].
    rewrite IH; [apply H; constructor|].
    intros s' Hs'. apply H. now constructor.
Qed.

(** A lazy star stops after [t] when the continuation succeeds there and
    fails after every proper prefix of [t]. *)
Lemma starLazy_stop {A} (p : ascii -> bool) (t s : string)
    (k : string -> option A) (x : A) :
  allChars p t = true -> failsInside k t s -> k s = Some x ->
  starLazy p (t ++ s) k = Some x.
Proof.
  intros Ht Hf Hk. induction t as [|c t IH].
  - simpl. destruct s; simpl; now rewrite Hk.
  - simpl in Ht. apply andb_true_iff in Ht. destruct Ht as [Hc Ht].
    destruct Hf as [Hn Hf].
    change (String c t ++ s) with (String c (t ++ s)) in *.
    cbn [starLazy]. rewrite Hn, Hc. now apply IH.
Qed.

(** *** The date *)

Lemma dateRegex_dateHere {A} (s : string) (caps : captures)
    (k : string -> captures -> option A) :
  rmatch dateRegex s caps k = if dateHere s then k (drop 10 s) caps else None.
Proof.
  unfold dateRegex, dateHere, dateShape.
  do 10 (destruct s as [|? s]; [reflexivity|];
         cbn [rmatch stripPrefix hasShape drop];
         match goal with
         | |- context [isDigit ?c] => destruct (isDigit c); [|reflexivity]
         | |- context [Ascii.eqb "/"%char ?c] =>
             unfold isSlash; rewrite (Ascii.eqb_sym c "/"%char);
             destruct (Ascii.eqb "/"%char c); [|reflexivity]
         end; cbn [andb]).
  reflexivity.
Qed.

Lemma hasShape_reject (shape : list (ascii -> bool)) (v w : string)
    (c : ascii) :
  (forall q, In q shape -> q c = false) ->
  hasShape shape (v ++ String c w) = hasShape shape v.
Proof.
  revert v. induction shape as [|q shape IH]; intros v H; [reflexivity|].
  destruct v as [|a v]; simpl.
  - now rewrite (H q (or_introl eq_refl)).
  - rewrite IH; [reflexivity|]. intros q' Hq'. apply H. now right.
Qed.

Lemma dateHere_before_space (v w : string) :
  firstIs isSpace w = true -> dateHere (v ++ w) = dateHere v.
Proof.
  destruct w as [|c w]; [discriminate|]. simpl. intros Hc.
  apply hasShape_reject. unfold dateShape. simpl.
  intros q Hq.
  repeat (destruct Hq as [<-|Hq];
          [first [now apply space_not_digit | now apply space_not_slash]|]).
  destruct Hq.
Qed.

Lemma isDate_length (d : string) : isDate d = true -> String.length d = 10.
Proof.
  unfold isDate. intros H. apply andb_true_iff in H.
  now apply Nat.eqb_eq.
Qed.

Lemma isDate_first_digit (d s : string) :
  isDate d = true -> firstIs isDigit (d ++ s) = true.
Proof.
  unfold isDate, dateHere, dateShape. intros H.
  apply andb_true_iff in H. destruct H as [H _].
  destruct d as [|c d]; [discriminate|]. simpl in *.
  now apply andb_true_iff in H.
Qed.

Lemma dateHere_append (d s : string) :
  isDate d = true -> dateHere (d ++ s) = true.
Proof.
  unfold isDate, dateHere. intros H. apply andb_true_iff in H.
  destruct H as [H _]. revert d H. generalize dateShape as shape.
  induction shape as [|q shape IH]; intros d H; [reflexivity|].
  destruct d as [|c d]; [discriminate|]. simpl in *.
  apply andb_true_iff in H. destruct H as [-> H]. now apply IH.
Qed.

(** The date group takes a date and hands the rest to the continuation. *)
Lemma date_group {A} (d s : string) (caps : captures)
    (k : string -> captures -> option A) :
  isDate d = true ->
  rmatch (Grp 3 dateRegex) (d ++ s) caps k = k s ((3, d) :: caps).
Proof.
  intros Hd. cbn [rmatch]. rewrite dateRegex_dateHere.
  rewrite (dateHere_append _ _ Hd).
  replace (drop 10 (d ++ s)) with s
    by (rewrite <- (isDate_length _ Hd); now rewrite drop_length_append).
  now rewrite take_append_diff.
Qed.

Lemma date_group_none {A} (s : string) (caps : captures)
    (k : string -> captures -> option A) :
  dateHere s = false -> rmatch (Grp 3 dateRegex) s caps k = None.
Proof.
  intros H. cbn [rmatch]. rewrite dateRegex_dateHere. now rewrite H.
Qed.

(** *** The white space and the date after the title *)

Lemma lastIs_tail (p : ascii -> bool) (c d : ascii) (s : string) :
  lastIs p (String c (String d s)) = lastIs p (String d s).
Proof. reflexivity. Qed.

Lemma afterRun_inside (w s' : string) :
  forall u,
    lastIs notSpace u = true -> noDateInside u = true ->
    afterRun isSpace (u ++ w) s' ->
    exists v, s' = v ++ w /\ lastIs notSpace v = true
              /\ noDateInside v = true.
Proof.
  induction u as [|a u IH]; intros Hl Hn Hr; [discriminate|].
  change (String a u ++ w) with (String a (u ++ w)) in Hr.
  inversion Hr as [|c s1 s2 Ha Hr']; subst.
  - now exists (String a u).
  - destruct u as [|b u].
    + simpl in Hl. apply notSpace_not_space in Hl. congruence.
    + apply IH; [exact Hl | | exact Hr'].
      cbn [noDateInside] in Hn. apply andb_true_iff in Hn. tauto.
Qed.

Lemma noDateInside_here (v : string) :
  lastIs notSpace v = true -> noDateInside v = true -> dateHere v = false.
Proof.
  destruct v as [|c v]; [discriminate|]. intros _ H.
  cbn [noDateInside] in H. apply andb_true_iff in H.
  destruct H as [H _]. now apply negb_true_iff in H.
Qed.

(** After a title that is not finished, white space and a date do not
    follow. *)
Lemma gap_date_none {A} (u w : string) (caps : captures)
    (k : string -> captures -> option A) :
  lastIs notSpace u = true -> noDateInside u = true ->
  firstIs isSpace w = true ->
  rmatch (Plus true isSpace) (u ++ w) caps
    (fun s c => rmatch (Grp 3 dateRegex) s c k) = None.
Proof.
  intros Hl Hn Hw. destruct u as [|c u]; [discriminate|].
  change (String c u ++ w) with (String c (u ++ w)).
  unfold Plus. cbn [rmatch]. destruct (isSpace c) eqn:Ec; [|reflexivity].
  apply starGreedy_none. intros s' Hr.
  assert (Hu : lastIs notSpace u = true /\ noDateInside u = true).
  { destruct u as [|b u].
    - simpl in Hl. apply notSpace_not_space in Hl. congruence.
    - split; [exact Hl|]. cbn [noDateInside] in Hn.
      apply andb_true_iff in Hn. tauto. }
  destruct (afterRun_inside _ _ _ (proj1 Hu) (proj2 Hu) Hr)
    as (v & -> & Hvl & Hvn).
  apply date_group_none. rewrite dateHere_before_space by exact Hw.
  now apply noDateInside_here.
Qed.

Lemma failsInside_title {A} (w : string) (f : string -> captures)
    (k : string -> captures -> option A) :
  firstIs isSpace w = true ->
  forall u,
    (u = "" \/ lastIs notSpace u = true) -> noDateInside u = true ->
    failsInside
      (fun s' => rmatch (Plus true isSpace) s' (f s')
                   (fun s c => rmatch (Grp 3 dateRegex) s c k))
      u w.
Proof.
  intros Hw. induction u as [|c u IH]; intros Hl Hn; [exact I|].
  destruct Hl as [Hl|Hl]; [discriminate|].
  split; [now apply gap_date_none|].
  apply IH.
  - destruct u as [|b u]; [now left | now right].
  - cbn [noDateInside] in Hn. apply andb_true_iff in Hn. tauto.
Qed.

(** The part of the patterns after the docket, on the rest of a well-formed
    record. *)
Lemma after_docket {A} (p : ascii -> bool) (g1 t g2 d tail : string)
    (caps : captures) (k : string -> captures -> option A) (x : A) :
  firstIs isSpace g1 = true -> allChars isSpace g1 = true ->
  firstIs notSpace t = true -> lastIs notSpace t = true ->
  allChars p t = true -> noDateInside t = true ->
  firstIs isSpace g2 = true -> allChars isSpace g2 = true ->
  isDate d = true ->
  k tail ((3, d) :: (2, t) :: caps) = Some x ->
  rmatch (Cat (Plus true isSpace)
         (Cat (Grp 2 (Star false p))
         (Cat (Plus true isSpace) (Grp 3 dateRegex))))
    (g1 ++ t ++ g2 ++ d ++ tail) caps k = Some x.
Proof.
  intros Hg1 Hg1' Ht1 Ht2 Htp Htd Hg2 Hg2' Hd Hk.
  cbn [rmatch]. apply plus_run; try assumption.
  { apply (firstIs_exclusive _ notSpace); [apply notSpace_not_space|].
    now apply firstIs_append. }
  apply starLazy_stop; [exact Htp | |].
  - apply (failsInside_title (g2 ++ d ++ tail)
             (fun s' => (2, take (String.length (t ++ g2 ++ d ++ tail)
                                  - String.length s')
                              (t ++ g2 ++ d ++ tail)) :: caps)).
    + now apply firstIs_append.
    + now right.
    + exact Htd.
  - rewrite take_append_diff. apply plus_run; try assumption.
    { apply (firstIs_exclusive _ isDigit); [apply digit_not_space|].
      now apply isDate_first_digit. }
    etransitivity; [apply (date_group d tail _ k Hd) | exact Hk].
Qed.

(** *** The docket *)

Lemma stripPrefix_append_pat (a b s : string) :
  stripPrefix (a ++ b) s =
  match stripPrefix a s with
  | Some s' => stripPrefix b s'
  | None => None
  end.
Proof.
  revert s. induction a as [|c a IH]; intros s; [reflexivity|].
  destruct s as [|d s]; simpl; [reflexivity|].
  destruct (Ascii.eqb c d); [apply IH | reflexivity].
Qed.

Lemma plus_digit_none {A} (s : string) (caps : captures)
    (k : string -> captures -> option A) :
  firstIs isDigit s = false -> rmatch (Plus true isDigit) s caps k = None.
Proof.
  unfold Plus. cbn [rmatch]. destruct s as [|c s]; [reflexivity|].
  simpl. now intros ->.
Qed.

Lemma docket_alt {A} (a b : regex) (s : string) (caps : captures)
    (k : string -> captures -> option A) :
  rmatch (docketRegex (Alt a b)) s caps k =
  match rmatch (docketRegex a) s caps k with
  | Some x => Some x
  | None => rmatch (docketRegex b) s caps k
  end.
Proof. reflexivity. Qed.

Lemma docket_lit_none {A} (q s : string) (caps : captures)
    (k : string -> captures -> option A) :
  docketHere [q] s = false ->
  rmatch (docketRegex (Lit q)) s caps k = None.
Proof.
  unfold docketHere. cbn [existsb]. rewrite orb_false_r.
  rewrite stripPrefix_append_pat. unfold docketRegex. cbn [rmatch].
  destruct (stripPrefix q s) as [s1|]; [|reflexivity].
  destruct (stripPrefix "-" s1) as [s2|]; [|reflexivity].
  apply plus_digit_none.
Qed.

Lemma docket_lit {A} (pre ds s : string) (caps : captures)
    (k : string -> captures -> option A) (x : A) :
  firstIs isDigit ds = true -> allChars isDigit ds = true ->
  firstIs isDigit s = false ->
  k s ((1, pre ++ "-" ++ ds) :: caps) = Some x ->
  rmatch (docketRegex (Lit pre)) (pre ++ "-" ++ ds ++ s) caps k = Some x.
Proof.
  intros Hd Hd' Hs Hk. unfold docketRegex. cbn [rmatch].
  rewrite stripPrefix_append. rewrite stripPrefix_append.
  apply plus_run; try assumption.
  replace (pre ++ "-" ++ ds ++ s) with ((pre ++ "-" ++ ds) ++ s)
    by (now rewrite !append_assoc).
  now rewrite take_append_diff.
Qed.

(** The docket group fails where no docket begins. *)
Lemma docket_none {A} (others : list string) :
  forall (first s : string) (caps : captures)
         (k : string -> captures -> option A),
    docketHere (first :: others) s = false ->
    rmatch (docketRegex (altsOf first others)) s caps k = None.
Proof.
  induction others as [|second others IH]; intros first s caps k H.
  - now apply docket_lit_none.
  - cbn [altsOf]. rewrite docket_alt.
    unfold docketHere in H. cbn [existsb] in H.
    apply orb_false_iff in H. destruct H as [H1 H2].
    rewrite docket_lit_none
      by (unfold docketHere; cbn [existsb]; now rewrite H1).
    now apply IH.
Qed.

(** The docket group takes the docket of a record. *)
Lemma docket_first_choice {A} (others : list string) :
  forall (first pre ds s : string) (caps : captures)
         (k : string -> captures -> option A) (x : A),
    firstChoice (first :: others) pre (pre ++ "-" ++ ds ++ s) = true ->
    firstIs isDigit ds = true -> allChars isDigit ds = true ->
    firstIs isDigit s = false ->
    k s ((1, pre ++ "-" ++ ds) :: caps) = Some x ->
    rmatch (docketRegex (altsOf first others)) (pre ++ "-" ++ ds ++ s) caps k
    = Some x.
Proof.
  induction others as [|second others IH];
    intros first pre ds s caps k x Hc Hd Hd' Hs Hk;
    cbn [firstChoice] in Hc.
  - destruct (String.eqb_spec first pre) as [->|_].
    + now apply docket_lit.
    + now rewrite andb_false_r in Hc.
  - cbn [altsOf]. rewrite docket_alt.
    destruct (String.eqb_spec first pre) as [->|_].
    + now rewrite (docket_lit pre ds s caps k x).
    + apply andb_true_iff in Hc. destruct Hc as [Hn Hc].
      apply negb_true_iff in Hn. rewrite docket_lit_none by exact Hn.
      now apply IH.
Qed.

(** *** The whole pattern on a well-formed record *)

Lemma rmatch_Cat {A} (r1 r2 : regex) (s : string) (caps : captures)
    (k : string -> captures -> option A) :
  rmatch (Cat r1 r2) s caps k =
  rmatch r1 s caps (fun s' caps' => rmatch r2 s' caps' k).
Proof. reflexivity. Qed.

Lemma matchHere_record (first : string) (others : list string)
    (p : ascii -> bool) (r : record) (tail : string) :
  wellFormed (first :: others) p r = true ->
  firstChoice (first :: others) (r_prefix r) (render r ++ tail) = true ->
  matchHere (recordRegex (altsOf first others) p) (render r ++ tail)
  = Some (capsOf r, tail).
Proof.
  unfold wellFormed. intros H Hc.
  repeat (apply andb_true_iff in H; destruct H as [H ?]).
  unfold matchHere, recordRegex.
  change (Grp 1 (Cat (altsOf first others) (Cat (Lit "-") (Plus true isDigit))))
    with (docketRegex (altsOf first others)).
  rewrite rmatch_Cat.
  assert (E : render r ++ tail =
              r_prefix r ++ "-" ++ r_digits r
              ++ (r_gap1 r ++ r_title r ++ r_gap2 r ++ r_date r ++ tail)).
  { unfold render, docketOf. now rewrite !append_assoc. }
  rewrite E in *.
  apply docket_first_choice; try assumption.
  { apply (firstIs_exclusive _ isSpace); [apply space_not_digit|].
    now apply firstIs_append. }
  apply (after_docket p); try assumption. reflexivity.
Qed.

End Matching.

(** ** Scanning a text made of well-formed records *)

Section Scanning.

Variables (first : string) (others : list string) (p : ascii -> bool).

Let R : regex := recordRegex (altsOf first others) p.

Lemma execFrom_unfold (r : regex) (s : string) (i : nat) :
  execFrom r s i =
  match matchHere r s with
  | Some (caps, rest) =>
      Some (mkMatch i caps (i + (String.length s - String.length rest)))
  | None =>
      match s with
      | String _ s' => execFrom r s' (S i)
      | EmptyString => None
      end
  end.
Proof. destruct s; reflexivity. Qed.

Lemma matchHere_none (s : string) :
  docketHere (first :: others) s = false -> matchHere R s = None.
Proof.
  intros H. unfold matchHere, R, recordRegex. rewrite rmatch_Cat.
  now apply (docket_none others first).
Qed.

Lemma docketHere_empty (prefixes : list string) :
  docketHere prefixes "" = false.
Proof.
  unfold docketHere. induction prefixes as [|q l IH]; [reflexivity|].
  cbn [existsb]. rewrite IH, orb_false_r.
  rewrite stripPrefix_append_pat. destruct q; reflexivity.
Qed.

(** The scan passes a separator in which no docket begins. *)
Lemma execFrom_sep (next : string) :
  forall (sep : string) (i : nat),
    noDocketStart (first :: others) sep next = true ->
    execFrom R (sep ++ next) i = execFrom R next (i + String.length sep).
Proof.
  induction sep as [|c sep IH]; intros i H.
  - simpl. now rewrite Nat.add_0_r.
  - cbn [noDocketStart] in H. apply andb_true_iff in H.
    destruct H as [Hn H]. apply negb_true_iff in Hn.
    change (String c sep ++ next) with (String c (sep ++ next)) in *.
    rewrite execFrom_unfold, (matchHere_none _ Hn).
    rewrite (IH _ H). f_equal. simpl. lia.
Qed.

(** The scan finds nothing in a tail in which no docket begins. *)
Lemma execFrom_tail :
  forall (tail : string) (i : nat),
    noDocketStart (first :: others) tail "" = true ->
    execFrom R tail i = None.
Proof.
  induction tail as [|c tail IH]; intros i H.
  - rewrite execFrom_unfold, matchHere_none; [reflexivity|].
    apply docketHere_empty.
  - cbn [noDocketStart] in H. apply andb_true_iff in H.
    destruct H as [Hn H]. apply negb_true_iff in Hn.
    rewrite append_nil_r in Hn.
    rewrite execFrom_unfold, (matchHere_none _ Hn). now apply IH.
Qed.

Variable body : rxMatch -> list entry -> list entry.
Variable mk : nat -> record -> entry.

Lemma execFrom_record (r : record) (tail : string) (i : nat) :
  goodRecord R body mk r ->
  execFrom R (render r ++ tail) i
  = Some (mkMatch i (capsOf r) (i + String.length (render r))).
Proof.
  intros [Hm _]. rewrite execFrom_unfold, Hm.
  now rewrite length_append, Nat.add_sub.
Qed.

(** The loop over a text of records pushes one entry for each record, in
    the order of the text. *)
Lemma whileExec_layout (tail : string) :
  forall (items : list (string * record)) (done : string)
         (entries : list entry) (fuel : nat),
    List.length items < fuel ->
    sepsClear (first :: others) items tail = true ->
    (forall it, In it items -> goodRecord R body mk (snd it)) ->
    exists new,
      whileExec fuel R (done ++ layout items tail) body (String.length done)
        entries
      = Some (0, (entries ++ new)%list)
      /\ Forall2 (fun e it => exists idx, e = mk idx (snd it)) new items.
Proof.
  induction items as [|[sep r] items IH]; intros done entries fuel Hf Hs Hg;
    (destruct fuel as [|fuel]; [inversion Hf|]); cbn [whileExec]; unfold exec;
    rewrite drop_length_append;
    (replace (String.length (done ++ _) <? String.length done) with false
       by (symmetry; apply Nat.ltb_ge; rewrite length_append; lia)).
  - cbn [layout sepsClear] in *. rewrite (execFrom_tail _ _ Hs).
    exists []. rewrite app_nil_r. split; [reflexivity | constructor].
  - cbn [layout sepsClear] in *. apply andb_true_iff in Hs.
    destruct Hs as [Hsep Hs].
    assert (Hr : goodRecord R body mk r) by (apply (Hg (sep, r)); now left).
    rewrite (execFrom_sep _ _ _ Hsep), (execFrom_record _ _ _ Hr).
    cbn [m_end]. rewrite (proj2 Hr).
    destruct (IH (done ++ sep ++ render r)
                 (entries ++ [mk (String.length done + String.length sep) r])%list
                 fuel) as (new & Hw & Hall).
    + simpl in Hf. lia.
    + exact Hs.
    + intros it Hit. apply Hg. now right.
    + rewrite !length_append, !append_assoc, Nat.add_assoc in Hw.
      exists (mk (String.length done + String.length sep) r :: new).
      rewrite Hw, <- app_assoc. split; [reflexivity|].
      constructor; [now eexists | exact Hall].
Qed.

(** The same for the loop as the extractors run it: from index 0, with the
    fuel of the extractors. *)
Lemma whileExec_layout_0 (items : list (string * record)) (tail : string) :
  0 < minLen R ->
  sepsClear (first :: others) items tail = true ->
  (forall it, In it items -> goodRecord R body mk (snd it)) ->
  exists new,
    whileExec (S (String.length (layout items tail))) R (layout items tail)
      body 0 []
    = Some (0, new)
    /\ Forall2 (fun e it => exists idx, e = mk idx (snd it)) new items.
Proof.
  intros Hmin Hs Hg.
  destruct (whileExec_layout tail items "" [] (S (List.length items)))
    as (new & Hw & Hall); try assumption; [lia|].
  destruct (whileExec_total R (layout items tail) body Hmin
              (S (String.length (layout items tail))) 0 [])
    as (st' & Ht); [lia|].
  exists new. split; [|exact Hall].
  rewrite Ht. f_equal.
  change ("" ++ layout items tail) with (layout items tail) in Hw.
  change (String.length "") with 0 in Hw.
  change ([] ++ new)%list with new in Hw.
  assert (E := whileExec_fuel_any _ _ _ _ _ _ _ _ _ Ht Hw).
  now injection E.
Qed.

End Scanning.

(** ** Texts of well-formed records in the two paths *)

Section WellFormedTexts.

Lemma wellFormed_parts (prefixes : list string) (p : ascii -> bool)
    (r : record) :
  wellFormed prefixes p r = true ->
  existsb (String.eqb (r_prefix r)) prefixes = true
  /\ firstIs isDigit (r_digits r) = true.
Proof.
  unfold wellFormed. intros H.
  repeat (apply andb_true_iff in H; destruct H as [H ?]). now split.
Qed.

Lemma firstChoice_html (p : ascii -> bool) (r : record) (tail : string) :
  wellFormed htmlPrefixes p r = true ->
  firstChoice htmlPrefixes (r_prefix r) (render r ++ tail) = true.
Proof.
  intros H. apply wellFormed_parts in H. destruct H as [Hp _].
  unfold htmlPrefixes in *. cbn [existsb] in Hp.
  repeat (apply orb_true_iff in Hp; destruct Hp as [Hp|Hp]);
    try discriminate; apply String.eqb_eq in Hp;
    unfold render, docketOf; rewrite Hp; reflexivity.
Qed.


Lemma goodRecord_html (rawText : string) (r : record) :
  wellFormed htmlPrefixes isDot r = true ->
  goodRecord Html.pattern (Html.body rawText) (htmlEntryOf rawText) r.
Proof.
  intros H. split.
  - intros tail. rewrite pattern_scheme.
    apply (matchHere_record "MC" ["FF"; "MX"]); [exact H|].
    now apply (firstChoice_html isDot).
  - intros idx e es. reflexivity.
Qed.



(** The HTML path on a text of well-formed records. *)
Lemma html_extract_layout (items : list (string * record)) (tail : string) :
  (forall it, In it items -> wellFormed htmlPrefixes isDot (snd it) = true) ->
  sepsClear htmlPrefixes items tail = true ->
  exists entries,
    Html.extract (layout items tail) = Some entries
    /\ Forall2 (fun e it =>
                  exists idx,
                    e = htmlEntryOf (layout items tail) idx (snd it))
               entries items.
Proof.
  intros Hwf Hs. unfold Html.extract. rewrite pattern_scheme.
  destruct (whileExec_layout_0 "MC" ["FF"; "MX"] isDot
              (Html.body (layout items tail))
              (htmlEntryOf (layout items tail)) items tail)
    as (new & Hw & Hall).
  - rewrite <- pattern_scheme. exact minLen_pattern.
  - exact Hs.
  - intros it Hit. rewrite <- pattern_scheme.
    apply goodRecord_html. now apply Hwf.
  - rewrite Hw. now exists new.
Qed.









End WellFormedTexts.




(** ** The composite docket MX-MC *)

Section CompositeDocket.














End CompositeDocket.



(** * More properties of the code *)

(** ** Normalisation of white space *)

Section Normalisation.

Lemma collapseFrom_dropWhile (s : string) :
  forall b, dropWhile isSpace (collapseFrom b s)
            = collapseFrom false (dropWhile isSpace s).
Proof.
  induction s as [|c s IH]; intros b; [reflexivity|].
  cbn [collapseFrom dropWhile]. destruct (isSpace c) eqn:E.
  - destruct b; [apply IH|]. cbn [dropWhile].
    change (isSpace " ") with true. cbv iota. apply IH.
  - cbn [dropWhile collapseFrom]. now rewrite E.
Qed.

Lemma trimEnd_cons_notSpace (c : ascii) (s : string) :
  isSpace c = false -> trimEnd (String c s) = String c (trimEnd s).
Proof. intros E. cbn [trimEnd]. rewrite E. now destruct (trimEnd s). Qed.

Lemma trimEnd_cons_nonempty (c : ascii) (s : string) :
  trimEnd s <> "" -> trimEnd (String c s) = String c (trimEnd s).
Proof. intros H. cbn [trimEnd]. destruct (trimEnd s); [now elim H | reflexivity]. Qed.

Lemma trimEnd_cons_space_empty (c : ascii) (s : string) :
  isSpace c = true -> trimEnd s = "" -> trimEnd (String c s) = "".
Proof. intros E H. cbn [trimEnd]. now rewrite H, E. Qed.

(** A string with a character that is not white space does not collapse,
    nor trim, to the empty string. *)
Lemma trimEnd_nonempty_collapse (s : string) :
  trimEnd s <> "" -> forall b, trimEnd (collapseFrom b s) <> "".
Proof.
  induction s as [|c s IH]; intros H b; [now elim H|].
  cbn [collapseFrom]. destruct (isSpace c) eqn:E.
  - assert (Hs : trimEnd s <> "").
    { intros Hs. apply H. now apply trimEnd_cons_space_empty. }
    destruct b; [now apply IH|].
    rewrite trimEnd_cons_nonempty by now apply IH. discriminate.
  - rewrite trimEnd_cons_notSpace by exact E. discriminate.
Qed.

Lemma collapseFrom_trimEnd (s : string) :
  forall b, trimEnd (collapseFrom b s) = collapseFrom b (trimEnd s).
Proof.
  induction s as [|c s IH]; intros b; [reflexivity|].
  cbn [collapseFrom]. destruct (isSpace c) eqn:E.
  - destruct (string_dec (trimEnd s) "") as [Hs|Hs].
    + rewrite (trimEnd_cons_space_empty c s E Hs).
      assert (Ht : trimEnd (collapseFrom true s) = "")
        by (now rewrite IH, Hs).
      destruct b; [exact Ht|].
      now apply trimEnd_cons_space_empty.
    + rewrite (trimEnd_cons_nonempty c s Hs). cbn [collapseFrom]. rewrite E.
      destruct b; [apply IH|].
      rewrite trimEnd_cons_nonempty by now apply trimEnd_nonempty_collapse.
      now rewrite IH.
  - rewrite !trimEnd_cons_notSpace by exact E. cbn [collapseFrom].
    now rewrite E, IH.
Qed.

(** Trimming and collapsing commute. *)
Lemma trim_collapseSpaces (s : string) :
  trim (collapseSpaces s) = collapseSpaces (trim s).
Proof.
  unfold trim, collapseSpaces.
  now rewrite collapseFrom_dropWhile, collapseFrom_trimEnd.
Qed.

Lemma collapseFrom_replaceNewlines (s : string) :
  forall b, collapseFrom b (replaceNewlines s) = collapseFrom b s.
Proof.
  induction s as [|c s IH]; intros b; [reflexivity|].
  cbn [replaceNewlines collapseFrom].
  destruct (Ascii.eqb_spec c "010"%char) as [->|_].
  - change (isSpace " ") with true. change (isSpace "010") with true.
    cbv iota. now rewrite IH.
  - now rewrite !IH.
Qed.

Lemma collapseFrom_idempotent (s : string) :
  forall b, collapseFrom b (collapseFrom b s) = collapseFrom b s.
Proof.
  induction s as [|c s IH]; intros b; [reflexivity|].
  cbn [collapseFrom]. destruct (isSpace c) eqn:E.
  - destruct b; [apply IH|]. cbn [collapseFrom].
    change (isSpace " ") with true. cbv iota. now rewrite IH.
  - cbn [collapseFrom]. now rewrite E, IH.
Qed.

Lemma trimEnd_idempotent (s : string) : trimEnd (trimEnd s) = trimEnd s.
Proof.
  induction s as [|c s IH]; [reflexivity|].
  destruct (string_dec (trimEnd s) "") as [Hs|Hs].
  - cbn [trimEnd]. rewrite Hs. destruct (isSpace c) eqn:E; [reflexivity|].
    cbn [trimEnd]. now rewrite E.
  - rewrite (trimEnd_cons_nonempty c s Hs).
    rewrite trimEnd_cons_nonempty by now rewrite IH. now rewrite IH.
Qed.

Lemma firstIs_trimEnd (s : string) :
  firstIs isSpace s = false -> firstIs isSpace (trimEnd s) = false.
Proof.
  destruct s as [|c s]; [reflexivity|]. simpl. intros E.
  destruct (trimEnd s); [now rewrite E | exact E].
Qed.

Lemma firstIs_dropWhile (s : string) :
  firstIs isSpace (dropWhile isSpace s) = false.
Proof.
  induction s as [|c s IH]; [reflexivity|]. cbn [dropWhile].
  destruct (isSpace c) eqn:E; [exact IH | simpl; exact E].
Qed.

Lemma dropWhile_firstIs (s : string) :
  firstIs isSpace s = false -> dropWhile isSpace s = s.
Proof. destruct s as [|c s]; [reflexivity|]. simpl. now intros ->. Qed.

Lemma trim_idempotent (s : string) : trim (trim s) = trim s.
Proof.
  unfold trim. rewrite (dropWhile_firstIs (trimEnd _)).
  - apply trimEnd_idempotent.
  - apply firstIs_trimEnd, firstIs_dropWhile.
Qed.

(** The normal form: what [trim] and the collapse of white space give. *)
Lemma collapseFrom_singleSpaced (s : string) :
  forall b, singleSpaced b (collapseFrom b s) = true.
Proof.
  induction s as [|c s IH]; intros b; [reflexivity|].
  cbn [collapseFrom]. destruct (isSpace c) eqn:E.
  - destruct b; [apply IH|]. cbn [singleSpaced].
    change (isSpace " ") with true. cbv iota. now rewrite IH.
  - cbn [singleSpaced]. now rewrite E, IH.
Qed.

Lemma singleSpaced_weaken (s : string) (b : bool) :
  singleSpaced b s = true -> singleSpaced false s = true.
Proof.
  destruct s as [|c s]; [reflexivity|]. cbn [singleSpaced].
  destruct (isSpace c); [|auto]. destruct b; [discriminate | auto].
Qed.

Lemma singleSpaced_dropWhile (s : string) (b b' : bool) :
  singleSpaced b s = true -> singleSpaced b' (dropWhile isSpace s) = true.
Proof.
  revert b. induction s as [|c s IH]; intros b H; [reflexivity|].
  cbn [dropWhile]. cbn [singleSpaced] in H. destruct (isSpace c) eqn:E.
  - apply andb_true_iff in H. destruct H as [_ H]. now apply (IH true).
  - cbn [singleSpaced]. now rewrite E.
Qed.

Lemma singleSpaced_trimEnd (s : string) :
  forall b, singleSpaced b s = true -> singleSpaced b (trimEnd s) = true.
Proof.
  induction s as [|c s IH]; intros b H; [reflexivity|].
  cbn [singleSpaced] in H. cbn [trimEnd]. destruct (isSpace c) eqn:E.
  - apply andb_true_iff in H. destruct H as [H1 H2].
    specialize (IH true H2).
    destruct (trimEnd s) as [|d t]; [reflexivity|].
    cbn [singleSpaced] in *. now rewrite E, H1, IH.
  - specialize (IH false H).
    destruct (trimEnd s) as [|d t]; cbn [singleSpaced] in *; now rewrite E.
Qed.

Lemma lastIs_trimEnd (s : string) : lastIs isSpace (trimEnd s) = false.
Proof.
  induction s as [|c s IH]; [reflexivity|]. cbn [trimEnd].
  destruct (trimEnd s) as [|d t].
  - destruct (isSpace c) eqn:E; [reflexivity | simpl; exact E].
  - exact IH.
Qed.

Lemma singleSpaced_no_double (s : string) :
  forall b, singleSpaced b s = true -> includes s "  " = false.
Proof.
  induction s as [|c s IH]; intros b H; [reflexivity|].
  cbn [singleSpaced] in H. cbn [includes]. apply orb_false_iff.
  destruct (isSpace c) eqn:E.
  - apply andb_true_iff in H. destruct H as [H1 H2]. split; [|now apply (IH true)].
    cbn [startsWith]. destruct s as [|d s]; [now rewrite andb_false_r|].
    cbn [singleSpaced] in H2. cbn [startsWith].
    destruct (Ascii.eqb_spec " " d) as [<-|_]; [|now rewrite andb_false_r].
    change (isSpace " ") with true in H2. discriminate.
  - split; [|now apply (IH false)].
    cbn [startsWith]. destruct (Ascii.eqb_spec " " c) as [<-|_]; [|reflexivity].
    discriminate.
Qed.

Lemma singleSpaced_only_spaces (s : string) :
  forall b, singleSpaced b s = true ->
            allChars (fun c => negb (isSpace c) || Ascii.eqb c " ") s = true.
Proof.
  induction s as [|c s IH]; intros b H; [reflexivity|].
  cbn [singleSpaced] in H. cbn [allChars]. destruct (isSpace c) eqn:E.
  - apply andb_true_iff in H. destruct H as [H1 H2].
    apply andb_true_iff in H1. destruct H1 as [_ H1].
    rewrite H1. simpl. now apply (IH true).
  - simpl. now apply (IH false).
Qed.

Lemma normal_form (s : string) :
  firstIs isSpace (trim (collapseSpaces s)) = false
  /\ lastIs isSpace (trim (collapseSpaces s)) = false
  /\ singleSpaced false (trim (collapseSpaces s)) = true.
Proof.
  unfold trim. split; [|split].
  - apply firstIs_trimEnd, firstIs_dropWhile.
  - apply lastIs_trimEnd.
  - apply singleSpaced_trimEnd.
    apply (singleSpaced_dropWhile _ false), collapseFrom_singleSpaced.
Qed.

Lemma cleanText_some (t : string) :
  Server.cleanText (Some t) = trim (collapseSpaces (Server.replaceNbsp t)).
Proof. destruct t; reflexivity. Qed.

Lemma replaceNbsp_noNbsp (s : string) : noNbsp (Server.replaceNbsp s) = true.
Proof.
  unfold noNbsp. induction s as [|c s IH]; [reflexivity|].
  cbn [Server.replaceNbsp allChars]. rewrite IH, andb_true_r.
  destruct (Nat.eqb (nat_of_ascii c) 160) eqn:E; [reflexivity | now rewrite E].
Qed.

Lemma replaceNbsp_id (s : string) :
  noNbsp s = true -> Server.replaceNbsp s = s.
Proof.
  unfold noNbsp. induction s as [|c s IH]; [reflexivity|].
  cbn [Server.replaceNbsp allChars]. intros H.
  apply andb_true_iff in H. destruct H as [Hc Hs].
  apply negb_true_iff in Hc. now rewrite Hc, IH.
Qed.

Lemma noNbsp_collapseFrom (s : string) :
  forall b, noNbsp s = true -> noNbsp (collapseFrom b s) = true.
Proof.
  unfold noNbsp. induction s as [|c s IH]; intros b H; [reflexivity|].
  cbn [allChars] in H. apply andb_true_iff in H. destruct H as [Hc Hs].
  cbn [collapseFrom]. destruct (isSpace c).
  - destruct b; [now apply IH|]. cbn [allChars]. now rewrite IH.
  - cbn [allChars]. now rewrite Hc, IH.
Qed.

Lemma noNbsp_dropWhile (s : string) :
  noNbsp s = true -> noNbsp (dropWhile isSpace s) = true.
Proof.
  unfold noNbsp. induction s as [|c s IH]; intros H; [reflexivity|].
  cbn [dropWhile]. destruct (isSpace c); [|exact H].
  cbn [allChars] in H. apply andb_true_iff in H. now apply IH.
Qed.

Lemma noNbsp_trimEnd (s : string) :
  noNbsp s = true -> noNbsp (trimEnd s) = true.
Proof.
  unfold noNbsp. induction s as [|c s IH]; intros H; [reflexivity|].
  cbn [allChars] in H. apply andb_true_iff in H. destruct H as [Hc Hs].
  specialize (IH Hs). cbn [trimEnd]. destruct (trimEnd s) as [|d t].
  - destruct (isSpace c); [reflexivity | cbn [allChars]; now rewrite Hc].
  - cbn [allChars] in *. now rewrite Hc, IH.
Qed.

Lemma cleanText_noNbsp (text : option string) :
  noNbsp (Server.cleanText text) = true.
Proof.
  destruct text as [t|]; [|reflexivity]. rewrite cleanText_some.
  unfold trim, collapseSpaces.
  apply noNbsp_trimEnd, noNbsp_dropWhile, noNbsp_collapseFrom,
    replaceNbsp_noNbsp.
Qed.

End Normalisation.

(** X1. [cleanText] is idempotent: cleaning a cleaned text changes
    nothing. *)
Theorem X1_cleanText_idempotent :
  forall text : option string,
    Server.cleanText (Some (Server.cleanText text)) = Server.cleanText text.
Proof.
  intros text. rewrite (cleanText_some (Server.cleanText text)).
  rewrite (replaceNbsp_id _ (cleanText_noNbsp text)).
  destruct text as [t|]; [|reflexivity]. rewrite cleanText_some.
  rewrite (trim_collapseSpaces (trim _)), trim_idempotent.
  rewrite <- trim_collapseSpaces. unfold collapseSpaces.
  now rewrite collapseFrom_idempotent.
Qed.

(** X2. The result of [cleanText] is in normal form: it neither begins nor
    ends with white space, its only white-space characters are single
    spaces (no tab, no line break, no two spaces in a row), and it holds no
    no-break space. *)
Theorem X2_cleanText_normal_form :
  forall text : option string,
    firstIs isSpace (Server.cleanText text) = false
    /\ lastIs isSpace (Server.cleanText text) = false
    /\ allChars (fun c => negb (isSpace c) || Ascii.eqb c " ")
         (Server.cleanText text) = true
    /\ includes (Server.cleanText text) "  " = false
    /\ noNbsp (Server.cleanText text) = true.
Proof.
  intros text. split; [|split; [|split; [|split]]];
    try apply cleanText_noNbsp;
    (destruct text as [t|]; [rewrite cleanText_some | reflexivity]);
    destruct (normal_form (Server.replaceNbsp t)) as (H1 & H2 & H3);
    try assumption.
  - now apply (singleSpaced_only_spaces _ false).
  - now apply (singleSpaced_no_double _ false).
Qed.

(** X3. The two paths normalise a title to the same string: trimming and
    then collapsing the white space (HTML path) gives what replacing the
    line feeds, collapsing and then trimming gives (PDF path).  That string
    is in the normal form of X2. *)
Theorem X3_title_normalisations_agree :
  forall raw : string,
    collapseSpaces (trim raw) = Pdf.normTitle raw
    /\ firstIs isSpace (Pdf.normTitle raw) = false
    /\ lastIs isSpace (Pdf.normTitle raw) = false
    /\ includes (Pdf.normTitle raw) "  " = false
    /\ allChars (fun c => negb (isSpace c) || Ascii.eqb c " ")
         (Pdf.normTitle raw) = true.
Proof.
  intros raw.
  assert (E : Pdf.normTitle raw = trim (collapseSpaces raw)).
  { unfold Pdf.normTitle, collapseSpaces.
    now rewrite collapseFrom_replaceNewlines. }
  rewrite E. destruct (normal_form raw) as (H1 & H2 & H3).
  split; [symmetry; apply trim_collapseSpaces|].
  split; [exact H1|]. split; [exact H2|]. split.
  - now apply (singleSpaced_no_double _ false).
  - now apply (singleSpaced_only_spaces _ false).
Qed.

(** ** The decoder of protected e-mail addresses *)

Section EmailDecoder.

Lemma In_bytes256 (n : N) : (n < 256)%N -> In n bytes256.
Proof.
  intros H. unfold bytes256. apply in_map_iff. exists (N.to_nat n).
  split; [apply N2Nat.id|]. apply in_seq. lia.
Qed.

Lemma parseInt16_hex2 (n : N) :
  (n < 256)%N -> Server.parseInt16 (hex2 n) = Some (Z.of_N n).
Proof.
  intros H.
  assert (A : forallb (fun n => match Server.parseInt16 (hex2 n) with
                                | Some v => Z.eqb v (Z.of_N n)
                                | None => false
                                end) bytes256 = true) by (vm_compute; reflexivity).
  pose proof (proj1 (forallb_forall _ _) A n (In_bytes256 n H)) as Hn.
  cbv beta in Hn. destruct (Server.parseInt16 (hex2 n)); [|discriminate].
  apply Z.eqb_eq in Hn. now subst.
Qed.

Lemma lxor_byte (a k : N) : (a < 256)%N -> (k < 256)%N -> (N.lxor a k < 256)%N.
Proof.
  intros Ha Hk.
  assert (A : forallb (fun a => forallb (fun k => N.ltb (N.lxor a k) 256)
                                  bytes256) bytes256 = true)
    by (vm_compute; reflexivity).
  pose proof (proj1 (forallb_forall _ _) A a (In_bytes256 a Ha)) as H1.
  cbv beta in H1.
  pose proof (proj1 (forallb_forall _ _) H1 k (In_bytes256 k Hk)) as H2.
  now apply N.ltb_lt in H2.
Qed.

Lemma toInt32_byte (n : N) :
  (n < 256)%N -> Server.toInt32 (Some (Z.of_N n)) = Z.of_N n.
Proof.
  intros H. unfold Server.toInt32.
  rewrite Z.mod_small by lia. lia.
Qed.

(** One pair of digits of the encoding gives back its character. *)
Lemma decode_pair (key : N) (c : ascii) :
  (key < 256)%N ->
  Server.fromCharCode
    (Server.xorNumbers (Server.parseInt16 (hex2 (N.lxor (N_of_ascii c) key)))
                       (Some (Z.of_N key)))
  = Z.of_N (N_of_ascii c).
Proof.
  intros Hk. pose proof (N_ascii_bounded c) as Hc.
  rewrite parseInt16_hex2 by now apply lxor_byte.
  unfold Server.xorNumbers.
  rewrite !toInt32_byte by (try apply lxor_byte; assumption).
  rewrite N2Z.inj_lxor, Z.lxor_assoc, Z.lxor_nilpotent, Z.lxor_0_r.
  unfold Server.fromCharCode. apply Z.mod_small. lia.
Qed.

Lemma decodePairs_encode (key : N) (email : string) :
  (key < 256)%N ->
  Server.decodePairs (Some (Z.of_N key)) (cfEncodeBody key email)
  = codeUnits email.
Proof.
  intros Hk. induction email as [|c email IH]; [reflexivity|].
  cbn [cfEncodeBody]. unfold hex2 at 1.
  cbn [append Server.decodePairs].
  change (String (hexChar (N.lxor (N_of_ascii c) key / 16))
            (String (hexChar ((N.lxor (N_of_ascii c) key) mod 16)) ""))
    with (hex2 (N.lxor (N_of_ascii c) key)).
  rewrite decode_pair by exact Hk. rewrite IH. reflexivity.
Qed.

(** The number of code units of the result. *)
Lemma decodePairs_length (r : option Z) (s : string) :
  List.length (Server.decodePairs r s) = Nat.div2 (S (String.length s))
  /\ forall a, List.length (Server.decodePairs r (String a s))
               = Nat.div2 (S (S (String.length s))).
Proof.
  induction s as [|b s [IH1 IH2]].
  - split; [reflexivity | intros a; reflexivity].
  - split; [apply IH2|]. intros a.
    cbn [Server.decodePairs List.length String.length]. rewrite IH1.
    reflexivity.
Qed.

Lemma decodePairs_range (r : option Z) (s : string) :
  (forall u, In u (Server.decodePairs r s) -> (0 <= u < 65536)%Z)
  /\ forall a u, In u (Server.decodePairs r (String a s)) ->
                 (0 <= u < 65536)%Z.
Proof.
  assert (R : forall x, (0 <= Server.fromCharCode x < 65536)%Z)
    by (intros x; unfold Server.fromCharCode; apply Z.mod_pos_bound; lia).
  induction s as [|b s [IH1 IH2]].
  - split; [intros u []|]. intros a u [<-|[]]. apply R.
  - split; [apply IH2|]. intros a u.
    cbn [Server.decodePairs]. intros [<-|H]; [apply R | now apply IH1].
Qed.

End EmailDecoder.

(** X4. [cfDecodeEmail] undoes the encoding it is written for: from the
    key, written as two hexadecimal digits, followed by the characters of an
    address, each xor-ed with the key and written as two hexadecimal digits,
    it gives back the address, for every key below 256. *)
Theorem X4_cfDecodeEmail_round_trip :
  forall (key : N) (email : string),
    (key < 256)%N ->
    Server.cfDecodeEmail (cfEncode key email) = codeUnits email.
Proof.
  intros key email Hk. unfold Server.cfDecodeEmail, cfEncode.
  unfold hex2 at 1 2. cbn [append take drop].
  change (String (hexChar (key / 16)) (String (hexChar (key mod 16)) ""))
    with (hex2 key).
  rewrite parseInt16_hex2 by exact Hk.
  now apply decodePairs_encode.
Qed.

Lemma X4_cfDecodeEmail_round_trip_witness :
  cfEncode 42 "a@b.co" = "2a4b6a48044945"
  /\ Server.cfDecodeEmail (cfEncode 42 "a@b.co") = codeUnits "a@b.co".
Proof.
  split; [reflexivity|].
  apply X4_cfDecodeEmail_round_trip. reflexivity.
Defined.

(** X5. [cfDecodeEmail] never fails and reads its argument two characters
    at a time after the first two: the result has one code unit for every
    two characters after the key, a last single character counting for one,
    so it is empty for an argument of two characters or fewer; every code
    unit is below 65536, whatever the characters of the argument. *)
Theorem X5_cfDecodeEmail_length :
  forall encoded : string,
    List.length (Server.cfDecodeEmail encoded)
    = Nat.div2 (S (String.length encoded - 2))
    /\ (String.length encoded <= 2 -> Server.cfDecodeEmail encoded = [])
    /\ (forall u, In u (Server.cfDecodeEmail encoded) -> (0 <= u < 65536)%Z).
Proof.
  intros encoded. unfold Server.cfDecodeEmail. cbv zeta.
  assert (L : List.length (Server.decodePairs
                             (Server.parseInt16 (take 2 encoded))
                             (drop 2 encoded))
              = Nat.div2 (S (String.length encoded - 2))).
  { rewrite (proj1 (decodePairs_length _ _)), length_drop. reflexivity. }
  split; [exact L|]. split.
  - intros H. apply length_zero_iff_nil. rewrite L.
    replace (String.length encoded - 2) with 0 by lia. reflexivity.
  - apply (proj1 (decodePairs_range _ _)).
Qed.

Lemma X5_cfDecodeEmail_length_witness :
  String.length "2a" <= 2 /\ Server.cfDecodeEmail "2a" = [].
Proof.
  split; [simpl; lia|].
  apply (proj1 (proj2 (X5_cfDecodeEmail_length "2a"))). simpl. lia.
Defined.

(** ** Every match is a record *)

Section MatchSoundness.

Lemma stripPrefix_Some (l s s' : string) :
  stripPrefix l s = Some s' -> s = l ++ s'.
Proof.
  revert s. induction l as [|a l IH]; intros [|b s] H; simpl in *;
    try discriminate; try (now injection H as <-).
  destruct (Ascii.eqb_spec a b) as [<-|_]; [|discriminate].
  now rewrite (IH _ H).
Qed.

Lemma starGreedy_split {A} (p : ascii -> bool) (s : string)
    (k : string -> option A) (x : A) :
  starGreedy p s k = Some x ->
  exists a s', s = a ++ s' /\ allChars p a = true /\ k s' = Some x.
Proof.
  induction s as [|c s IH]; cbn [starGreedy]; intros H.
  - now exists "", "".
  - destruct (p c) eqn:E; [|now exists "", (String c s)].
    destruct (starGreedy p s k) as [y|] eqn:G; [|now exists "", (String c s)].
    injection H as ->. destruct (IH eq_refl) as (a & s' & -> & Ha & Hk).
    exists (String c a), s'. cbn [allChars]. now rewrite E, Ha.
Qed.

Lemma starLazy_split {A} (p : ascii -> bool) (s : string)
    (k : string -> option A) (x : A) :
  starLazy p s k = Some x ->
  exists a s', s = a ++ s' /\ allChars p a = true /\ k s' = Some x.
Proof.
  induction s as [|c s IH]; cbn [starLazy]; intros H.
  - destruct (k "") eqn:E; [|discriminate]. injection H as ->.
    now exists "", "".
  - destruct (k (String c s)) eqn:E;
      [injection H as ->; now exists "", (String c s)|].
    destruct (p c) eqn:Ec; [|discriminate].
    destruct (IH H) as (a & s' & -> & Ha & Hk).
    exists (String c a), s'. cbn [allChars]. now rewrite Ec, Ha.
Qed.

Lemma plus_split {A} (p : ascii -> bool) (s : string) (caps : captures)
    (k : string -> captures -> option A) (x : A) :
  rmatch (Plus true p) s caps k = Some x ->
  exists a s', s = a ++ s' /\ firstIs p a = true /\ allChars p a = true
               /\ k s' caps = Some x.
Proof.
  unfold Plus. cbn [rmatch]. destruct s as [|c s]; [discriminate|].
  destruct (p c) eqn:E; [|discriminate]. intros H.
  destruct (starGreedy_split _ _ _ _ H) as (a & s' & -> & Ha & Hk).
  exists (String c a), s'. cbn [allChars firstIs]. now rewrite E, Ha.
Qed.

Lemma docket_lit_split {A} (q s : string) (caps : captures)
    (k : string -> captures -> option A) (x : A) :
  rmatch (docketRegex (Lit q)) s caps k = Some x ->
  exists ds s', s = q ++ "-" ++ ds ++ s' /\ firstIs isDigit ds = true
                /\ allChars isDigit ds = true
                /\ k s' ((1, q ++ "-" ++ ds) :: caps) = Some x.
Proof.
  unfold docketRegex. cbn [rmatch].
  destruct (stripPrefix q s) as [s1|] eqn:E1; [|discriminate].
  destruct (stripPrefix "-" s1) as [s2|] eqn:E2; [|discriminate].
  apply stripPrefix_Some in E1, E2. subst s s1. intros H.
  destruct (plus_split _ _ _ _ _ H) as (ds & s' & -> & Hf & Ha & Hk).
  exists ds, s'. repeat split; try assumption.
  replace (q ++ "-" ++ ds ++ s') with ((q ++ "-" ++ ds) ++ s') in Hk
    by (now rewrite !append_assoc).
  now rewrite take_append_diff in Hk.
Qed.

Lemma docket_split {A} (others : list string) :
  forall (first s : string) (caps : captures)
         (k : string -> captures -> option A) (x : A),
    rmatch (docketRegex (altsOf first others)) s caps k = Some x ->
    exists pre ds s',
      In pre (first :: others)
      /\ s = pre ++ "-" ++ ds ++ s' /\ firstIs isDigit ds = true
      /\ allChars isDigit ds = true
      /\ k s' ((1, pre ++ "-" ++ ds) :: caps) = Some x.
Proof.
  induction others as [|second others IH]; intros first s caps k x H.
  - destruct (docket_lit_split _ _ _ _ _ H) as (ds & s' & Hs).
    exists first, ds, s'. split; [now left | exact Hs].
  - cbn [altsOf] in H. rewrite docket_alt in H.
    destruct (rmatch (docketRegex (Lit first)) s caps k) as [y|] eqn:E.
    + injection H as ->.
      destruct (docket_lit_split _ _ _ _ _ E) as (ds & s' & Hs).
      exists first, ds, s'. split; [now left | exact Hs].
    + destruct (IH _ _ _ _ _ H) as (pre & ds & s' & Hin & Hs).
      exists pre, ds, s'. split; [now right | exact Hs].
Qed.

Lemma take_drop (n : nat) (s : string) : take n s ++ drop n s = s.
Proof.
  revert s. induction n as [|n IH]; intros [|c s]; simpl;
    try reflexivity. now rewrite IH.
Qed.

Lemma hasShape_take (shape : list (ascii -> bool)) (s : string) :
  hasShape shape s = true ->
  hasShape shape (take (List.length shape) s) = true
  /\ String.length (take (List.length shape) s) = List.length shape.
Proof.
  revert s. induction shape as [|q shape IH]; intros s H; [now split|].
  destruct s as [|c s]; [discriminate|]. simpl in *.
  apply andb_true_iff in H. destruct H as [Hq H].
  destruct (IH _ H) as [H1 H2]. now rewrite Hq, H1, H2.
Qed.

Lemma date_group_split {A} (s : string) (caps : captures)
    (k : string -> captures -> option A) (x : A) :
  rmatch (Grp 3 dateRegex) s caps k = Some x ->
  exists d s', s = d ++ s' /\ isDate d = true
               /\ k s' ((3, d) :: caps) = Some x.
Proof.
  cbn [rmatch]. rewrite dateRegex_dateHere.
  destruct (dateHere s) eqn:E; [|discriminate]. intros H.
  destruct (hasShape_take _ _ E) as [H1 H2].
  change (List.length dateShape) with 10 in H1, H2.
  exists (take 10 s), (drop 10 s). split; [now rewrite take_drop|].
  split; [unfold isDate, dateHere; now rewrite H1, H2|].
  rewrite length_take in H2.
  replace (String.length s - String.length (drop 10 s)) with 10 in H
    by (rewrite length_drop; lia).
  exact H.
Qed.

Lemma title_group_split {A} (p : ascii -> bool) (s : string)
    (caps : captures) (k : string -> captures -> option A) (x : A) :
  rmatch (Grp 2 (Star false p)) s caps k = Some x ->
  exists t s', s = t ++ s' /\ allChars p t = true
               /\ k s' ((2, t) :: caps) = Some x.
Proof.
  cbn [rmatch]. intros H.
  destruct (starLazy_split _ _ _ _ H) as (t & s' & -> & Ht & Hk).
  rewrite take_append_diff in Hk. now exists t, s'.
Qed.

Lemma looseRecord_intro (prefixes : list string) (pre ds g1 t g2 d : string) :
  In pre prefixes ->
  firstIs isDigit ds = true -> allChars isDigit ds = true ->
  firstIs isSpace g1 = true -> allChars isSpace g1 = true ->
  firstIs isSpace g2 = true -> allChars isSpace g2 = true ->
  isDate d = true ->
  looseRecord prefixes (mkRecord pre ds g1 t g2 d) = true.
Proof.
  intros Hin H1 H2 H3 H4 H5 H6 H7. unfold looseRecord.
  cbn [r_prefix r_digits r_gap1 r_title r_gap2 r_date].
  rewrite H1, H2, H3, H4, H5, H6, H7, !andb_true_r.
  apply existsb_exists. exists pre. split; [exact Hin | apply String.eqb_refl].
Qed.

(** A match of the scheme of the two patterns is a record, and its groups
    are the docket, the title and the date of the record. *)
Lemma matchHere_sound (first : string) (others : list string)
    (p : ascii -> bool) (s rest : string) (caps : captures) :
  matchHere (recordRegex (altsOf first others) p) s = Some (caps, rest) ->
  exists r,
    s = render r ++ rest /\ caps = capsOf r
    /\ looseRecord (first :: others) r = true
    /\ allChars p (r_title r) = true.
Proof.
  unfold matchHere, recordRegex.
  change (Grp 1 (Cat (altsOf first others) (Cat (Lit "-") (Plus true isDigit))))
    with (docketRegex (altsOf first others)).
  rewrite rmatch_Cat. intros H.
  destruct (docket_split _ _ _ _ _ _ H)
    as (pre & ds & s1 & Hin & -> & Hd1 & Hd2 & H1).
  rewrite rmatch_Cat in H1.
  destruct (plus_split _ _ _ _ _ H1) as (g1 & s2 & -> & Hg1 & Hg1' & H2).
  rewrite rmatch_Cat in H2.
  destruct (title_group_split _ _ _ _ _ H2) as (t & s3 & -> & Ht & H3).
  rewrite rmatch_Cat in H3.
  destruct (plus_split _ _ _ _ _ H3) as (g2 & s4 & -> & Hg2 & Hg2' & H4).
  destruct (date_group_split _ _ _ _ H4) as (d & s5 & -> & Hdt & H5).
  injection H5 as <- <-.
  exists (mkRecord pre ds g1 t g2 d).
  split; [unfold render, docketOf; cbn; now rewrite !append_assoc|].
  split; [reflexivity|]. split; [now apply looseRecord_intro | exact Ht].
Qed.

Lemma match_at_start (first : string) (others : list string)
    (p : ascii -> bool) (s rest : string) (caps : captures) (i : nat) :
  matchHere (recordRegex (altsOf first others) p) s = Some (caps, rest) ->
  exists skipped r rest',
    s = skipped ++ render r ++ rest'
    /\ mkMatch i caps (i + (String.length s - String.length rest))
       = mkMatch (i + String.length skipped) (capsOf r)
                 (i + String.length skipped + String.length (render r))
    /\ looseRecord (first :: others) r = true
    /\ allChars p (r_title r) = true.
Proof.
  intros E.
  destruct (matchHere_sound _ _ _ _ _ _ E) as (r & -> & -> & Hl & Ht).
  exists "", r, rest. rewrite length_append, Nat.add_sub.
  change (String.length "") with 0. rewrite Nat.add_0_r.
  now repeat split.
Qed.

Lemma execFrom_sound (first : string) (others : list string)
    (p : ascii -> bool) :
  forall (s : string) (i : nat) (m : rxMatch),
    execFrom (recordRegex (altsOf first others) p) s i = Some m ->
    exists skipped r rest,
      s = skipped ++ render r ++ rest
      /\ m = mkMatch (i + String.length skipped) (capsOf r)
                     (i + String.length skipped + String.length (render r))
      /\ looseRecord (first :: others) r = true
      /\ allChars p (r_title r) = true.
Proof.
  induction s as [|c s IH]; intros i m H; rewrite execFrom_unfold in H;
    destruct (matchHere _ _) as [[caps rest]|] eqn:E; try discriminate.
  - destruct (match_at_start _ _ _ _ _ _ i E)
      as (sk & r & rest' & Hs & Hm & Hl & Ht).
    exists sk, r, rest'. split; [exact Hs|]. split; [|now split].
    rewrite <- Hm. symmetry. injection H as H'. exact H'.
  - destruct (match_at_start _ _ _ _ _ _ i E)
      as (sk & r & rest' & Hs & Hm & Hl & Ht).
    exists sk, r, rest'. split; [exact Hs|]. split; [|now split].
    rewrite <- Hm. symmetry. injection H as H'. exact H'.
  - destruct (IH _ _ H) as (skipped & r & rest & -> & -> & Hl & Ht).
    exists (String c skipped), r, rest.
    change (String.length (String c skipped)) with (S (String.length skipped)).
    repeat split; try assumption. f_equal; lia.
Qed.

(** What [exec] finds is a record that stands in the text, at
    [match.index]. *)
Lemma exec_sound (first : string) (others : list string) (p : ascii -> bool)
    (text : string) (li li' : nat) (m : rxMatch) :
  exec (recordRegex (altsOf first others) p) text li = (Some m, li') ->
  exists before r after,
    text = before ++ render r ++ after
    /\ m_index m = String.length before
    /\ m_groups m = capsOf r
    /\ looseRecord (first :: others) r = true
    /\ allChars p (r_title r) = true.
Proof.
  unfold exec. destruct (String.length text <? li) eqn:E; [discriminate|].
  apply Nat.ltb_ge in E.
  destruct (execFrom _ _ _) as [m'|] eqn:F; [|discriminate].
  intros H. injection H as <- _.
  destruct (execFrom_sound _ _ _ _ _ _ F)
    as (skipped & r & rest & Hs & -> & Hl & Ht).
  exists (take li text ++ skipped), r, rest.
  split; [|split; [|split; [reflexivity | now split]]].
  - rewrite append_assoc, <- Hs. symmetry. apply take_drop.
  - cbn [m_index]. rewrite length_append, length_take. f_equal. lia.
Qed.

Lemma group_capsOf (r : record) :
  group 1 (capsOf r) = docketOf r
  /\ group 2 (capsOf r) = r_title r
  /\ group 3 (capsOf r) = r_date r.
Proof. repeat split. Qed.

Lemma last_In_or_default {X} (l : list X) (d : X) :
  In (last l d) (d :: l).
Proof.
  induction l as [|a l IH]; [now left|].
  destruct l as [|b l]; [right; now left|].
  change (last (a :: b :: l) d) with (last (b :: l) d).
  destruct IH as [IH|IH]; [now left | right; now right].
Qed.

Lemma categoryOf_known (w : list Z) :
  In (Html.categoryOf w) ("MISCELLANEOUS" :: keywords).
Proof.
  rewrite categoryOf_lastKeywordFound. unfold lastKeywordFound.
  destruct (last_In_or_default
              (filter (fun kw => includesUnits w (codeUnits kw)) keywords)
              "MISCELLANEOUS") as [H|H]; [now left|].
  right. now apply filter_In in H.
Qed.

Lemma looseRecord_date (prefixes : list string) (r : record) :
  looseRecord prefixes r = true -> isDate (r_date r) = true.
Proof. unfold looseRecord. intros H. now apply andb_true_iff in H. Qed.

(** The entries of the HTML path are records of the text. *)
Lemma html_extract_sound :
  forall rawText : string,
    exists entries,
      Html.extract rawText = Some entries
      /\ forall e, In e entries ->
           fromRecord htmlPrefixes isDot (fun t => collapseSpaces (trim t))
             rawText e
           /\ isDate (decided e) = true
           /\ In (category e) ("MISCELLANEOUS" :: keywords).
Proof.
  intros rawText. destruct (html_extract_total rawText) as (entries & E).
  exists entries. split; [exact E|].
  unfold Html.extract in E.
  destruct (whileExec _ _ _ _ _ _) as [[li es]|] eqn:W; [|discriminate].
  injection E as <-.
  apply (whileExec_invariant _ _ _
           (fun es => forall e, In e es ->
              fromRecord htmlPrefixes isDot (fun t => collapseSpaces (trim t))
                rawText e
              /\ isDate (decided e) = true
              /\ In (category e) ("MISCELLANEOUS" :: keywords))) in W.
  - exact (proj1 W).
  - intros m l1 l2 st Hex Hst e He. unfold Html.body in He.
    apply in_app_iff in He. destruct He as [He|[<-|[]]]; [now apply Hst|].
    rewrite pattern_scheme in Hex.
    destruct (exec_sound _ _ _ _ _ _ _ Hex)
      as (before & r & after & Ht & Hi & Hg & Hl & Hp).
    rewrite Hg. cbn [number title decided category].
    destruct (group_capsOf r) as (-> & -> & ->).
    split; [|split].
    + exists before, r, after. repeat split; assumption.
    + now apply (looseRecord_date htmlPrefixes).
    + apply categoryOf_known.
  - intros e [].
Qed.

End MatchSoundness.

(** X6. Every entry that the HTML path extracts, and so every entry that
    deduplication keeps, comes from a record that stands in the text: its
    number is a docket MC-, FF- or MX- followed by digits only, its decided
    date has the shape dd/dd/dddd, its title is the normalised title of the
    record, and its category is one of the eight keywords or MISCELLANEOUS.
    The extraction ends on every text. *)
Theorem X6_html_entries_are_records :
  forall rawText : string,
    exists entries,
      Html.extract rawText = Some entries
      /\ forall e, In e entries \/ In e (uniqueEntries entries) ->
           fromRecord htmlPrefixes isDot (fun t => collapseSpaces (trim t))
             rawText e
           /\ isDate (decided e) = true
           /\ In (category e) ("MISCELLANEOUS" :: keywords).
Proof.
  intros rawText.
  destruct (html_extract_sound rawText) as (entries & E & H).
  exists entries. split; [exact E|].
  intros e [He|He]; [now apply H|].
  apply H. now apply uniqueEntries_In.
Qed.

(** ** The entries of the PDF path are records *)

Section PdfSoundness.

Lemma acceptedIn_fromRecord (fullText : string) (cur : Pdf.section)
    (nxt : option Pdf.section) (e : entry) :
  acceptedIn fullText cur nxt e ->
  fromRecord pdfPrefixes isAny Pdf.normTitle fullText e
  /\ isDate (decided e) = true
  /\ category e = Pdf.name cur
  /\ 0 < String.length (title e) < 500.
Proof.
  intros (Hfound & _ & (n & Hshape) & m & li & li' & Hex & -> & Hlen).
  rewrite recordPattern_scheme in Hex.
  destruct (exec_sound _ _ _ _ _ _ _ Hex)
    as (before & r & after & Ht & Hi & Hg & Hl & Hp).
  unfold pdfEntryOf in *. rewrite Hg in *.
  destruct (group_capsOf r) as (E1 & E2 & E3). rewrite E1, E2, E3 in *.
  cbn [number title decided category] in *.
  split; [|split; [now apply (looseRecord_date pdfPrefixes) | now split]].
  exists (take (Z.to_nat (indexOf fullText (Pdf.header cur) 0)) fullText
          ++ before), r,
         (after ++ drop n (drop (Z.to_nat (indexOf fullText (Pdf.header cur) 0))
                                fullText)).
  split; [|now repeat split].
  rewrite <- (take_drop (Z.to_nat (indexOf fullText (Pdf.header cur) 0))
                fullText) at 1.
  rewrite <- (take_drop n (drop _ fullText)) at 1.
  rewrite <- Hshape, Ht. now rewrite !append_assoc.
Qed.

Lemma section_names_not_miscellaneous (cur : Pdf.section) :
  In cur Pdf.sections -> Pdf.name cur <> "MISCELLANEOUS".
Proof.
  unfold Pdf.sections. simpl.
  intros H; repeat (destruct H as [<-|H]); try discriminate. destruct H.
Qed.

(** The entries of the loop over the sections. *)
Lemma pdf_extract_sound (fullText : string) :
  exists entries,
    Pdf.extract fullText = Some entries
    /\ forall e, In e entries ->
         fromRecord pdfPrefixes isAny Pdf.normTitle fullText e
         /\ isDate (decided e) = true
         /\ In (category e) (map Pdf.name Pdf.sections)
         /\ 0 < String.length (title e) < 500.
Proof.
  destruct (extract_provenance fullText) as (entries & E & Hprov).
  exists entries. split; [exact E|]. intros e He.
  destruct (Hprov e He) as (cur & nxt & Hf & Ha).
  destruct (acceptedIn_fromRecord _ _ _ _ Ha) as (H1 & H2 & H3 & H4).
  repeat split; try assumption; try apply H4.
  rewrite H3. apply in_map. now apply followedBy_In in Hf.
Qed.

(** The entries of the fallback loop. *)
Lemma fallback_sound (fullText : string) (fuel li li' : nat)
    (es : list entry) :
  whileExec fuel Pdf.recordPattern fullText Pdf.fallbackBody li []
  = Some (li', es) ->
  forall e, In e es ->
    fromRecord pdfPrefixes isAny Pdf.normTitle fullText e
    /\ isDate (decided e) = true
    /\ category e = "MISCELLANEOUS".
Proof.
  intros W.
  apply (whileExec_invariant _ _ _
           (fun es => forall e, In e es ->
              fromRecord pdfPrefixes isAny Pdf.normTitle fullText e
              /\ isDate (decided e) = true
              /\ category e = "MISCELLANEOUS")) in W.
  - exact (proj1 W).
  - intros m l1 l2 st Hex Hst e He. unfold Pdf.fallbackBody in He.
    apply in_app_iff in He. destruct He as [He|[<-|[]]]; [now apply Hst|].
    rewrite recordPattern_scheme in Hex.
    destruct (exec_sound _ _ _ _ _ _ _ Hex)
      as (before & r & after & Ht & Hi & Hg & Hl & Hp).
    rewrite Hg. cbn [number title decided category].
    destruct (group_capsOf r) as (-> & -> & ->).
    split; [|split; [now apply (looseRecord_date pdfPrefixes) | reflexivity]].
    exists before, r, after. now repeat split.
  - intros e [].
Qed.

End PdfSoundness.

(** X7. Every entry that the PDF path extracts comes from a record that
    stands in the text: its number is a docket MC-, FF-, MX- or MX-MC-
    followed by digits only, its decided date has the shape dd/dd/dddd, its
    title is the normalised title of the record and has 1 to 499
    characters, and its category is the name of one of the eight sections,
    never MISCELLANEOUS.  The extraction ends on every text. *)
Theorem X7_pdf_entries_are_records :
  forall fullText : string,
    exists entries,
      Pdf.extract fullText = Some entries
      /\ forall e, In e entries \/ In e (uniqueEntries entries) ->
           fromRecord pdfPrefixes isAny Pdf.normTitle fullText e
           /\ isDate (decided e) = true
           /\ In (category e) (map Pdf.name Pdf.sections)
           /\ category e <> "MISCELLANEOUS"
           /\ 0 < String.length (title e) < 500.
Proof.
  intros fullText.
  destruct (pdf_extract_sound fullText) as (entries & E & H).
  exists entries. split; [exact E|].
  assert (G : forall e, In e entries ->
           fromRecord pdfPrefixes isAny Pdf.normTitle fullText e
           /\ isDate (decided e) = true
           /\ In (category e) (map Pdf.name Pdf.sections)
           /\ category e <> "MISCELLANEOUS"
           /\ 0 < String.length (title e) < 500).
  { intros e He. destruct (H e He) as (H1 & H2 & H3 & H4).
    repeat split; try assumption; try apply H4.
    apply in_map_iff in H3. destruct H3 as (cur & <- & Hc).
    now apply section_names_not_miscellaneous. }
  intros e [He|He]; [now apply G|].
  apply G. now apply uniqueEntries_In.
Qed.

(** X8. The variant with the fallback never mixes the two passes: its
    entries are either those of the sections, none of them MISCELLANEOUS
    and at least one in number, or those of the fallback, all of them
    MISCELLANEOUS.  In both cases every entry comes from a record that
    stands in the text. *)
Theorem X8_fallback_entries :
  forall fullText : string,
    exists entries,
      Pdf.extractWithFallback fullText = Some entries
      /\ (forall e, In e entries ->
            fromRecord pdfPrefixes isAny Pdf.normTitle fullText e
            /\ isDate (decided e) = true)
      /\ ((entries <> [] /\ Pdf.extract fullText = Some entries
           /\ forall e, In e entries -> category e <> "MISCELLANEOUS")
          \/ (Pdf.extract fullText = Some []
              /\ forall e, In e entries -> category e = "MISCELLANEOUS")).
Proof.
  intros fullText.
  destruct (pdf_extract_sound fullText) as (es & E & H).
  unfold Pdf.extractWithFallback. unfold Pdf.extract in E.
  destruct (Pdf.sectionLoop Pdf.sections fullText (0, [])) as [[li es']|]
    eqn:HS; [|discriminate].
  injection E as ->.
  destruct es as [|e0 es].
  - unfold Pdf.fallbackTaken. cbn [List.length Nat.eqb].
    destruct (whileExec_total Pdf.recordPattern fullText Pdf.fallbackBody
                minLen_recordPattern (S (String.length fullText)) li [])
      as (st' & W); [lia|].
    rewrite W. exists st'. split; [reflexivity|].
    pose proof (fallback_sound _ _ _ _ _ W) as F. split.
    + intros e He. destruct (F e He) as (F1 & F2 & _). now split.
    + right. unfold Pdf.extract. rewrite HS. split; [reflexivity|].
      intros e He. now apply F.
  - unfold Pdf.fallbackTaken. cbn [List.length Nat.eqb].
    exists (e0 :: es). split; [reflexivity|]. split.
    + intros e He. destruct (H e He) as (H1 & H2 & _). now split.
    + left. split; [discriminate|]. unfold Pdf.extract. rewrite HS.
      split; [reflexivity|]. intros e He.
      destruct (H e He) as (_ & _ & H3 & _).
      apply in_map_iff in H3. destruct H3 as (cur & <- & Hc).
      now apply section_names_not_miscellaneous.
Qed.

(** ** Matches do not overlap *)

Section Counting.

Lemma whileExec_count {St} (r : regex) (text : string)
    (body : rxMatch -> St -> St) (count : St -> nat) :
  (forall m st, count (body m st) <= S (count st)) ->
  forall (fuel li : nat) (st : St) li' st',
    li <= String.length text ->
    whileExec fuel r text body li st = Some (li', st') ->
    minLen r * count st' + li <= minLen r * count st + String.length text.
Proof.
  intros Hbody. induction fuel as [|fuel IH]; intros li st li' st' Hli H;
    [discriminate|].
  cbn [whileExec] in H. destruct (exec r text li) as [[m|] l1] eqn:E.
  - apply exec_bounds in E. destruct E as (-> & E1 & E2 & E3).
    apply IH in H; [|exact E3].
    pose proof (Nat.mul_le_mono_l _ _ (minLen r) (Hbody m st)) as Hm.
    rewrite Nat.mul_succ_r in Hm. lia.
  - injection H as _ <-. lia.
Qed.

Lemma subseq_length {X} (l1 l2 : list X) :
  subseq l1 l2 -> List.length l1 <= List.length l2.
Proof. induction 1; simpl; lia. Qed.

Lemma uniqueEntries_length (l : list entry) :
  List.length (uniqueEntries l) <= List.length l.
Proof.
  rewrite uniqueEntries_keepFirst. apply subseq_length, keepFirst_subseq.
Qed.

End Counting.

(** X9. The matches of the HTML path do not overlap and each takes 16
    characters at least, so a text of [n] characters gives [n / 16] entries
    at most, before and after deduplication; a text of fewer than 16
    characters gives none. *)
Theorem X9_html_entries_bound :
  forall rawText : string,
    exists entries,
      Html.extract rawText = Some entries
      /\ 16 * List.length entries <= String.length rawText
      /\ List.length (uniqueEntries entries) <= List.length entries
      /\ (String.length rawText < 16 -> entries = []).
Proof.
  intros rawText. destruct (html_extract_total rawText) as (entries & E).
  exists entries. split; [exact E|].
  unfold Html.extract in E.
  destruct (whileExec _ _ _ _ _ _) as [[li es]|] eqn:W; [|discriminate].
  injection E as <-.
  apply (whileExec_count _ _ _ (@List.length entry)) in W.
  - change (minLen Html.pattern) with 16 in W. cbn [List.length] in W.
    split; [lia|]. split; [apply uniqueEntries_length|].
    intros Hs. destruct es; [reflexivity | simpl in W; lia].
  - intros m st. unfold Html.body. rewrite length_app. simpl. lia.
  - lia.
Qed.

Lemma X9_html_entries_bound_witness :
  String.length "MC-1 A 1/02/24" < 16
  /\ exists entries,
       Html.extract "MC-1 A 1/02/24" = Some entries /\ entries = [].
Proof.
  split; [simpl; lia|].
  destruct (X9_html_entries_bound "MC-1 A 1/02/24") as (entries & E & _ & _ & H).
  exists entries. split; [exact E|]. apply H. simpl. lia.
Defined.

(** ** The answers of the HTML endpoint and what the dashboard shows *)

Section EndpointAndDashboard.

Lemma html_extract_nothing (text : string) :
  noDocketStart htmlPrefixes text "" = true -> Html.extract text = Some [].
Proof.
  intros H.
  destruct (html_extract_layout [] text) as (entries & E & Hall).
  - intros it [].
  - exact H.
  - cbn [layout] in E. rewrite E. now inversion Hall.
Qed.

Lemma includes_empty (s : string) : includes s "" = true.
Proof. destruct s; reflexivity. Qed.

Lemma startsWith_refl (s : string) : startsWith s s = true.
Proof.
  induction s as [|c s IH]; [reflexivity|]. simpl.
  now rewrite Ascii.eqb_refl.
Qed.

Lemma includes_refl (s : string) : includes s s = true.
Proof. destruct s; simpl; [reflexivity|]. now rewrite Ascii.eqb_refl, startsWith_refl. Qed.

Lemma lowerChar_nat (c : ascii) :
  Dashboard.lowerChar c
  = ascii_of_nat (if Dashboard.isCapital (nat_of_ascii c)
                  then nat_of_ascii c + 32 else nat_of_ascii c).
Proof.
  unfold Dashboard.lowerChar.
  destruct (Dashboard.isCapital (nat_of_ascii c)); [reflexivity|].
  now rewrite ascii_nat_embedding.
Qed.

Lemma lowerChar_sameLetter (a b : ascii) :
  sameLetter a b = true -> Dashboard.lowerChar a = Dashboard.lowerChar b.
Proof.
  rewrite !lowerChar_nat. unfold sameLetter, Dashboard.isCapital.
  generalize (nat_of_ascii a) as x. generalize (nat_of_ascii b) as y.
  intros y x H. f_equal.
  repeat match goal with
         | H : context [?u =? ?v] |- _ => destruct (Nat.eqb_spec u v)
         | H : context [?u <=? ?v] |- _ => destruct (Nat.leb_spec u v)
         | |- context [?u =? ?v] => destruct (Nat.eqb_spec u v)
         | |- context [?u <=? ?v] => destruct (Nat.leb_spec u v)
         end; cbn [andb orb negb] in *; try discriminate; lia.
Qed.

Lemma caseVariant_toLowerCase (s : string) :
  forall t, caseVariant s t = true ->
            Dashboard.toLowerCase s = Dashboard.toLowerCase t.
Proof.
  induction s as [|a s IH]; intros [|b t] H; try discriminate;
    [reflexivity|].
  cbn [caseVariant] in H. apply andb_true_iff in H. destruct H as [Hc H].
  cbn [Dashboard.toLowerCase].
  now rewrite (lowerChar_sameLetter a b Hc), (IH t H).
Qed.

Lemma lowerChar_idempotent (c : ascii) :
  Dashboard.lowerChar (Dashboard.lowerChar c) = Dashboard.lowerChar c.
Proof. destruct c as [[] [] [] [] [] [] [] []]; reflexivity. Qed.

Lemma toLowerCase_idempotent (s : string) :
  Dashboard.toLowerCase (Dashboard.toLowerCase s) = Dashboard.toLowerCase s.
Proof.
  induction s as [|c s IH]; [reflexivity|]. simpl.
  now rewrite lowerChar_idempotent, IH.
Qed.

Lemma filter_all {X} (f : X -> bool) (l : list X) :
  (forall x, In x l -> f x = true) -> filter f l = l.
Proof.
  induction l as [|a l IH]; intros H; [reflexivity|]. simpl.
  rewrite (H a (or_introl eq_refl)). f_equal. apply IH.
  intros x Hx. apply H. now right.
Qed.

End EndpointAndDashboard.

(** X10. When the page holds the marker, the HTML endpoint answers status
    200 with a success envelope whose count is the number of its entries,
    the entries being those of the extraction after deduplication, no two
    with the same number and title.  A page in which no docket begins is
    not an error for the endpoint: the answer is a success with count 0 and
    no entry. *)
Theorem X10_html_endpoint_success :
  forall (cheerioText : string -> string) (registerDate now data : string),
    includesUnits (toUpperCase data) (codeUnits "FMCSA REGISTER") = true ->
    exists entries,
      Html.extract (cheerioText data) = Some entries
      /\ handleRegister cheerioText registerDate now (Body data)
         = Some (mkResponse 200
                   (Success (List.length (uniqueEntries entries)) registerDate
                            now (uniqueEntries entries)))
      /\ NoDup (map key (uniqueEntries entries))
      /\ (noDocketStart htmlPrefixes (cheerioText data) "" = true ->
          handleRegister cheerioText registerDate now (Body data)
          = Some (mkResponse 200 (Success 0 registerDate now []))).
Proof.
  intros cheerioText registerDate now data Hm.
  destruct (html_extract_total (cheerioText data)) as (entries & E).
  exists entries. split; [exact E|].
  unfold handleRegister. rewrite Hm. cbn [negb]. cbv zeta. rewrite E.
  split; [reflexivity|]. split.
  - rewrite uniqueEntries_keepFirst. apply keepFirst_NoDup.
  - intros Hn. rewrite (html_extract_nothing _ Hn) in E.
    injection E as <-. reflexivity.
Qed.

Lemma X10_html_endpoint_success_witness :
  includesUnits
    (toUpperCase "<h1>FMCSA Register</h1><p>No decisions today</p>")
    (codeUnits "FMCSA REGISTER") = true
  /\ handleRegister (fun s => s) "20-FEB-24" "2024-02-20T00:00:00.000Z"
       (Body "<h1>FMCSA Register</h1><p>No decisions today</p>")
     = Some (mkResponse 200
               (Success 0 "20-FEB-24" "2024-02-20T00:00:00.000Z" [])).
Proof.
  split; [reflexivity|].
  destruct (X10_html_endpoint_success (fun s => s) "20-FEB-24"
              "2024-02-20T00:00:00.000Z"
              "<h1>FMCSA Register</h1><p>No decisions today</p>" eq_refl)
    as (entries & _ & _ & _ & H).
  apply H. reflexivity.
Defined.

(** X11. What the dashboard shows after a request to the HTML endpoint.
    Without the marker in the page: no data, and the error "API returned
    400".  With the marker and no entry: no data, and the error "No entries
    found for this date", although the endpoint answered with a success.
    With the marker and entries: the entries of the extraction after
    deduplication, no error, and these entries are saved with the date of
    the request.  So the dashboard shows data exactly when it shows no
    error. *)
Theorem X11_dashboard_after_fetch :
  forall (cheerioText : string -> string)
         (registerDate now data statusText dateToUse : string),
    exists r entries,
      handleRegister cheerioText registerDate now (Body data) = Some r
      /\ Html.extract (cheerioText data) = Some entries
      /\ (includesUnits (toUpperCase data) (codeUnits "FMCSA REGISTER") = false ->
          Dashboard.fetchOutcome statusText dateToUse r
          = Dashboard.mkView [] ("API returned 400: " ++ statusText) None)
      /\ (includesUnits (toUpperCase data) (codeUnits "FMCSA REGISTER") = true ->
          uniqueEntries entries = [] ->
          status r = 200 /\ success (json r) = true
          /\ Dashboard.fetchOutcome statusText dateToUse r
             = Dashboard.mkView [] "No entries found for this date" None)
      /\ (includesUnits (toUpperCase data) (codeUnits "FMCSA REGISTER") = true ->
          uniqueEntries entries <> [] ->
          Dashboard.fetchOutcome statusText dateToUse r
          = Dashboard.mkView (uniqueEntries entries) ""
              (Some (uniqueEntries entries, dateToUse)))
      /\ (Dashboard.error (Dashboard.fetchOutcome statusText dateToUse r) = ""
          <-> Dashboard.registerData
                (Dashboard.fetchOutcome statusText dateToUse r) <> []).
Proof.
  intros cheerioText registerDate now data statusText dateToUse.
  destruct (html_extract_total (cheerioText data)) as (entries & E).
  unfold handleRegister.
  destruct (includesUnits (toUpperCase data) (codeUnits "FMCSA REGISTER")) eqn:Hm;
    cbn [negb]; cbv zeta; [rewrite E|]; eexists; exists entries;
    (split; [reflexivity|]); (split; [first [exact E | reflexivity]|]).
  - split; [discriminate|]. unfold Dashboard.fetchOutcome.
    cbn [status json Dashboard.ok Nat.leb andb negb].
    destruct (uniqueEntries entries) as [|e0 u] eqn:U; cbn [List.length Nat.ltb Nat.leb].
    + split; [now repeat split|]. split; [now intros _ H; elim H|].
      cbn [Dashboard.error Dashboard.registerData].
      split; [discriminate | now intros H; elim H].
    + split; [discriminate|]. split; [reflexivity|].
      cbn [Dashboard.error Dashboard.registerData].
      split; [discriminate | reflexivity].
  - split; [reflexivity|]. split; [discriminate|]. split; [discriminate|].
    cbn. split; [discriminate | now intros H; elim H].
Qed.

Lemma X11_dashboard_after_fetch_witness :
  exists r entries,
    handleRegister (fun s => s) "20-FEB-24" "2024-02-20T00:00:00.000Z"
      (Body "FMCSA REGISTER: nothing decided") = Some r
    /\ Html.extract "FMCSA REGISTER: nothing decided" = Some entries
    /\ status r = 200 /\ success (json r) = true
    /\ Dashboard.fetchOutcome "OK" "2024-02-20" r
       = Dashboard.mkView [] "No entries found for this date" None.
Proof.
  destruct (X11_dashboard_after_fetch (fun s => s) "20-FEB-24"
              "2024-02-20T00:00:00.000Z" "FMCSA REGISTER: nothing decided"
              "OK" "2024-02-20")
    as (r & entries & Hr & He & _ & H & _).
  exists r, entries. split; [exact Hr|]. split; [exact He|].
  assert (En : entries = []).
  { vm_compute in He. now injection He as <-. }
  subst entries. apply H; reflexivity.
Defined.

(** X12. The search of the dashboard is insensitive to the case of the
    letters, in the term and in the entries: two terms that differ by the
    case of their letters only select the same entries, as does the
    lower-case form of a term, and an entry is selected or not whatever the
    case of the letters of its title and of its number.  With the category
    "all" and an empty term every entry is shown. *)
Theorem X12_filter_case_insensitive :
  forall (registerData : list entry) (selectedCategory term term' : string),
    caseVariant term term' = true ->
    Dashboard.filteredData registerData selectedCategory term'
    = Dashboard.filteredData registerData selectedCategory term
    /\ Dashboard.filteredData registerData selectedCategory
         (Dashboard.toLowerCase term)
       = Dashboard.filteredData registerData selectedCategory term
    /\ (forall e e' : entry,
          category e = category e' ->
          caseVariant (title e) (title e') = true ->
          caseVariant (number e) (number e') = true ->
          Dashboard.matchesFilter selectedCategory term e
          = Dashboard.matchesFilter selectedCategory term' e')
    /\ Dashboard.filteredData registerData "all" "" = registerData.
Proof.
  intros registerData selectedCategory term term' Hv.
  apply caseVariant_toLowerCase in Hv.
  unfold Dashboard.filteredData, Dashboard.matchesFilter. cbv zeta.
  rewrite toLowerCase_idempotent, <- Hv.
  split; [reflexivity|]. split; [reflexivity|]. split.
  - intros e e' Hc Ht Hn.
    apply caseVariant_toLowerCase in Ht. apply caseVariant_toLowerCase in Hn.
    now rewrite Hc, Ht, Hn.
  - apply filter_all. intros e _. cbn [Dashboard.toLowerCase].
    now rewrite includes_empty.
Qed.

(** The terms caf-e-acute in lower case and in capitals select the same
    entries. *)
Lemma X12_filter_case_insensitive_witness :
  Dashboard.filteredData
    [mkEntry "MC-1" ("Grand Caf" ++ String "233" " Lines") "01/02/2024"
             "REVOCATION";
     mkEntry "MC-2" "Smith Trucking" "01/02/2024" "REVOCATION"]
    "all" ("CAF" ++ String "201" "")
  = Dashboard.filteredData
      [mkEntry "MC-1" ("Grand Caf" ++ String "233" " Lines") "01/02/2024"
               "REVOCATION";
       mkEntry "MC-2" "Smith Trucking" "01/02/2024" "REVOCATION"]
      "all" ("caf" ++ String "233" "")
  /\ Dashboard.filteredData
       [mkEntry "MC-1" ("Grand Caf" ++ String "233" " Lines") "01/02/2024"
                "REVOCATION";
        mkEntry "MC-2" "Smith Trucking" "01/02/2024" "REVOCATION"]
       "all" ("CAF" ++ String "201" "")
     = [mkEntry "MC-1" ("Grand Caf" ++ String "233" " Lines") "01/02/2024"
                "REVOCATION"].
Proof.
  split; [|reflexivity].
  apply (X12_filter_case_insensitive
           [mkEntry "MC-1" ("Grand Caf" ++ String "233" " Lines") "01/02/2024"
                    "REVOCATION";
            mkEntry "MC-2" "Smith Trucking" "01/02/2024" "REVOCATION"]
           "all" ("caf" ++ String "233" "") ("CAF" ++ String "201" "")).
  reflexivity.
Defined.

(** X13. The categories that the extractors assign and the categories that
    the dashboards offer.  Every category of the HTML path is offered by the
    dashboard of [src/pages/FMCSARegister.tsx], and every category of the
    loop over the sections of the PDF path is offered by the dashboard of
    the PDF path.  The entries of the fallback are not: their category,
    MISCELLANEOUS, is no value of the menu of that dashboard, so that they
    are shown under "all" only and no category of the menu selects one of
    them, whatever the term. *)
Theorem X13_categories_offered :
  forall text : string,
    (exists entries,
       Html.extract text = Some entries
       /\ forall e, In e (uniqueEntries entries) ->
            In (category e) Dashboard.categories)
    /\ (exists entries,
          Pdf.extract text = Some entries
          /\ forall e, In e (uniqueEntries entries) ->
               In (category e) PdfDashboard.categories)
    /\ (exists entries,
          Pdf.extractWithFallback text = Some entries
          /\ (Pdf.fallbackRuns text = false ->
              forall e, In e (uniqueEntries entries) ->
                In (category e) PdfDashboard.categories)
          /\ (Pdf.fallbackRuns text = true ->
              (forall e, In e (uniqueEntries entries) ->
                 ~ In (category e) PdfDashboard.options)
              /\ Dashboard.filteredData (uniqueEntries entries) "all" ""
                 = uniqueEntries entries
              /\ forall selectedCategory term,
                   In selectedCategory PdfDashboard.categories ->
                   Dashboard.filteredData (uniqueEntries entries)
                     selectedCategory term = [])).
Proof.
  intros text.
  assert (Names : forall c, In c (map Pdf.name Pdf.sections) ->
                    In c PdfDashboard.categories).
  { unfold Pdf.sections, PdfDashboard.categories. simpl. intuition. }
  split; [|split].
  - destruct (html_extract_sound text) as (entries & E & H).
    exists entries. split; [exact E|]. intros e He.
    destruct (H e (uniqueEntries_In _ _ He)) as (_ & _ & Hc).
    unfold keywords in Hc. unfold Dashboard.categories. simpl in *.
    intuition.
  - destruct (pdf_extract_sound text) as (es & E & H).
    exists es. split; [exact E|]. intros e He.
    apply Names. now apply (H e (uniqueEntries_In _ _ He)).
  - destruct (pdf_extract_sound text) as (es & E & H).
    unfold Pdf.extractWithFallback, Pdf.fallbackRuns. unfold Pdf.extract in E.
    destruct (Pdf.sectionLoop Pdf.sections text (0, [])) as [[li es']|]
      eqn:HS; [|discriminate].
    injection E as ->.
    destruct (Pdf.fallbackTaken es) eqn:Ft.
    + assert (Hnil : es = []).
      { unfold Pdf.fallbackTaken in Ft. destruct es; [reflexivity|].
        discriminate. }
      subst es.
      destruct (whileExec_total Pdf.recordPattern text Pdf.fallbackBody
                  minLen_recordPattern (S (String.length text)) li [])
        as (es'' & W); [lia|].
      rewrite W. exists es''. split; [reflexivity|].
      split; [discriminate|]. intros _.
      assert (Hm : forall e, In e (uniqueEntries es'') ->
                     category e = "MISCELLANEOUS").
      { intros e He.
        now destruct (fallback_sound _ _ _ _ _ W e (uniqueEntries_In _ _ He))
          as (_ & _ & ->). }
      split; [|split].
      * intros e He. rewrite (Hm e He).
        unfold PdfDashboard.options, PdfDashboard.categories. simpl.
        intuition discriminate.
      * apply filter_all. intros e _. unfold Dashboard.matchesFilter.
        cbv zeta. cbn [Dashboard.toLowerCase String.eqb orb andb].
        now rewrite includes_empty.
      * intros c term Hc. unfold Dashboard.filteredData.
        apply filter_none. intros e He.
        unfold Dashboard.matchesFilter. cbv zeta. rewrite (Hm e He).
        replace (String.eqb c "all") with false.
        2:{ symmetry. apply String.eqb_neq. intros ->.
            unfold PdfDashboard.categories in Hc. simpl in Hc.
            intuition discriminate. }
        replace (String.eqb "MISCELLANEOUS" c) with false; [reflexivity|].
        symmetry. apply String.eqb_neq. intros <-.
        unfold PdfDashboard.categories in Hc. simpl in Hc.
        intuition discriminate.
    + exists es. split; [reflexivity|]. split; [|discriminate].
      intros _ e He. apply Names.
      now apply (H e (uniqueEntries_In _ _ He)).
Qed.

(** ** The endpoint of the PDF path *)

(** X14. The endpoint of the PDF path always answers.  A request whose
    method is not POST is answered without any request to the register: 200
    with no body for OPTIONS, 405 otherwise; a POST without a date is
    refused with 400.  An answer with status 200 to a POST comes from the
    document at the address made of the date without its hyphens; its count
    is the number of its entries, no two entries have the same number and
    title, and every entry has the name of a section as category and a title
    of 1 to 499 characters. *)
Theorem X14_pdf_endpoint_answers :
  forall (fetchPdfText : string -> fetched) (noBodyMessage now : string)
         (req : PdfEndpoint.request),
    exists a,
      PdfEndpoint.handle fetchPdfText noBodyMessage now req = Some a
      /\ (PdfEndpoint.method req <> "POST" ->
          a = if String.eqb (PdfEndpoint.method req) "OPTIONS"
              then PdfEndpoint.Ended 200 else PdfEndpoint.MethodNotAllowed)
      /\ (PdfEndpoint.method req = "POST" ->
          (PdfEndpoint.body req = Some None
           \/ PdfEndpoint.body req = Some (Some "")) ->
          a = PdfEndpoint.Refused 400 "Date is required (YYYY-MM-DD)" None)
      /\ (PdfEndpoint.method req = "POST" ->
          PdfEndpoint.statusOf a = 200 ->
          exists date fullText entries,
            PdfEndpoint.body req = Some (Some date) /\ date <> ""
            /\ fetchPdfText (PdfEndpoint.pdfUrl date) = Body fullText
            /\ Pdf.extract fullText = Some entries
            /\ a = PdfEndpoint.Answered (List.length (uniqueEntries entries))
                     date now (uniqueEntries entries)
            /\ NoDup (map key (uniqueEntries entries))
            /\ forall e, In e (uniqueEntries entries) ->
                 In (category e) (map Pdf.name Pdf.sections)
                 /\ 0 < String.length (title e) < 500).
Proof.
  intros fetchPdfText noBodyMessage now [method body].
  unfold PdfEndpoint.handle. cbn [PdfEndpoint.method PdfEndpoint.body].
  destruct (String.eqb_spec method "OPTIONS") as [->|Hopt].
  { eexists. split; [reflexivity|]. split; [reflexivity|].
    split; intros H; discriminate. }
  destruct (String.eqb_spec method "POST") as [->|Hpost]; cbn [negb].
  2:{ eexists. split; [reflexivity|]. split; [reflexivity|].
      split; intros H; now elim Hpost. }
  destruct body as [[[|c date]|]|].
  - eexists. split; [reflexivity|]. split; [now intros H; elim H|].
    split; [reflexivity | discriminate].
  - destruct (fetchPdfText (PdfEndpoint.pdfUrl (String c date)))
      as [fullText|message] eqn:F.
    + destruct (pdf_extract_sound fullText) as (entries & E & H).
      rewrite E. cbv zeta. eexists. split; [reflexivity|].
      split; [now intros Hn; elim Hn|].
      split; [intros _ [Hb|Hb]; discriminate|].
      intros _ _. exists (String c date), fullText, entries.
      repeat split; try assumption; try discriminate.
      * rewrite uniqueEntries_keepFirst. apply keepFirst_NoDup.
      * now apply (H e (uniqueEntries_In _ _ H0)).
      * now apply (H e (uniqueEntries_In _ _ H0)).
      * now apply (H e (uniqueEntries_In _ _ H0)).
    + eexists. split; [reflexivity|]. split; [now intros Hn; elim Hn|].
      split; [intros _ [Hb|Hb]; discriminate | discriminate].
  - eexists. split; [reflexivity|]. split; [now intros H; elim H|].
    split; [reflexivity | discriminate].
  - eexists. split; [reflexivity|]. split; [now intros H; elim H|].
    split; [intros _ [Hb|Hb]; discriminate | discriminate].
Qed.

Lemma X14_pdf_endpoint_answers_witness :
  PdfEndpoint.handle
    (fun url =>
       if String.eqb url
            "https://li-public.fmcsa.dot.gov/lihtml/rptspdf/LI_REGISTER20240220.PDF"
       then Body "REVOCATIONS MC-1 Smith Trucking 01/02/2024"
       else Threw "Request failed with status code 404")
    "no body" "2024-02-21T08:00:00.000Z"
    (PdfEndpoint.mkRequest "POST" (Some (Some "2024-02-20")))
  = Some (PdfEndpoint.Answered 1 "2024-02-20" "2024-02-21T08:00:00.000Z"
            [mkEntry "MC-1" "Smith Trucking" "01/02/2024" "REVOCATION"])
  /\ exists a,
       PdfEndpoint.handle (fun _ => Threw "unreachable") "no body" "now"
         (PdfEndpoint.mkRequest "GET" None) = Some a
       /\ a = PdfEndpoint.MethodNotAllowed.
Proof.
  split; [reflexivity|].
  destruct (X14_pdf_endpoint_answers (fun _ => Threw "unreachable") "no body"
              "now" (PdfEndpoint.mkRequest "GET" None))
    as (a & Ha & H & _).
  exists a. split; [exact Ha|]. apply H. discriminate.
Defined.

(** ** The BASIC scores of the safety route *)

Section BasicScores.

Lemma skipn_nth_error {X} (l : list X) (i : nat) :
  skipn i l = match nth_error l i with
              | Some x => x :: skipn (S i) l
              | None => []
              end.
Proof.
  revert i. induction l as [|a l IH]; intros [|i]; try reflexivity.
  simpl. rewrite IH. destruct (nth_error l i); [|reflexivity].
  destruct l; reflexivity.
Qed.

Lemma firstn_S_nil {X} (n : nat) : firstn n (@nil X) = [].
Proof. destruct n; reflexivity. Qed.

Lemma eachCell_cons (i : nat) (valSpan : option string) (text : string)
    (cells : list Server.cell) (acc : list (string * string)) :
  Server.eachCell i ((valSpan, text) :: cells) acc
  = Server.eachCell (S i) cells
      (match nth_error Server.safetyCategories i with
       | Some category =>
           (acc ++ [(category,
                     (fun val => match val with
                                 | EmptyString => "0"
                                 | _ => val
                                 end)
                       (Server.cleanText
                          (Some match valSpan with
                                | Some spanText => spanText
                                | None => text
                                end)))])%list
       | None => acc
       end).
Proof. destruct valSpan; reflexivity. Qed.

Lemma eachCell_categories (cells : list Server.cell) :
  forall i acc,
    map fst (Server.eachCell i cells acc)
    = (map fst acc
       ++ firstn (List.length cells) (skipn i Server.safetyCategories))%list.
Proof.
  induction cells as [|[valSpan text] cells IH]; intros i acc.
  - cbn [Server.eachCell List.length firstn]. now rewrite app_nil_r.
  - rewrite eachCell_cons. cbn [List.length]. rewrite IH.
    rewrite (skipn_nth_error Server.safetyCategories i).
    destruct (nth_error Server.safetyCategories i) as [cat|] eqn:E.
    + rewrite map_app, <- app_assoc. reflexivity.
    + assert (Hs : skipn (S i) Server.safetyCategories = []).
      { apply nth_error_None in E. apply skipn_all2. lia. }
      rewrite Hs, firstn_S_nil. reflexivity.
Qed.

Lemma eachCell_measures (P : string -> Prop) :
  (forall t, Server.cleanText (Some t) <> "" -> P (Server.cleanText (Some t))) ->
  P "0" ->
  forall cells i acc,
    (forall cat measure, In (cat, measure) acc -> P measure) ->
    forall cat measure,
      In (cat, measure) (Server.eachCell i cells acc) -> P measure.
Proof.
  intros Hclean H0. induction cells as [|[valSpan text] cells IH];
    intros i acc Hacc cat measure; [apply Hacc|].
  rewrite eachCell_cons. apply IH.
  destruct (nth_error Server.safetyCategories i) as [c|]; [|exact Hacc].
  intros c' m' Hin. apply in_app_iff in Hin.
  destruct Hin as [Hin|[Hin|[]]]; [now apply (Hacc c')|].
  apply pair_equal_spec in Hin. destruct Hin as [_ <-]. cbv beta.
  destruct (Server.cleanText _) eqn:E; [exact H0|].
  rewrite <- E. apply Hclean. now rewrite E.
Qed.

Lemma cleanText_ends (text : option string) :
  firstIs isSpace (Server.cleanText text) = false
  /\ lastIs isSpace (Server.cleanText text) = false.
Proof.
  destruct text as [t|]; [rewrite cleanText_some | now split].
  destruct (normal_form (Server.replaceNbsp t)) as (H1 & H2 & _).
  now split.
Qed.

End BasicScores.

(** X15. The BASIC scores pair the cells of the row with the seven
    categories by position: the categories of the scores are the first
    categories of the list, as many as there are cells, seven at most, in
    the order of the list; cells after the seventh are ignored.  No measure
    is empty, an empty cell giving the measure "0", and no measure begins
    or ends with white space. *)
Theorem X15_basic_scores_by_position :
  forall cells : list Server.cell,
    map fst (Server.basicScoresOf cells)
    = firstn (List.length cells) Server.safetyCategories
    /\ List.length (Server.basicScoresOf cells)
       = Nat.min (List.length cells) 7
    /\ forall category measure,
         In (category, measure) (Server.basicScoresOf cells) ->
         measure <> ""
         /\ firstIs isSpace measure = false
         /\ lastIs isSpace measure = false.
Proof.
  intros cells. unfold Server.basicScoresOf.
  assert (C : map fst (Server.eachCell 0 cells [])
              = firstn (List.length cells) Server.safetyCategories)
    by (rewrite eachCell_categories; reflexivity).
  split; [exact C|]. split.
  - rewrite <- (length_map fst), C, length_firstn. reflexivity.
  - apply (eachCell_measures
             (fun m => m <> "" /\ firstIs isSpace m = false
                       /\ lastIs isSpace m = false)).
    + intros t Ht. split; [exact Ht|].
      apply cleanText_ends.
    + now repeat split.
    + intros cat measure [].
Qed.

(** ** Blank texts *)

Section Blank.

Lemma trimEnd_empty_iff (s : string) :
  trimEnd s = "" <-> allChars isSpace s = true.
Proof.
  induction s as [|c s IH]; [now split|]. cbn [trimEnd allChars].
  destruct (trimEnd s) as [|d t] eqn:E.
  - destruct (isSpace c); [|split; discriminate].
    split; [intros _; now apply IH | reflexivity].
  - split; [discriminate|]. intros H. apply andb_true_iff in H.
    destruct H as [_ H]. apply IH in H. discriminate.
Qed.

Lemma allChars_dropWhile (s : string) :
  allChars isSpace (dropWhile isSpace s) = allChars isSpace s.
Proof.
  induction s as [|c s IH]; [reflexivity|]. cbn [dropWhile allChars].
  destruct (isSpace c) eqn:E; [exact IH|]. cbn [allChars]. now rewrite E.
Qed.

Lemma allChars_collapseFrom (s : string) :
  forall b, allChars isSpace (collapseFrom b s) = allChars isSpace s.
Proof.
  induction s as [|c s IH]; intros b; [reflexivity|].
  cbn [collapseFrom allChars]. destruct (isSpace c) eqn:E.
  - destruct b; [apply IH|]. cbn [allChars].
    change (isSpace " ") with true. apply IH.
  - cbn [allChars]. now rewrite E.
Qed.

Lemma allChars_replaceNbsp (s : string) :
  allChars isSpace (Server.replaceNbsp s)
  = allChars Server.isStrWhiteSpace s.
Proof.
  induction s as [|c s IH]; [reflexivity|].
  cbn [Server.replaceNbsp allChars]. rewrite IH. f_equal.
  unfold Server.isStrWhiteSpace.
  destruct (Nat.eqb (nat_of_ascii c) 160); [now rewrite orb_true_r|].
  now rewrite orb_false_r.
Qed.

End Blank.

(** X16. [cleanText] gives the empty string exactly for [null] or
    [undefined] and for a text made only of white space and no-break spaces
    (the empty text among them); every other text keeps a character. *)
Theorem X16_cleanText_empty_iff_blank :
  forall text : option string,
    Server.cleanText text = ""
    <-> text = None
        \/ exists t, text = Some t
                     /\ allChars Server.isStrWhiteSpace t = true.
Proof.
  intros [t|]; [|split; [now left | reflexivity]].
  rewrite cleanText_some. unfold trim, collapseSpaces.
  rewrite trimEnd_empty_iff, allChars_dropWhile, allChars_collapseFrom,
    allChars_replaceNbsp.
  split.
  - intros H. right. now exists t.
  - intros [H|(t' & H & Ht)]; [discriminate|]. now injection H as ->.
Qed.

(** ** The date converters *)

Section Dates.

Lemma formatDateForPDF_append (a b : string) :
  formatDateForPDF (a ++ b) = formatDateForPDF a ++ formatDateForPDF b.
Proof.
  induction a as [|c a IH]; [reflexivity|]. simpl.
  destruct (Ascii.eqb c "-"); [exact IH | simpl; now rewrite IH].
Qed.

Lemma formatDateForPDF_noHyphen (a : string) :
  noHyphen a = true -> formatDateForPDF a = a.
Proof.
  unfold noHyphen. induction a as [|c a IH]; [reflexivity|]. simpl.
  intros H. apply andb_true_iff in H. destruct H as [Hc Ha].
  apply negb_true_iff in Hc. now rewrite Hc, IH.
Qed.

Lemma noHyphen_formatDateForPDF (a : string) :
  noHyphen (formatDateForPDF a) = true.
Proof.
  unfold noHyphen. induction a as [|c a IH]; [reflexivity|]. simpl.
  destruct (Ascii.eqb c "-") eqn:E; [exact IH|]. simpl. now rewrite E, IH.
Qed.

Lemma forallb_seq (P : nat -> bool) (a n x : nat) :
  forallb P (seq a n) = true -> a <= x < a + n -> P x = true.
Proof.
  intros H Hx. apply (proj1 (forallb_forall P (seq a n)) H).
  now apply in_seq.
Qed.

Lemma day_two_digits (d : nat) :
  d < 100 -> padStart0 2 (String_ d) = twoDigits d.
Proof.
  intros H.
  assert (A : forallb (fun d => String.eqb (padStart0 2 (String_ d))
                                           (twoDigits d)) (seq 0 100) = true)
    by (vm_compute; reflexivity).
  apply String.eqb_eq. apply (forallb_seq _ 0 100 d A). lia.
Qed.

Lemma year_two_digits (y : nat) :
  10 <= y < 100 * 100 -> sliceLast 2 (String_ y) = twoDigits (y mod 100).
Proof.
  intros H.
  assert (A : forallb (fun y => String.eqb (sliceLast 2 (String_ y))
                                           (twoDigits (y mod 100)))
                (seq 10 (100 * 100 - 10)) = true)
    by (vm_compute; reflexivity).
  apply String.eqb_eq. apply (forallb_seq _ 10 (100 * 100 - 10) y A). lia.
Qed.

Lemma month_three_letters (m : nat) :
  m < 12 -> String.length (nth m months "undefined") = 3.
Proof.
  intros H. do 12 (destruct m as [|m]; [reflexivity|]). lia.
Qed.

End Dates.

(** X17. [formatDateForPDF] removes the hyphens and nothing else: of a date
    written year-month-day it gives the three parts in a row, it leaves a
    text without hyphens as it is, and applying it twice is applying it
    once, so that a date with and without its hyphens asks for the same
    document. *)
Theorem X17_formatDateForPDF_joins_parts :
  forall y m d : string,
    noHyphen y = true -> noHyphen m = true -> noHyphen d = true ->
    formatDateForPDF (y ++ "-" ++ m ++ "-" ++ d) = y ++ m ++ d
    /\ formatDateForPDF (y ++ m ++ d) = y ++ m ++ d
    /\ formatDateForPDF (formatDateForPDF (y ++ "-" ++ m ++ "-" ++ d))
       = formatDateForPDF (y ++ "-" ++ m ++ "-" ++ d)
    /\ PdfEndpoint.pdfUrl (y ++ "-" ++ m ++ "-" ++ d)
       = PdfEndpoint.pdfUrl (y ++ m ++ d).
Proof.
  intros y m d Hy Hm Hd.
  assert (E1 : formatDateForPDF (y ++ "-" ++ m ++ "-" ++ d) = y ++ m ++ d).
  { rewrite !formatDateForPDF_append.
    rewrite (formatDateForPDF_noHyphen y), (formatDateForPDF_noHyphen m),
      (formatDateForPDF_noHyphen d) by assumption.
    reflexivity. }
  assert (E2 : formatDateForPDF (y ++ m ++ d) = y ++ m ++ d).
  { rewrite !formatDateForPDF_append.
    now rewrite (formatDateForPDF_noHyphen y), (formatDateForPDF_noHyphen m),
      (formatDateForPDF_noHyphen d) by assumption. }
  split; [exact E1|]. split; [exact E2|]. split.
  - now rewrite E1, E2.
  - unfold PdfEndpoint.pdfUrl. now rewrite E1, E2.
Qed.

Lemma X17_formatDateForPDF_joins_parts_witness :
  noHyphen "2024" = true /\ noHyphen "02" = true /\ noHyphen "20" = true
  /\ formatDateForPDF ("2024" ++ "-" ++ "02" ++ "-" ++ "20")
     = "2024" ++ "02" ++ "20".
Proof.
  repeat (split; [reflexivity|]).
  apply (X17_formatDateForPDF_joins_parts "2024" "02" "20"); reflexivity.
Defined.

(** X18. For a date with a year from 10 to 9999, a month index below 12
    and a day below 100, [formatDateForFMCSA] gives nine characters: the two
    digits of the day, a hyphen, the three letters of the month, a hyphen,
    and the two digits of the year modulo 100.  The century is lost: two
    dates a hundred years apart give the same text. *)
Theorem X18_formatDateForFMCSA_shape :
  forall y m d : nat,
    10 <= y < 100 * 100 -> m < 12 -> d < 100 ->
    formatDateForFMCSA (mkDate y m d)
    = twoDigits d ++ "-" ++ nth m months "undefined" ++ "-"
      ++ twoDigits (y mod 100)
    /\ String.length (formatDateForFMCSA (mkDate y m d)) = 9
    /\ (y + 100 < 100 * 100 ->
        formatDateForFMCSA (mkDate (y + 100) m d)
        = formatDateForFMCSA (mkDate y m d)).
Proof.
  intros y m d Hy Hm Hd.
  assert (E : forall y', 10 <= y' < 100 * 100 ->
            formatDateForFMCSA (mkDate y' m d)
            = twoDigits d ++ "-" ++ nth m months "undefined" ++ "-"
              ++ twoDigits (y' mod 100)).
  { intros y' Hy'. unfold formatDateForFMCSA.
    cbn [getDate getMonth getFullYear].
    now rewrite day_two_digits, year_two_digits. }
  split; [now apply E|]. split.
  - rewrite E by exact Hy. rewrite !length_append.
    rewrite month_three_letters by exact Hm. reflexivity.
  - intros Hy'. rewrite !E by lia. do 4 f_equal.
    replace (y + 100) with (y + 1 * 100) by lia.
    now rewrite Nat.Div0.mod_add.
Qed.

Lemma X18_formatDateForFMCSA_shape_witness :
  10 <= 1924 < 100 * 100 /\ 1 < 12 /\ 20 < 100
  /\ formatDateForFMCSA (mkDate 1924 1 20) = "20-FEB-24"
  /\ formatDateForFMCSA (mkDate (1924 + 100) 1 20)
     = formatDateForFMCSA (mkDate 1924 1 20).
Proof.
  split; [lia|]. split; [lia|]. split; [lia|]. split; [reflexivity|].
  apply (X18_formatDateForFMCSA_shape 1924 1 20); lia.
Defined.

(** ** The texts that [cleanText] leaves as they are *)

Section FixedPoints.

Lemma collapseFrom_singleSpaced_id (s : string) :
  forall b, singleSpaced b s = true -> collapseFrom b s = s.
Proof.
  induction s as [|c s IH]; intros b H; [reflexivity|].
  cbn [singleSpaced] in H. cbn [collapseFrom]. destruct (isSpace c).
  - apply andb_true_iff in H. destruct H as [H1 H2].
    apply andb_true_iff in H1. destruct H1 as [Hb Hc].
    apply negb_true_iff in Hb. apply Ascii.eqb_eq in Hc. subst b c.
    now rewrite IH.
  - now rewrite IH.
Qed.

Lemma trimEnd_id (s : string) : lastIs isSpace s = false -> trimEnd s = s.
Proof.
  induction s as [|c s IH]; intros H; [reflexivity|].
  destruct s as [|d s].
  - simpl in *. now rewrite H.
  - rewrite trimEnd_cons_nonempty; rewrite IH by exact H;
      [reflexivity | discriminate].
Qed.

Lemma trim_id (s : string) :
  firstIs isSpace s = false -> lastIs isSpace s = false -> trim s = s.
Proof.
  intros H1 H2. unfold trim. rewrite dropWhile_firstIs by exact H1.
  now apply trimEnd_id.
Qed.

Lemma cleanText_fixes_normal_forms (s : string) :
  firstIs isSpace s = false -> lastIs isSpace s = false ->
  singleSpaced false s = true -> noNbsp s = true ->
  Server.cleanText (Some s) = s.
Proof.
  intros H1 H2 H3 H4. rewrite cleanText_some, replaceNbsp_id by exact H4.
  unfold collapseSpaces. rewrite collapseFrom_singleSpaced_id by exact H3.
  now apply trim_id.
Qed.

Lemma singleSpaced_snoc (s : string) (c : ascii) :
  isSpace c = false ->
  forall b, singleSpaced b s = true ->
            singleSpaced b (s ++ String c "") = true.
Proof.
  intros Hc. induction s as [|a s IH]; intros b H.
  - simpl. now rewrite Hc.
  - cbn [singleSpaced append] in *. destruct (isSpace a).
    + apply andb_true_iff in H. destruct H as [H1 H2].
      now rewrite H1, IH.
    + now apply IH.
Qed.

Lemma lastIs_snoc (p : ascii -> bool) (s : string) (c : ascii) :
  lastIs p (s ++ String c "") = p c.
Proof.
  induction s as [|a s IH]; [reflexivity|].
  cbn [append]. destruct s as [|b s]; [reflexivity|]. exact IH.
Qed.

Lemma noNbsp_snoc (s : string) (c : ascii) :
  noNbsp s = true -> Nat.eqb (nat_of_ascii c) 160 = false ->
  noNbsp (s ++ String c "") = true.
Proof.
  unfold noNbsp. intros H Hc. induction s as [|a s IH].
  - simpl. now rewrite Hc.
  - cbn [allChars append] in *. apply andb_true_iff in H.
    destruct H as [Ha Hs]. now rewrite Ha, IH.
Qed.

Lemma removeFirst_at_start (pat s : string) :
  Server.removeFirst pat (pat ++ s) = s.
Proof.
  destruct pat as [|c pat]; [now destruct s|].
  cbn [append Server.removeFirst].
  change (String c (pat ++ s)) with (String c pat ++ s).
  now rewrite startsWith_append, drop_length_append.
Qed.

Lemma removeFirst_char_at_end (c : ascii) (s : string) :
  allChars (fun a => negb (Ascii.eqb c a)) s = true ->
  Server.removeFirst (String c "") (s ++ String c "") = s.
Proof.
  induction s as [|a s IH]; intros H.
  - simpl. now rewrite Ascii.eqb_refl.
  - cbn [allChars] in H. apply andb_true_iff in H. destruct H as [Ha Hs].
    apply negb_true_iff in Ha.
    cbn [append Server.removeFirst startsWith]. rewrite Ha. cbn [andb].
    now rewrite IH.
Qed.

End FixedPoints.

(** X19. The texts that [cleanText] leaves as they are are exactly the
    texts in normal form: those that neither begin nor end with white
    space, whose only white space is single spaces, and that hold no
    no-break space. *)
Theorem X19_cleanText_fixed_points :
  forall s : string,
    Server.cleanText (Some s) = s
    <-> firstIs isSpace s = false
        /\ lastIs isSpace s = false
        /\ singleSpaced false s = true
        /\ noNbsp s = true.
Proof.
  intros s. split.
  - intros E. rewrite <- E. rewrite cleanText_some.
    destruct (normal_form (Server.replaceNbsp s)) as (H1 & H2 & H3).
    repeat split; try assumption.
    rewrite <- cleanText_some. apply cleanText_noNbsp.
  - intros (H1 & H2 & H3 & H4). now apply cleanText_fixes_normal_forms.
Qed.

(** X20. The rating date of the safety route is read out of the text
    "Rating Date: (date)": for a date in normal form, not empty and without
    closing parenthesis, the result is the date; without the element the result is
    "N/A". *)
Theorem X20_ratingDate_reads_date :
  forall d : string,
    Server.cleanText (Some d) = d ->
    d <> "" ->
    allChars (fun a => negb (Ascii.eqb ")" a)) d = true ->
    Server.ratingDateOf (Some ("Rating Date: (" ++ d ++ ")")) = d
    /\ Server.ratingDateOf None = "N/A".
Proof.
  intros d Hd Hne Hp. split; [|reflexivity].
  assert (N : firstIs isSpace d = false /\ lastIs isSpace d = false /\ singleSpaced false d = true /\ noNbsp d = true) by (rewrite <- Hd, cleanText_some; destruct (normal_form (Server.replaceNbsp d)) as (N1 & N2 & N3); repeat split; try assumption; rewrite <- cleanText_some; apply cleanText_noNbsp). destruct N as (H1 & H2 & H3 & H4).
  unfold Server.ratingDateOf.
  assert (E : Server.cleanText (Some ("Rating Date: (" ++ d ++ ")"))
              = "Rating Date: (" ++ d ++ ")").
  { apply cleanText_fixes_normal_forms.
    - reflexivity.
    - change ("Rating Date: (" ++ d ++ ")")
        with ("Rating Date: " ++ (String "(" d) ++ ")").
      destruct d as [|c d]; [now elim Hne|].
      change ("Rating Date: " ++ String "(" (String c d) ++ ")")
        with (String "R" ("ating Date: (" ++ String c d ++ ")")).
      cbn [append]. cbn [lastIs].
      change (String c (d ++ ")")) with (String c d ++ ")").
      apply (lastIs_snoc isSpace (String c d) ")").
    - cbn [append singleSpaced]. change (isSpace "R") with false.
      simpl. now apply singleSpaced_snoc.
    - unfold noNbsp. cbn [append allChars]. simpl.
      now apply noNbsp_snoc. }
  rewrite E.
  change ("Rating Date: (" ++ d ++ ")")
    with ("Rating Date:" ++ String " " (String "(" (d ++ ")"))).
  rewrite removeFirst_at_start.
  change (Server.removeFirst "(" (String " " (String "(" (d ++ ")"))))
    with (String " " (d ++ ")")).
  change (Server.removeFirst ")" (String " " (d ++ ")")))
    with (String " " (Server.removeFirst ")" (d ++ ")"))).
  rewrite removeFirst_char_at_end by exact Hp.
  unfold trim. cbn [dropWhile]. change (isSpace " ") with true. cbv iota.
  rewrite dropWhile_firstIs by exact H1. now apply trimEnd_id.
Qed.

Lemma X20_ratingDate_reads_date_witness :
  Server.ratingDateOf (Some "Rating Date: (01/15/2020)") = "01/15/2020"
  /\ Server.ratingDateOf None = "N/A".
Proof.
  apply (X20_ratingDate_reads_date "01/15/2020");
    [reflexivity | discriminate | reflexivity].
Defined.
